(** * Checkout-to-fulfilment pipeline of the Shop with Seye backend

    A shallow embedding of the order/payment pipeline of the API
    (apps/api): the cart aggregator, the Paystack adapter's webhook
    signature check, checkout initiation, payment finalisation, the
    webhook endpoint and the admin order routes, together with the
    properties the specification states about them.

    Conventions of the embedding.
    - A MongoDB collection that the code only reaches through [_id] is a
      [gmap] from object ids to documents; a collection that is queried on
      other fields is a list in insertion (natural) order, and [findOne] /
      [updateOne] act on the first document that matches.
    - [session.startTransaction] ... [commitTransaction] / [abortTransaction]
      is a state-and-error monad [Tx] run on a snapshot of the database: a
      throw inside the transaction leaves the database as it was.
    - [new Date()] and [Date.now()] read a clock value [now] that the caller
      of a handler supplies; generated object ids and [Math.random()] are
      supplied the same way.
    - JavaScript numbers that hold money and quantities are integers ([Z]).
    - A schema declared with [timestamps: true] carries [createdAt] /
      [updatedAt], and Mongoose sets [updatedAt] on every [save] and
      [updateOne].
    - Requests run one after another; the tenant and authentication
      middleware and the parsing of request bodies have already run when a
      handler starts, so a handler receives the resolved tenant, the role
      and the parsed body. The queue either exists ([REDIS_URL] set) and
      accepts a job, or does not exist. *)

From Stdlib Require Import ZArith Ascii List.
From stdpp Require Import base option list gmap strings pretty fin_maps.

(** ** Identifiers and strings *)

(** A MongoDB [ObjectId] (a 96-bit number). *)
Abbreviation ObjectId := N.

Definition hex_digit (n : N) : ascii :=
  nth (N.to_nat n)
      ["0"; "1"; "2"; "3"; "4"; "5"; "6"; "7"; "8"; "9";
       "a"; "b"; "c"; "d"; "e"; "f"]%char "0"%char.

Fixpoint hex_of (digits : nat) (n : N) (acc : string) : string :=
  match digits with
  | O => acc
  | S d => hex_of d (n / 16)%N (String (hex_digit (n mod 16)%N) acc)
  end.

(** [ObjectId.prototype.toString()]: 24 lowercase hexadecimal digits. *)
Definition oid_toString (id : ObjectId) : string := hex_of 24 id "".

(** [String.prototype.startsWith] and [String.prototype.includes]. *)
Fixpoint startsWith (hay needle : string) : bool :=
  match needle, hay with
  | EmptyString, _ => true
  | String _ _, EmptyString => false
  | String a n', String b h' => Ascii.eqb a b && startsWith h' n'
  end.

Fixpoint includes (hay needle : string) : bool :=
  startsWith hay needle ||
  match hay with
  | EmptyString => false
  | String _ rest => includes rest needle
  end.

(** JavaScript truthiness of an optional string: [undefined], [null] and the
    empty string are falsy. *)
Definition truthy (s : option string) : bool :=
  match s with
  | Some EmptyString | None => false
  | Some _ => true
  end.

(** A thrown [Error] with its [message]. *)
Inductive Err : Type := Error (message : string).

Definition message (e : Err) : string := let 'Error m := e in m.

(** ** Data model (models/order.ts, models/cart.ts, payment and catalog models) *)

Inductive OrderStatus : Type :=
  | pending | processing | paid | shipped | delivered | cancelled.

Inductive PaymentStatus : Type :=
  | initialized | success | failed | refunded.

#[global] Instance OrderStatus_eq_dec : EqDecision OrderStatus.
Proof. solve_decision. Defined.

#[global] Instance PaymentStatus_eq_dec : EqDecision PaymentStatus.
Proof. solve_decision. Defined.

(** The status as the string the schema stores. *)
Definition status_name (s : OrderStatus) : string :=
  match s with
  | pending => "pending" | processing => "processing" | paid => "paid"
  | shipped => "shipped" | delivered => "delivered" | cancelled => "cancelled"
  end.

(** [cartLineSchema] and [orderLineSchema] have the same fields. *)
Record Line : Type := mkLine {
  productId : ObjectId;
  variantId : ObjectId;
  name : string;
  quantity : Z;
  unitPriceNgn : Z
}.

(** [statusEventSchema]. *)
Record StatusEvent : Type := mkEvent {
  ev_status : OrderStatus;
  ev_note : string;
  ev_trackingNumber : option string;
  ev_actor : string;
  ev_at : Z
}.

Record Address : Type := mkAddress {
  address : string;
  city : string;
  state : string
}.

(** [orderSchema]. *)
Record Order : Type := mkOrder {
  o_id : ObjectId;
  o_tenantId : ObjectId;
  o_userId : ObjectId;
  orderRef : string;
  o_status : OrderStatus;
  subtotalNgn : Z;
  shippingNgn : Z;
  totalNgn : Z;
  shippingAddress : Address;
  trackingNumber : option string;
  lines : list Line;
  timeline : list StatusEvent;
  o_createdAt : Z;
  o_updatedAt : Z
}.

(** [paymentSchema]; [metadata] is the free-form ([Mixed]) object, a value
    [None] being a key that holds [undefined]. *)
Record Payment : Type := mkPayment {
  p_id : ObjectId;
  p_tenantId : ObjectId;
  p_userId : ObjectId;
  orderId : ObjectId;
  providerRef : string;
  p_status : PaymentStatus;
  amountNgn : Z;
  verifiedAt : option Z;
  metadata : gmap string (option string);
  p_createdAt : Z;
  p_updatedAt : Z
}.

(** [cartSchema]. *)
Record Cart : Type := mkCart {
  c_id : ObjectId;
  c_tenantId : ObjectId;
  c_userId : option ObjectId;
  sessionId : option string;
  c_lines : list Line;
  c_createdAt : Z;
  c_updatedAt : Z
}.

(** [variantSchema] and [productSchema] (the display-only fields of a
    product, its description and images, play no part here). *)
Record Variant : Type := mkVariant {
  v_id : ObjectId;
  sku : string;
  stock : Z;
  priceNgn : Z
}.

Record Product : Type := mkProduct {
  pr_tenantId : ObjectId;
  slug : string;
  variants : list Variant;
  pr_updatedAt : Z
}.

(** The fields of a user that the pipeline selects. *)
Record User : Type := mkUser {
  email : option string;
  firstName : option string;
  lastName : option string
}.

(** A saved customer address (models/customerAddress). *)
Record CustomerAddress : Type := mkCustomerAddress {
  a_tenantId : ObjectId;
  a_userId : ObjectId;
  addressLine1 : string;
  addressLine2 : option string;
  a_city : string;
  a_state : string
}.

(** ** Cart aggregator (utils/cart.ts) *)

Record Totals : Type := mkTotals {
  t_subtotalNgn : Z;
  t_shippingNgn : Z;
  t_totalNgn : Z
}.

(** The amounts are JavaScript Numbers, that is IEEE 754 doubles, here with
    whole values. A sum or product of two such doubles is the exact result
    rounded to the nearest double, ties to the even significand: exact up to
    2^53 in magnitude, and beyond that a multiple of the power of two that
    leaves 53 significant bits. (Results of 2^1024 and more, which a double
    holds as Infinity, are outside this model.) *)
Definition round_to_double (x : Z) : Z :=
  let a := Z.abs x in
  if (a <=? 9007199254740992)%Z then x
  else
    let e := (Z.log2 a - 52)%Z in
    let m := Z.shiftr a e in
    let r := (a - Z.shiftl m e)%Z in
    let half := Z.shiftl 1 (e - 1) in
    let m' := if (half <? r)%Z || ((r =? half)%Z && Z.odd m) then (m + 1)%Z else m in
    (Z.sgn x * Z.shiftl m' e)%Z.

Definition number_add (a b : Z) : Z := round_to_double (a + b).
Definition number_mul (a b : Z) : Z := round_to_double (a * b).

Definition calculateCartTotals (cart_lines : list Line) : Totals :=
  let subtotal :=
    fold_left (fun acc item => number_add acc (number_mul (quantity item) (unitPriceNgn item)))
              cart_lines 0%Z in
  let shipping := if (0 <? subtotal)%Z then 2500%Z else 0%Z in
  let total := number_add subtotal shipping in
  {| t_subtotalNgn := subtotal; t_shippingNgn := shipping; t_totalNgn := total |}.

(** ** Environment and external collaborators *)

(** Which of the two array conditions of an update filter the positional
    operator [$] takes its index from.  MongoDB documents the operator as
    ambiguous when a filter carries several conditions on one array; both
    readings are kept. *)
Inductive PositionalRule : Type :=
  | ByIdCondition      (* first element with [variants._id] equal to the id *)
  | ByStockCondition.  (* first element with [variants.stock] large enough *)

(** The process environment ([config/env], [process.env]) and the
    behaviours of its surroundings the code relies on: Node's
    [crypto.createHmac("sha512", key).update(body).digest("hex")], the
    server's positional rule, and how the two awaits that
    [finalizeSuccessfulPayment] makes between [commitTransaction] and its
    [return] end (the read of the customer and [notificationQueue.add]):
    [None] when both resolve, [Some e] when one rejects and the call ends by
    throwing [e]. *)
Record Env : Type := mkEnv {
  PAYSTACK_SECRET_KEY : option string;
  PAYSTACK_WEBHOOK_SECRET : option string;
  REDIS_URL : option string;
  hmac_sha512_hex : string -> string -> string;
  positional : PositionalRule;
  after_commit : option Err
}.

(** [OrderStatusNotificationPayload] (services/notificationQueue). *)
Record OrderStatusNotificationPayload : Type := mkNotification {
  n_tenantId : string;
  n_userId : string;
  n_email : string;
  n_customerName : string;
  n_orderId : string;
  n_orderRef : string;
  n_status : OrderStatus;
  n_trackingNumber : option string;
  n_note : option string
}.

Inductive CarrierStatus : Type :=
  | label_created | picked_up | in_transit | out_for_delivery
  | carrier_delivered | carrier_exception.

Definition carrier_status_name (s : CarrierStatus) : string :=
  match s with
  | label_created => "label_created" | picked_up => "picked_up"
  | in_transit => "in_transit" | out_for_delivery => "out_for_delivery"
  | carrier_delivered => "delivered" | carrier_exception => "exception"
  end.

(** [trackingEventSchema] (without the raw carrier payload). *)
Record TrackingEvent : Type := mkTrackingEvent {
  te_tenantId : ObjectId;
  te_orderId : ObjectId;
  te_provider : string;
  externalTrackingId : string;
  te_status : CarrierStatus;
  te_location : option string;
  te_message : option string;
  eventAt : Z
}.

(** An [AdminAuditLog] row as [logAdminAction] writes it. *)
Record AuditEntry : Type := mkAudit {
  au_tenantId : ObjectId;
  au_actorRole : string;
  au_action : string;
  au_entityId : ObjectId;
  au_message : string
}.

(** The document store. *)
Record Db : Type := mkDb {
  orders : gmap N Order;
  payments : list Payment;
  products : gmap N Product;
  carts : list Cart;
  users : gmap N User;
  addresses : gmap N CustomerAddress;
  trackingEvents : list TrackingEvent;
  auditLog : list AuditEntry
}.

(** The store together with the notification queue (BullMQ on Redis), which
    no database transaction covers. *)
Record World : Type := mkWorld {
  db : Db;
  queue : list OrderStatusNotificationPayload
}.

Definition set_orders (f : gmap N Order -> gmap N Order) (d : Db) : Db :=
  mkDb (f (orders d)) (payments d) (products d) (carts d) (users d)
       (addresses d) (trackingEvents d) (auditLog d).

Definition set_payments (f : list Payment -> list Payment) (d : Db) : Db :=
  mkDb (orders d) (f (payments d)) (products d) (carts d) (users d)
       (addresses d) (trackingEvents d) (auditLog d).

Definition set_products (f : gmap N Product -> gmap N Product) (d : Db) : Db :=
  mkDb (orders d) (payments d) (f (products d)) (carts d) (users d)
       (addresses d) (trackingEvents d) (auditLog d).

Definition set_carts (f : list Cart -> list Cart) (d : Db) : Db :=
  mkDb (orders d) (payments d) (products d) (f (carts d)) (users d)
       (addresses d) (trackingEvents d) (auditLog d).

Definition set_trackingEvents (f : list TrackingEvent -> list TrackingEvent) (d : Db) : Db :=
  mkDb (orders d) (payments d) (products d) (carts d) (users d)
       (addresses d) (f (trackingEvents d)) (auditLog d).

Definition set_auditLog (f : list AuditEntry -> list AuditEntry) (d : Db) : Db :=
  mkDb (orders d) (payments d) (products d) (carts d) (users d)
       (addresses d) (trackingEvents d) (f (auditLog d)).

(** ** Transactions: a state-and-error monad over the store *)

Definition Tx (A : Type) : Type := Db -> Err + (A * Db).

Definition tx_ret {A} (a : A) : Tx A := fun d => inr (a, d).

Definition tx_bind {A B} (m : Tx A) (k : A -> Tx B) : Tx B :=
  fun d => match m d with
           | inl e => inl e
           | inr (a, d') => k a d'
           end.

Definition tx_throw {A} (e : Err) : Tx A := fun _ => inl e.

Definition tx_modify (f : Db -> Db) : Tx unit := fun d => inr (tt, f d).

Notation "'do' x <- m ; k" := (tx_bind m (fun x => k))
  (at level 60, x name, m at next level, right associativity).
Notation "'do_' m ; k" := (tx_bind m (fun _ => k))
  (at level 60, m at next level, right associativity).

(** [startTransaction]; body; [commitTransaction], with [abortTransaction]
    and a rethrow in the [catch]: the store changes only when the body
    returns. *)
Definition withTransaction {A} (body : Tx A) (d : Db) : (Err + A) * Db :=
  match body d with
  | inl e => (inl e, d)
  | inr (a, d') => (inr a, d')
  end.

(** ** Store operations used by the pipeline *)

(** [PaymentModel.findOne({ providerRef: reference })]: no tenant in the
    filter. *)
Definition PaymentModel_findOne (reference : string) (d : Db) : option Payment :=
  List.find (fun p => String.eqb (providerRef p) reference) (payments d).

(** [PaymentModel.findOne({ tenantId, providerRef })], as the status and
    order routes query it. *)
Definition PaymentModel_findOne_in_tenant (tenant : ObjectId) (reference : string)
    (d : Db) : option Payment :=
  List.find (fun p => N.eqb (p_tenantId p) tenant && String.eqb (providerRef p) reference)
            (payments d).

Definition OrderModel_findById (id : ObjectId) (d : Db) : option Order :=
  orders d !! id.

Definition touch_payment (now : Z) (p : Payment) : Payment :=
  mkPayment (p_id p) (p_tenantId p) (p_userId p) (orderId p) (providerRef p)
            (p_status p) (amountNgn p) (verifiedAt p) (metadata p)
            (p_createdAt p) now.

Definition touch_order (now : Z) (o : Order) : Order :=
  mkOrder (o_id o) (o_tenantId o) (o_userId o) (orderRef o) (o_status o)
          (subtotalNgn o) (shippingNgn o) (totalNgn o) (shippingAddress o)
          (trackingNumber o) (lines o) (timeline o) (o_createdAt o) now.

Fixpoint update_first {A} (f : A -> bool) (g : A -> A) (l : list A) : list A :=
  match l with
  | [] => []
  | x :: l' => if f x then g x :: l' else x :: update_first f g l'
  end.

(** [payment.save({ session })]: an [updateOne] on the document's [_id];
    the result is the document as saved. *)
Definition payment_save (now : Z) (p : Payment) : Tx Payment :=
  fun d =>
    let p' := touch_payment now p in
    inr (p', set_payments
               (update_first (fun q => N.eqb (p_id q) (p_id p)) (fun _ => p')) d).

(** [order.save()], outside and inside a transaction. *)
Definition save_order (now : Z) (o : Order) (d : Db) : Db :=
  set_orders (fun os => <[o_id o := touch_order now o]> os) d.

Definition order_save (now : Z) (o : Order) : Tx Order :=
  fun d => inr (touch_order now o, save_order now o d).

Fixpoint findIndex {A} (f : A -> bool) (l : list A) : option nat :=
  match l with
  | [] => None
  | x :: l' => if f x then Some O else option_map S (findIndex f l')
  end.

Definition has_id (vid : ObjectId) (v : Variant) : bool := N.eqb (v_id v) vid.
Definition has_stock (q : Z) (v : Variant) : bool := (q <=? stock v)%Z.

(** The filter
    [{ _id, tenantId, "variants._id": vid, "variants.stock": { $gte: q } }]
    on one product. The filter has no [$elemMatch]: MongoDB then takes each
    dotted condition on the array by itself, and the document matches when
    some element has the id and some element, the same or another, has the
    stock. *)
Definition stock_filter_matches (tenant vid : ObjectId) (q : Z) (p : Product) : bool :=
  N.eqb (pr_tenantId p) tenant
  && existsb (has_id vid) (variants p)
  && existsb (has_stock q) (variants p).

Definition positional_index (rule : PositionalRule) (vid : ObjectId) (q : Z)
    (vs : list Variant) : option nat :=
  match rule with
  | ByIdCondition => findIndex (has_id vid) vs
  | ByStockCondition => findIndex (has_stock q) vs
  end.

Definition inc_stock (delta : Z) (v : Variant) : Variant :=
  mkVariant (v_id v) (sku v) (stock v + delta)%Z (priceNgn v).

(** [ProductModel.updateOne(filter, { $inc: { "variants.$.stock": -q } })];
    the result is [modifiedCount]. *)
Definition ProductModel_updateOne_decrement (rule : PositionalRule) (now : Z)
    (pid tenant vid : ObjectId) (q : Z) : Tx Z :=
  fun d =>
    match products d !! pid with
    | None => inr (0%Z, d)
    | Some p =>
      if stock_filter_matches tenant vid q p then
        match positional_index rule vid q (variants p) with
        | None => inr (0%Z, d)
        | Some i =>
          let p' := mkProduct (pr_tenantId p) (slug p)
                              (alter (inc_stock (- q)) i (variants p)) now in
          inr (1%Z, set_products (fun ps => <[pid := p']> ps) d)
        end
      else inr (0%Z, d)
    end.

Definition cart_of (tenant user : ObjectId) (c : Cart) : bool :=
  N.eqb (c_tenantId c) tenant &&
  match c_userId c with Some u => N.eqb u user | None => false end.

Definition clear_cart (now : Z) (c : Cart) : Cart :=
  mkCart (c_id c) (c_tenantId c) (c_userId c) (sessionId c) [] (c_createdAt c) now.

(** [CartModel.updateOne({ tenantId, userId }, { $set: { lines: [] } })]. *)
Definition CartModel_updateOne_clear (now : Z) (tenant user : ObjectId) : Tx unit :=
  tx_modify (set_carts (update_first (cart_of tenant user) (clear_cart now))).

Definition CartModel_findOne (tenant user : ObjectId) (d : Db) : option Cart :=
  List.find (cart_of tenant user) (carts d).

(** ** Notification queue (services/notificationQueue) *)

(** [enqueueOrderStatusNotification] when [notificationQueue.add]
    resolves: without [REDIS_URL] there is no queue and nothing is
    enqueued. An add that rejects makes the caller throw; in
    [finalizeSuccessfulPayment] that is [after_commit]. *)
Definition enqueueOrderStatusNotification (env : Env)
    (payload : OrderStatusNotificationPayload)
    (q : list OrderStatusNotificationPayload) : list OrderStatusNotificationPayload :=
  if truthy (REDIS_URL env) then q ++ [payload] else q.

Fixpoint trim_start (s : string) : string :=
  match s with
  | EmptyString => EmptyString
  | String c rest => if Ascii.is_space c then trim_start rest else s
  end.

(** [String.prototype.trim] on the ASCII white space characters. *)
Definition js_trim (s : string) : string :=
  String.rev (trim_start (String.rev (trim_start s))).

(** The template [`${firstName ?? ""} ${lastName ?? ""}`.trim()]. *)
Definition customer_name (u : User) : string :=
  js_trim (default "" (firstName u) +:+ " " +:+ default "" (lastName u)).

(** The lookup of the customer and the enqueue that both finalisation and
    the admin status route perform once their writes are done, when both
    awaits resolve. *)
Definition notify_customer (env : Env) (order : Order) (st : OrderStatus)
    (note : string) (tracking : option string) (w : World) : World :=
  match users (db w) !! o_userId order with
  | Some customer =>
    if truthy (email customer) then
      mkWorld (db w)
        (enqueueOrderStatusNotification env
           (mkNotification (oid_toString (o_tenantId order))
                           (oid_toString (o_userId order))
                           (default "" (email customer))
                           (customer_name customer)
                           (oid_toString (o_id order))
                           (orderRef order) st tracking (Some note))
           (queue w))
    else w
  | None => w
  end.

(** ** Payment finalisation (modules/payments.ts) *)

Record FinalizeResult : Type := mkFinalizeResult {
  r_payment : Payment;
  r_order : Order;
  idempotent : bool
}.

Definition confirm_payment (now : Z) (extra : gmap string (option string))
    (p : Payment) : Payment :=
  mkPayment (p_id p) (p_tenantId p) (p_userId p) (orderId p) (providerRef p)
            success (amountNgn p) (Some now) (extra ∪ metadata p)
            (p_createdAt p) (p_updatedAt p).

Definition push_event (st : OrderStatus) (ev : StatusEvent) (tracking : option string)
    (o : Order) : Order :=
  mkOrder (o_id o) (o_tenantId o) (o_userId o) (orderRef o) st
          (subtotalNgn o) (shippingNgn o) (totalNgn o) (shippingAddress o)
          tracking (lines o) (timeline o ++ [ev]) (o_createdAt o) (o_updatedAt o).

Definition mark_paid (now : Z) (o : Order) : Order :=
  push_event paid (mkEvent paid "Payment confirmed." None "system" now)
             (trackingNumber o) o.

(** The [for (const line of order.lines)] loop. *)
Fixpoint decrement_lines (rule : PositionalRule) (now : Z) (tenant : ObjectId)
    (ls : list Line) : Tx unit :=
  match ls with
  | [] => tx_ret tt
  | line :: rest =>
    do updated <- ProductModel_updateOne_decrement rule now (productId line) tenant
                    (variantId line) (quantity line);
    if (updated =? 1)%Z then decrement_lines rule now tenant rest
    else tx_throw (Error ("Failed to decrement stock for product "
                          +:+ oid_toString (productId line)))
  end.

(** The body between [startTransaction] and [commitTransaction]. *)
Definition finalize_transaction (env : Env) (now : Z)
    (extra : gmap string (option string)) (payment : Payment) (order : Order)
    : Tx (Payment * Order) :=
  do payment' <- payment_save now (confirm_payment now extra payment);
  do order' <- order_save now (mark_paid now order);
  do_ decrement_lines (positional env) now (o_tenantId order') (lines order');
  do_ CartModel_updateOne_clear now (o_tenantId order') (o_userId order');
  tx_ret (payment', order').

(** [finalizeSuccessfulPayment]. The read of the customer and the enqueue
    are inside the [try], after [commitTransaction]: when one of them
    rejects the call throws although the transaction is committed. *)
Definition finalizeSuccessfulPayment (env : Env) (now : Z) (reference : string)
    (extra : gmap string (option string)) (w : World)
    : (Err + FinalizeResult) * World :=
  match PaymentModel_findOne reference (db w) with
  | None => (inl (Error "Payment reference not found"), w)
  | Some payment =>
    match OrderModel_findById (orderId payment) (db w) with
    | None => (inl (Error "Order not found for payment"), w)
    | Some order =>
      if decide (p_status payment = success) then
        (inr (mkFinalizeResult payment order true), w)
      else
        match withTransaction (finalize_transaction env now extra payment order) (db w) with
        | (inl e, _) => (inl e, w)
        | (inr (payment', order'), d') =>
          match after_commit env with
          | Some e => (inl e, mkWorld d' (queue w))
          | None =>
            (inr (mkFinalizeResult payment' order' false),
             notify_customer env order' paid "Payment confirmed." None
                             (mkWorld d' (queue w)))
          end
        end
    end
  end.

(** ** Paystack adapter (services/paystack) *)

Definition verifyPaystackWebhookSignature (env : Env) (rawBody : string)
    (signature : option string) : bool :=
  match PAYSTACK_WEBHOOK_SECRET env with
  | Some (String c k) =>
    let hash := hmac_sha512_hex env (String c k) rawBody in
    match signature with
    | Some s => String.eqb hash s
    | None => false
    end
  | Some EmptyString | None => true
  end.

Record PaystackInit : Type := mkPaystackInit {
  authorization_url : string;
  init_reference : string;
  access_code : string
}.

(** What [axios] hands back: a rejected request, or a response body with
    its [status] flag and [data]. *)
Inductive HttpResult (A : Type) : Type :=
  | HttpFailed (e : Err)
  | HttpBody (ok : bool) (data : A).
Arguments HttpFailed {A} e.
Arguments HttpBody {A} ok data.

Definition initializePaystackTransaction (env : Env)
    (response : HttpResult PaystackInit) : Err + PaystackInit :=
  if truthy (PAYSTACK_SECRET_KEY env) then
    match response with
    | HttpFailed e => inl e
    | HttpBody false _ => inl (Error "Failed to initialize Paystack transaction")
    | HttpBody true data => inr data
    end
  else inl (Error "PAYSTACK_SECRET_KEY is not configured").

(** ** Webhook endpoint (modules/payments.ts) *)

(** The parsed JSON body of a webhook: [event], [data.reference],
    [data.gateway_response], [data.paid_at]. *)
Record WebhookPayload : Type := mkPayload {
  event : option string;
  reference : option string;
  gateway_response : option string;
  paid_at : option string
}.

(** A webhook request: the [x-paystack-signature] header, the body bytes
    the handler hashes ([req.body] when it is a [Buffer], its
    re-serialisation otherwise) and the JSON document of the body. *)
Record WebhookRequest : Type := mkWebhook {
  signature : option string;
  rawBody : string;
  payload : WebhookPayload
}.

Inductive WebhookResponse : Type :=
  | InvalidSignature
  | Acknowledged (idem : option bool)
  | MissingReference
  | NotFound (msg : string)
  | ProcessingFailed (detail : string).

Definition webhook_status (r : WebhookResponse) : Z :=
  match r with
  | InvalidSignature => 401
  | Acknowledged _ => 200
  | MissingReference => 400
  | NotFound _ => 404
  | ProcessingFailed _ => 500
  end.

Definition webhook_metadata (p : WebhookPayload) : gmap string (option string) :=
  <["source" := Some "webhook"]>
    (<["gatewayResponse" := gateway_response p]>
       (<["paidAt" := paid_at p]> ∅)).

Definition paystack_webhook (env : Env) (now : Z) (req : WebhookRequest) (w : World)
    : WebhookResponse * World :=
  if negb (verifyPaystackWebhookSignature env (rawBody req) (signature req)) then
    (InvalidSignature, w)
  else if negb (bool_decide (event (payload req) = Some "charge.success")) then
    (Acknowledged None, w)
  else
    match reference (payload req) with
    | Some (String c r) =>
      match finalizeSuccessfulPayment env now (String c r)
              (webhook_metadata (payload req)) w with
      | (inr result, w') => (Acknowledged (Some (idempotent result)), w')
      | (inl e, w') =>
        if includes (message e) "not found" then (NotFound (message e), w')
        else (ProcessingFailed (message e), w')
      end
    | Some EmptyString | None => (MissingReference, w)
    end.

(** ** Admin order routes (modules/admin) *)

Definition allowedTransition (from : OrderStatus) : list OrderStatus :=
  match from with
  | pending => [processing; shipped; cancelled]
  | processing => [shipped; cancelled]
  | paid => [processing; shipped; cancelled]
  | shipped => [delivered]
  | delivered => []
  | cancelled => []
  end.

Definition canTransition (from to : OrderStatus) : bool :=
  if decide (from = to) then true
  else bool_decide (to ∈ allowedTransition from).

(** [OrderModel.findOne({ _id, tenantId })]. *)
Definition OrderModel_findOne_in_tenant (id tenant : ObjectId) (d : Db) : option Order :=
  match orders d !! id with
  | Some o => if N.eqb (o_tenantId o) tenant then Some o else None
  | None => None
  end.

(** The parsed body of [adminOrderStatusUpdateSchema]. *)
Record StatusUpdate : Type := mkStatusUpdate {
  su_status : OrderStatus;
  su_trackingNumber : option string;
  su_note : option string
}.

Inductive AdminResponse : Type :=
  | OrderNotFound
  | InvalidTransition (msg : string)
  | TrackingRequired
  | StatusUpdated (id : string) (st : OrderStatus) (tracking : option string)
                  (tl : list StatusEvent)
  | TrackingRecorded.

Definition admin_status (r : AdminResponse) : Z :=
  match r with
  | OrderNotFound => 404
  | InvalidTransition _ => 409
  | TrackingRequired => 400
  | StatusUpdated _ _ _ _ => 200
  | TrackingRecorded => 201
  end.

Definition notifies (st : OrderStatus) : bool :=
  match st with
  | paid | shipped | delivered => true
  | _ => false
  end.

(** [logAdminAction] for ["order.status.update"], for claims whose
    [userId] is an ObjectId; [role] is the role of the claims, [None]
    without claims. *)
Definition logAdminAction (tenant : ObjectId) (role : option string) (o : Order)
    (d : Db) : Db :=
  match role with
  | None => d
  | Some r =>
    set_auditLog (fun lg => lg ++
      [mkAudit tenant r "order.status.update" (o_id o)
         ("Changed order " +:+ orderRef o +:+ " status to "
          +:+ status_name (o_status o) +:+ ".")]) d
  end.

(** [adminRouter.patch("/orders/:id/status")], after the permission check
    and the parse of the body. *)
Definition updateOrderStatus (env : Env) (now : Z) (tenant : ObjectId)
    (role : option string) (id : ObjectId) (body : StatusUpdate) (w : World)
    : AdminResponse * World :=
  match OrderModel_findOne_in_tenant id tenant (db w) with
  | None => (OrderNotFound, w)
  | Some order =>
    let st := su_status body in
    if negb (canTransition (o_status order) st) then
      (InvalidTransition ("Invalid transition from " +:+ status_name (o_status order)
                          +:+ " to " +:+ status_name st), w)
    else if bool_decide (st = shipped) && negb (truthy (su_trackingNumber body))
            && negb (truthy (trackingNumber order)) then
      (TrackingRequired, w)
    else
      let tracking := if truthy (su_trackingNumber body) then su_trackingNumber body
                      else trackingNumber order in
      let note := default ("Order marked as " +:+ status_name st) (su_note body) in
      let order' := push_event st
                      (mkEvent st note tracking (default "admin" role) now)
                      tracking order in
      let w1 := mkWorld (save_order now order' (db w)) (queue w) in
      let w2 := if notifies st then notify_customer env order' st note tracking w1
                else w1 in
      (StatusUpdated (oid_toString (o_id order')) (o_status order')
                     (trackingNumber order') (timeline order'),
       mkWorld (logAdminAction tenant role order' (db w2)) (queue w2))
  end.

(** The parsed body of [orderTrackingEventSchema]. *)
Record TrackingInput : Type := mkTrackingInput {
  ti_provider : string;
  ti_externalTrackingId : string;
  ti_status : CarrierStatus;
  ti_location : option string;
  ti_message : option string;
  ti_eventAt : option Z
}.

Definition moves_order (s : CarrierStatus) : bool :=
  match s with
  | carrier_delivered | out_for_delivery | in_transit => true
  | _ => false
  end.

(** [adminRouter.post("/orders/:id/tracking-events")]. *)
Definition postTrackingEvent (now : Z) (tenant : ObjectId) (role : option string)
    (id : ObjectId) (body : TrackingInput) (w : World) : AdminResponse * World :=
  match OrderModel_findOne_in_tenant id tenant (db w) with
  | None => (OrderNotFound, w)
  | Some order =>
    let ev := mkTrackingEvent tenant id (ti_provider body) (ti_externalTrackingId body)
                (ti_status body) (ti_location body) (ti_message body)
                (default now (ti_eventAt body)) in
    let d1 := set_trackingEvents (fun l => l ++ [ev]) (db w) in
    if moves_order (ti_status body) && truthy (Some (ti_externalTrackingId body)) then
      let tracking := Some (ti_externalTrackingId body) in
      let st :=
        match ti_status body with
        | carrier_delivered => delivered
        | _ => match o_status order with
               | processing | paid => shipped
               | s => s
               end
        end in
      let note := default ("Carrier update: " +:+ carrier_status_name (ti_status body))
                          (ti_message body) in
      let order' := push_event st
                      (mkEvent st note tracking (default "admin" role) now)
                      tracking order in
      (TrackingRecorded, mkWorld (save_order now order' d1) (queue w))
    else (TrackingRecorded, mkWorld d1 (queue w))
  end.

(** ** Checkout initiation (modules/checkout) *)

(** The parsed body of [checkoutInitSchema]. *)
Record CheckoutInit : Type := mkCheckoutInit {
  ci_email : string;
  ci_addressId : option ObjectId;
  ci_shippingAddress : option string;
  ci_city : option string;
  ci_state : option string
}.

Inductive CheckoutResponse : Type :=
  | CartEmpty
  | AddressNotFound
  | AddressRequired
  | CheckoutCreated (orderRef paymentRef authorizationUrl : string)
  | CheckoutThrown (e : Err).

Definition checkout_status (r : CheckoutResponse) : Z :=
  match r with
  | CartEmpty => 409
  | AddressNotFound => 404
  | AddressRequired => 400
  | CheckoutCreated _ _ _ => 201
  | CheckoutThrown _ => 500
  end.

Definition duplicate_key : Err := Error "E11000 duplicate key error".

(** [OrderModel.create([doc], { session })] under the [_id] index and the
    unique index [{ tenantId, orderRef }]. *)
Definition OrderModel_create (o : Order) : Tx Order :=
  fun d =>
    if bool_decide (orders d !! o_id o = None)
       && negb (bool_decide (map_Exists (fun _ o' =>
                  o_tenantId o' = o_tenantId o ∧ orderRef o' = orderRef o) (orders d)))
    then inr (o, set_orders (fun os => <[o_id o := o]> os) d)
    else inl duplicate_key.

(** [PaymentModel.create([doc], { session })] under the [_id] index and the
    unique index [{ tenantId, providerRef }]. *)
Definition PaymentModel_create (p : Payment) : Tx Payment :=
  fun d =>
    if forallb (fun q => negb (N.eqb (p_id q) (p_id p))
                         && negb (N.eqb (p_tenantId q) (p_tenantId p)
                                  && String.eqb (providerRef q) (providerRef p)))
               (payments d)
    then inr (p, set_payments (fun ps => ps ++ [p]) d)
    else inl duplicate_key.

(** The shipping address of a checkout: a saved address of this customer,
    or the inline fields. *)
Definition resolve_address (tenant user : ObjectId) (body : CheckoutInit) (d : Db)
    : CheckoutResponse + Address :=
  match ci_addressId body with
  | Some aid =>
    match addresses d !! aid with
    | Some a =>
      if N.eqb (a_tenantId a) tenant && N.eqb (a_userId a) user then
        inr (mkAddress
               (addressLine1 a +:+
                (if truthy (addressLine2 a)
                 then ", " +:+ default "" (addressLine2 a) else ""))
               (a_city a) (a_state a))
      else inl AddressNotFound
    | None => inl AddressNotFound
    end
  | None =>
    if truthy (ci_shippingAddress body) && truthy (ci_city body)
       && truthy (ci_state body) then
      inr (mkAddress (default "" (ci_shippingAddress body))
                     (default "" (ci_city body)) (default "" (ci_state body)))
    else inl AddressRequired
  end.

(** The two creates between [startTransaction] and [commitTransaction]. *)
Definition checkout_transaction (now : Z) (tenant user newOrderId newPaymentId : ObjectId)
    (orderReference paymentReference : string) (totals : Totals) (addr : Address)
    (cart : Cart) (paystack : PaystackInit) : Tx unit :=
  do order <- OrderModel_create
      (mkOrder newOrderId tenant user orderReference pending
         (t_subtotalNgn totals) (t_shippingNgn totals) (t_totalNgn totals) addr None
         (List.map (fun line => mkLine (productId line) (variantId line) (name line)
                                       (quantity line) (unitPriceNgn line))
                   (c_lines cart))
         [mkEvent pending "Order created and awaiting payment confirmation."
                  None "system" now]
         now now);
  do_ PaymentModel_create
      (mkPayment newPaymentId tenant user (o_id order) paymentReference initialized
         (t_totalNgn totals) None
         (<["accessCode" := Some (access_code paystack)]>
            (<["authorizationUrl" := Some (authorization_url paystack)]> ∅))
         now now);
  tx_ret tt.

(** [checkoutRouter.post("/initialize")], after [requireCustomer] and the
    parse of the body, for claims and an [addressId] whose texts are
    ObjectIds ([toObjectId] throws on others, before anything is written).
    [rnd] is the suffix
    [Math.random().toString(36).slice(2, 8).toUpperCase()]. *)
Definition initializeCheckout (env : Env) (now : Z) (rnd : string)
    (newOrderId newPaymentId : ObjectId) (gateway : HttpResult PaystackInit)
    (tenant user : ObjectId) (body : CheckoutInit) (w : World)
    : CheckoutResponse * World :=
  match CartModel_findOne tenant user (db w) with
  | None => (CartEmpty, w)
  | Some cart =>
    if bool_decide (c_lines cart = []) then (CartEmpty, w)
    else
      let totals := calculateCartTotals (c_lines cart) in
      let orderReference := "SWS-" +:+ pretty now in
      let paymentReference := "PAY-" +:+ pretty now +:+ "-" +:+ rnd in
      match resolve_address tenant user body (db w) with
      | inl r => (r, w)
      | inr addr =>
        match initializePaystackTransaction env gateway with
        | inl e => (CheckoutThrown e, w)
        | inr paystack =>
          match withTransaction
                  (checkout_transaction now tenant user newOrderId newPaymentId
                     orderReference paymentReference totals addr cart paystack)
                  (db w) with
          | (inl e, _) => (CheckoutThrown e, w)
          | (inr _, d') =>
            (CheckoutCreated orderReference paymentReference
                             (authorization_url paystack),
             mkWorld d' (queue w))
          end
        end
      end
  end.

(** ** Sequences of requests *)

(** The requests that write orders and payments. [OpFinalize] is the call
    the callback and status-poll routes make once the gateway has verified
    the reference. *)
Inductive Op : Type :=
  | OpCheckout (now : Z) (rnd : string) (newOrderId newPaymentId : ObjectId)
               (gateway : HttpResult PaystackInit) (tenant user : ObjectId)
               (body : CheckoutInit)
  | OpFinalize (now : Z) (reference : string) (extra : gmap string (option string))
  | OpWebhook (now : Z) (req : WebhookRequest)
  | OpUpdateStatus (now : Z) (tenant : ObjectId) (role : option string)
                   (id : ObjectId) (body : StatusUpdate)
  | OpTrackingEvent (now : Z) (tenant : ObjectId) (role : option string)
                    (id : ObjectId) (body : TrackingInput).

Definition run_op (env : Env) (w : World) (op : Op) : World :=
  match op with
  | OpCheckout now rnd oid pid gateway tenant user body =>
    snd (initializeCheckout env now rnd oid pid gateway tenant user body w)
  | OpFinalize now reference extra =>
    snd (finalizeSuccessfulPayment env now reference extra w)
  | OpWebhook now req => snd (paystack_webhook env now req w)
  | OpUpdateStatus now tenant role id body =>
    snd (updateOrderStatus env now tenant role id body w)
  | OpTrackingEvent now tenant role id body =>
    snd (postTrackingEvent now tenant role id body w)
  end.

Definition run_ops (env : Env) (ops : list Op) (w : World) : World :=
  fold_left (run_op env) ops w.

(** The orders collection is keyed by the documents' [_id]. *)
Definition orders_keyed (d : Db) : Prop :=
  ∀ k o, orders d !! k = Some o → o_id o = k.

(** Every order of [d] is still in [d'], its timeline extended at the end. *)
Definition timelines_grow (d d' : Db) : Prop :=
  ∀ k o, orders d !! k = Some o →
         ∃ o', orders d' !! k = Some o' ∧ timeline o `prefix_of` timeline o'.

(** The payments collection satisfies its two unique indexes, [_id] and
    [{ tenantId, providerRef }]. *)
Definition payments_indexed (ps : list Payment) : Prop :=
  NoDup (p_id <$> ps) ∧ NoDup ((fun p => (p_tenantId p, providerRef p)) <$> ps).

(** ** Definitions that follow the specification's words *)

(** "Sum over lines of quantity x unit price." *)
Fixpoint sum_lines (ls : list Line) : Z :=
  match ls with
  | [] => 0
  | l :: rest => (quantity l * unitPriceNgn l + sum_lines rest)%Z
  end.

(** The allowed-transition table of the specification (section 4.4). *)
Definition transition_table : list (OrderStatus * OrderStatus) :=
  [ (pending, processing); (pending, shipped); (pending, cancelled);
    (processing, shipped); (processing, cancelled);
    (paid, processing); (paid, shipped); (paid, cancelled);
    (shipped, delivered) ].

(** ** A concrete store

    One tenant (1) with one product (50) in two variants, A (10, stock 8)
    and B (11, stock 2); customer 7 with a cart and a pending order for
    five units of variant B, and the initialized payment of that order. *)
Module Demo.

Definition env (rule : PositionalRule) : Env :=
  mkEnv (Some "sk_test") (Some "whsec") (Some "redis://queue")
        (fun key body => "mac:" +:+ key +:+ ":" +:+ body) rule None.

Definition dress : Product :=
  mkProduct 1 "seye-red-dress"
    [mkVariant 10 "SRD-M-RED" 8 15000; mkVariant 11 "SRD-L-RED" 2 15000] 0.

Definition line_B (q : Z) : Line := mkLine 50 11 "Seye Red Dress" q 15000.

Definition order (q : Z) : Order :=
  mkOrder 100 1 7 "SWS-1" pending (q * 15000) 2500 (q * 15000 + 2500)
    (mkAddress "12 Admiralty Way" "Lagos" "Lagos") None [line_B q]
    [mkEvent pending "Order created and awaiting payment confirmation."
             None "system" 1]
    1 1.

Definition payment (q : Z) : Payment :=
  mkPayment 200 1 7 100 "PAY-1-ABC123" initialized (q * 15000 + 2500) None
    (<["accessCode" := Some "code"]> ∅) 1 1.

Definition cart (q : Z) : Cart :=
  mkCart 300 1 (Some 7%N) None [line_B q; mkLine 50 10 "Seye Red Dress" 1 15000] 0 0.

Definition ada : User := mkUser (Some "ada@example.com") (Some "Ada") (Some "Seye").

(** The store in which the order asks for [q] units of variant B. *)
Definition store (q : Z) : Db :=
  mkDb {[ 100%N := order q ]} [payment q] {[ 50%N := dress ]} [cart q]
       {[ 7%N := ada ]} ∅ [] [].

Definition world (q : Z) : World := mkWorld (store q) [].

Definition charge_success (ref : string) : WebhookRequest :=
  mkWebhook (Some ("mac:whsec:" +:+ ref)) ref
            (mkPayload (Some "charge.success") (Some ref) (Some "Approved") None).

(** Two tenants, each with one customer holding a cart, and nothing else. *)
Definition two_tenants : World :=
  mkWorld (mkDb ∅ []
             {[ 50%N := dress ]}
             [mkCart 300 1 (Some 7%N) None [line_B 1] 0 0;
              mkCart 301 2 (Some 8%N) None [line_B 1] 0 0]
             {[ 7%N := ada ]} ∅ [] []) [].

Definition inline_address : CheckoutInit :=
  mkCheckoutInit "ada@example.com" None (Some "12 Admiralty Way")
                 (Some "Lagos") (Some "Lagos").

Definition accepted : HttpResult PaystackInit :=
  HttpBody true (mkPaystackInit "https://paystack.test/authorize" "ref" "code").

(** A further checkout of customer 7 and the finalisation of its payment. *)
Definition second_order : list Op :=
  [OpCheckout 5 "X1Y2Z3" 101 201 accepted 1 7 inline_address;
   OpFinalize 9 "PAY-5-X1Y2Z3" ∅].

End Demo.

(** * Properties *)

(** ** Cart aggregator *)

(** [Number.MAX_SAFE_INTEGER], 2^53 - 1. *)
Definition MAX_SAFE_INTEGER : Z := 9007199254740991.

(** Cart lines as the schemas admit them (quantities and prices that are not
    negative) whose amounts stay in the range where Number arithmetic is
    exact: the sum of quantity times unit price, with the shipping fee on
    top, is a safe integer. *)
Definition safe_amounts (ls : list Line) : Prop :=
  Forall (fun l => (0 <= quantity l)%Z ∧ (0 <= unitPriceNgn l)%Z) ls
  ∧ (sum_lines ls + 2500 <= MAX_SAFE_INTEGER)%Z.

Lemma round_to_double_safe (x : Z) :
  (Z.abs x <= MAX_SAFE_INTEGER)%Z → round_to_double x = x.
Proof.
  intros Hx. unfold round_to_double, MAX_SAFE_INTEGER in *. cbv zeta.
  destruct (Z.leb_spec (Z.abs x) 9007199254740992); [reflexivity | lia].
Qed.

Lemma sum_lines_nonnegative (ls : list Line) :
  Forall (fun l => (0 <= quantity l)%Z ∧ (0 <= unitPriceNgn l)%Z) ls →
  (0 <= sum_lines ls)%Z.
Proof.
  induction 1 as [|l ls [Hq Hp] _ IH]; simpl; [lia | nia].
Qed.

Lemma fold_left_subtotal (ls : list Line) (acc : Z) :
  Forall (fun l => (0 <= quantity l)%Z ∧ (0 <= unitPriceNgn l)%Z) ls →
  (0 <= acc)%Z → (acc + sum_lines ls <= MAX_SAFE_INTEGER)%Z →
  fold_left (fun a item => number_add a (number_mul (quantity item) (unitPriceNgn item)))
            ls acc
  = (acc + sum_lines ls)%Z.
Proof.
  intros Hls. revert acc. induction Hls as [|l ls [Hq Hp] Hls IH]; intros acc Hacc Hsum.
  - simpl. lia.
  - pose proof (sum_lines_nonnegative ls Hls) as Hrest.
    cbn [fold_left sum_lines] in *.
    assert (Hprod : (0 <= quantity l * unitPriceNgn l)%Z) by nia.
    unfold number_add at 2, number_mul.
    rewrite (round_to_double_safe (quantity l * unitPriceNgn l)) by lia.
    rewrite (round_to_double_safe (acc + quantity l * unitPriceNgn l)) by lia.
    rewrite IH by lia. lia.
Qed.

Lemma calculateCartTotals_safe (ls : list Line) :
  safe_amounts ls →
  calculateCartTotals ls
  = mkTotals (sum_lines ls) (if (0 <? sum_lines ls)%Z then 2500 else 0)
             (sum_lines ls + (if (0 <? sum_lines ls)%Z then 2500 else 0)).
Proof.
  intros [Hls Hsum]. pose proof (sum_lines_nonnegative ls Hls) as Hpos.
  unfold calculateCartTotals. cbv zeta.
  rewrite fold_left_subtotal by (auto; lia). rewrite Z.add_0_l.
  unfold number_add. rewrite round_to_double_safe; [reflexivity|].
  destruct (0 <? sum_lines ls)%Z; lia.
Qed.

(** C5 as stated fails: Number arithmetic rounds. For three units at
    9007199254740991, a price the schemas admit, the subtotal returned is
    27021597764222972, one less than the sum of quantity times unit
    price. *)
Lemma calculateCartTotals_rounds :
  t_subtotalNgn (calculateCartTotals [mkLine 50 10 "Seye Red Dress" 3 9007199254740991])
  = 27021597764222972%Z
  ∧ sum_lines [mkLine 50 10 "Seye Red Dress" 3 9007199254740991] = 27021597764222973%Z
  ∧ t_subtotalNgn (calculateCartTotals [mkLine 50 10 "Seye Red Dress" 3 9007199254740991])
    ≠ sum_lines [mkLine 50 10 "Seye Red Dress" 3 9007199254740991].
Proof. repeat split; vm_compute; congruence. Qed.

(** C5, amended. For every list of cart lines whose quantities and unit
    prices are not negative and whose amounts are safe integers (the sum of
    quantity times unit price plus the fee is at most 2^53 - 1),
    [calculateCartTotals] (a function, so deterministic and free of effects)
    returns the subtotal that is the sum over the lines of quantity times
    unit price, a shipping fee of 0 when the subtotal is 0 and of 2500 when
    it is positive, and the total subtotal + shipping. *)
Theorem calculateCartTotals_spec (ls : list Line) :
  safe_amounts ls →
  let t := calculateCartTotals ls in
  t_subtotalNgn t = sum_lines ls
  ∧ (t_subtotalNgn t = 0%Z → t_shippingNgn t = 0%Z)
  ∧ ((0 < t_subtotalNgn t)%Z → t_shippingNgn t = 2500%Z)
  ∧ t_totalNgn t = (t_subtotalNgn t + t_shippingNgn t)%Z.
Proof.
  intros Hsafe. cbv zeta. rewrite (calculateCartTotals_safe ls Hsafe).
  cbn [t_subtotalNgn t_shippingNgn t_totalNgn]. repeat split.
  - intros ->. reflexivity.
  - intros Hpos. apply Z.ltb_lt in Hpos. now rewrite Hpos.
Qed.

Lemma calculateCartTotals_spec_witness :
  safe_amounts [mkLine 50 10 "Seye Red Dress" 2 15000; mkLine 50 11 "Seye Red Dress" 1 15000]
  ∧ calculateCartTotals
      [mkLine 50 10 "Seye Red Dress" 2 15000; mkLine 50 11 "Seye Red Dress" 1 15000]
    = mkTotals 45000 2500 47500.
Proof.
  assert (Hsafe : safe_amounts [mkLine 50 10 "Seye Red Dress" 2 15000;
                                mkLine 50 11 "Seye Red Dress" 1 15000]).
  { split; [repeat constructor; simpl; lia | vm_compute; discriminate]. }
  split; [exact Hsafe|].
  destruct (calculateCartTotals_spec _ Hsafe) as (_ & _ & _ & _). reflexivity.
Defined.

(** The scenario of the specification: one line, quantity 1 at 15000. *)
Example calculateCartTotals_scenario :
  calculateCartTotals [mkLine 50 10 "Seye Red Dress" 1 15000]
  = mkTotals 15000 2500 17500.
Proof. reflexivity. Qed.

(** ** Transition table and the admin status route *)

Lemma canTransition_decides (from to : OrderStatus) :
  canTransition from to = bool_decide (from = to ∨ (from, to) ∈ transition_table).
Proof. destruct from, to; vm_compute; reflexivity. Qed.

Lemma canTransition_table (from to : OrderStatus) :
  canTransition from to = true ↔ from = to ∨ (from, to) ∈ transition_table.
Proof. rewrite canTransition_decides. apply bool_decide_eq_true. Qed.

Lemma updateOrderStatus_rejects (env : Env) (now : Z) (tenant : ObjectId)
    (role : option string) (id : ObjectId) (body : StatusUpdate) (w : World)
    (order : Order) :
  OrderModel_findOne_in_tenant id tenant (db w) = Some order →
  canTransition (o_status order) (su_status body) = false →
  ∃ msg, updateOrderStatus env now tenant role id body w = (InvalidTransition msg, w).
Proof.
  intros Hfind Hno. unfold updateOrderStatus. rewrite Hfind. cbv zeta.
  rewrite Hno. simpl. eauto.
Qed.

Lemma updateOrderStatus_permits (env : Env) (now : Z) (tenant : ObjectId)
    (role : option string) (id : ObjectId) (body : StatusUpdate) (w : World)
    (order : Order) :
  OrderModel_findOne_in_tenant id tenant (db w) = Some order →
  canTransition (o_status order) (su_status body) = true →
  admin_status (fst (updateOrderStatus env now tenant role id body w)) ≠ 409%Z.
Proof.
  intros Hfind Hyes. unfold updateOrderStatus. rewrite Hfind. cbv zeta.
  rewrite Hyes. simpl negb. cbv iota.
  destruct (bool_decide _ && _ && _); simpl; discriminate.
Qed.

(** C3. For every pair of order statuses (from, to) with from <> to that is
    not in the allowed-transition table, the admin order-status update of
    an order in status [from] to [to] answers with the 409 conflict
    [InvalidTransition] and leaves the whole state, so the order's status
    and timeline, as it was; a same-state transition is permitted by
    [canTransition] and never answered with that conflict. *)
Theorem transition_table_enforced (env : Env) (now : Z) (tenant : ObjectId)
    (role : option string) (id : ObjectId) (body : StatusUpdate) (w : World)
    (order : Order) :
  OrderModel_findOne_in_tenant id tenant (db w) = Some order →
  (o_status order ≠ su_status body →
   (o_status order, su_status body) ∉ transition_table →
   ∃ msg, updateOrderStatus env now tenant role id body w = (InvalidTransition msg, w)
          ∧ admin_status (InvalidTransition msg) = 409%Z)
  ∧ (o_status order = su_status body →
     canTransition (o_status order) (su_status body) = true
     ∧ admin_status (fst (updateOrderStatus env now tenant role id body w)) ≠ 409%Z).
Proof.
  intros Hfind. split.
  - intros Hne Hout.
    destruct (updateOrderStatus_rejects env now tenant role id body w order Hfind)
      as [msg Hmsg]; [|exists msg; split; [exact Hmsg | reflexivity]].
    apply not_true_is_false. rewrite canTransition_table. tauto.
  - intros Heq.
    assert (Hcan : canTransition (o_status order) (su_status body) = true)
      by (apply canTransition_table; left; exact Heq).
    split; [exact Hcan|].
    now apply updateOrderStatus_permits with (order := order).
Qed.

(** The pending order of the concrete store cannot be marked delivered. *)
Lemma transition_table_enforced_witness :
  ∃ msg, updateOrderStatus (Demo.env ByIdCondition) 5 1 (Some "admin") 100
           (mkStatusUpdate delivered None None) (Demo.world 1)
         = (InvalidTransition msg, Demo.world 1)
         ∧ admin_status (InvalidTransition msg) = 409%Z.
Proof.
  apply (proj1 (transition_table_enforced (Demo.env ByIdCondition) 5 1 (Some "admin") 100
                  (mkStatusUpdate delivered None None) (Demo.world 1) (Demo.order 1)
                  eq_refl)).
  - discriminate.
  - vm_compute. intros H. repeat (inversion H as [|? ? ? H']; clear H; rename H' into H).
Defined.

(** ** Webhook signature *)

(** C4. [verifyPaystackWebhookSignature] returns true exactly when no
    webhook secret is configured (the variable is unset or empty) or the
    provided signature is the hex HMAC-SHA512 of the raw body under the
    secret; when it returns false the webhook endpoint answers 401 and the
    state (payments, orders, stock, carts, queue) is what it was, whatever
    the payload says. *)
Theorem webhook_signature_gate (env : Env) (now : Z) (req : WebhookRequest) (w : World) :
  (verifyPaystackWebhookSignature env (rawBody req) (signature req) = true
   ↔ truthy (PAYSTACK_WEBHOOK_SECRET env) = false
     ∨ ∃ secret, PAYSTACK_WEBHOOK_SECRET env = Some secret
                 ∧ signature req = Some (hmac_sha512_hex env secret (rawBody req)))
  ∧ (verifyPaystackWebhookSignature env (rawBody req) (signature req) = false →
     paystack_webhook env now req w = (InvalidSignature, w)
     ∧ webhook_status (fst (paystack_webhook env now req w)) = 401%Z).
Proof.
  split.
  - unfold verifyPaystackWebhookSignature.
    destruct (PAYSTACK_WEBHOOK_SECRET env) as [[|c k]|] eqn:Hs; simpl.
    + split; [intros _; left|]; reflexivity.
    + destruct (signature req) as [s|] eqn:Hsig.
      * rewrite String.eqb_eq. split.
        -- intros <-. right. eexists; split; reflexivity.
        -- intros [H|(secret & Hsec & Heq)]; [discriminate H|].
           injection Hsec as <-. injection Heq as ->. reflexivity.
      * split; [discriminate|].
        intros [H|(secret & _ & Heq)]; discriminate.
    + split; [intros _; left|]; reflexivity.
  - intros Hbad. unfold paystack_webhook. rewrite Hbad. simpl. split; reflexivity.
Qed.

(** A charge.success event for the payment of the concrete store, signed
    with the wrong key, is turned away. *)
Lemma webhook_signature_gate_witness :
  paystack_webhook (Demo.env ByIdCondition) 5
    (mkWebhook (Some "mac:other:PAY-1-ABC123") "PAY-1-ABC123"
       (payload (Demo.charge_success "PAY-1-ABC123"))) (Demo.world 1)
  = (InvalidSignature, Demo.world 1)
  ∧ webhook_status (fst (paystack_webhook (Demo.env ByIdCondition) 5
      (mkWebhook (Some "mac:other:PAY-1-ABC123") "PAY-1-ABC123"
         (payload (Demo.charge_success "PAY-1-ABC123"))) (Demo.world 1))) = 401%Z.
Proof.
  apply (proj2 (webhook_signature_gate (Demo.env ByIdCondition) 5
                  (mkWebhook (Some "mac:other:PAY-1-ABC123") "PAY-1-ABC123"
                     (payload (Demo.charge_success "PAY-1-ABC123"))) (Demo.world 1))).
  vm_compute. reflexivity.
Defined.

(** ** Store operations: frame and lookup lemmas *)

Lemma update_first_length {A} (f : A → bool) (g : A → A) (l : list A) :
  length (update_first f g l) = length l.
Proof.
  induction l as [|x l IH]; simpl; [reflexivity|].
  destruct (f x); simpl; congruence.
Qed.



(** After [payment.save] the lookup by reference finds the saved document. *)
Lemma find_after_payment_save (ref : string) (p p' : Payment) (ps : list Payment) :
  List.find (fun q => String.eqb (providerRef q) ref) ps = Some p →
  providerRef p' = ref →
  List.find (fun q => String.eqb (providerRef q) ref)
            (update_first (fun q => N.eqb (p_id q) (p_id p)) (fun _ => p') ps)
  = Some p'.
Proof.
  intros Hfind Href.
  assert (Hp' : String.eqb (providerRef p') ref = true) by now apply String.eqb_eq.
  induction ps as [|x ps IH]; simpl in *; [discriminate|].
  destruct (String.eqb (providerRef x) ref) eqn:Hx.
  - injection Hfind as ->. rewrite N.eqb_refl. simpl. now rewrite Hp'.
  - destruct (N.eqb (p_id x) (p_id p)); simpl.
    + now rewrite Hp'.
    + rewrite Hx. now apply IH.
Qed.

Lemma decrement_step_frame (rule : PositionalRule) (now : Z) (pid tenant vid : ObjectId)
    (q : Z) (d d' : Db) (n : Z) :
  ProductModel_updateOne_decrement rule now pid tenant vid q d = inr (n, d') →
  orders d' = orders d ∧ payments d' = payments d ∧ carts d' = carts d
  ∧ users d' = users d ∧ addresses d' = addresses d
  ∧ trackingEvents d' = trackingEvents d ∧ auditLog d' = auditLog d.
Proof.
  unfold ProductModel_updateOne_decrement.
  destruct (products d !! pid) as [p|]; [|intros [= _ <-]; tauto].
  destruct (stock_filter_matches tenant vid q p); [|intros [= _ <-]; tauto].
  destruct (positional_index rule vid q (variants p)); intros [= _ <-]; simpl; tauto.
Qed.

Lemma decrement_lines_frame (rule : PositionalRule) (now : Z) (tenant : ObjectId)
    (ls : list Line) (d d' : Db) :
  decrement_lines rule now tenant ls d = inr (tt, d') →
  orders d' = orders d ∧ payments d' = payments d ∧ carts d' = carts d
  ∧ users d' = users d ∧ addresses d' = addresses d
  ∧ trackingEvents d' = trackingEvents d ∧ auditLog d' = auditLog d.
Proof.
  revert d. induction ls as [|l ls IH]; intros d; simpl.
  - intros [= <-]. tauto.
  - unfold tx_bind.
    destruct (ProductModel_updateOne_decrement rule now (productId l) tenant
                (variantId l) (quantity l) d) as [e|[n d1]] eqn:Hstep; [discriminate|].
    destruct (n =? 1)%Z; [|discriminate].
    intros Hrest. apply IH in Hrest. apply decrement_step_frame in Hstep.
    intuition congruence.
Qed.

(** A failure of the loop is a failed decrement of some line's product. *)
Lemma decrement_lines_error (rule : PositionalRule) (now : Z) (tenant : ObjectId)
    (ls : list Line) (d : Db) (e : Err) :
  decrement_lines rule now tenant ls d = inl e →
  ∃ l, l ∈ ls ∧ e = Error ("Failed to decrement stock for product "
                            +:+ oid_toString (productId l)).
Proof.
  revert d. induction ls as [|l ls IH]; intros d; simpl; [discriminate|].
  unfold tx_bind.
  destruct (ProductModel_updateOne_decrement rule now (productId l) tenant
              (variantId l) (quantity l) d) as [e'|[n d1]] eqn:Hstep.
  - unfold ProductModel_updateOne_decrement in Hstep.
    destruct (products d !! productId l) as [p|]; [|discriminate].
    destruct (stock_filter_matches _ _ _ p); [|discriminate].
    destruct (positional_index _ _ _ _); discriminate.
  - destruct (n =? 1)%Z.
    + intros H. destruct (IH _ H) as (l' & Hin & ->). exists l'. split; [|reflexivity].
      now apply list_elem_of_further.
    + intros [= <-]. exists l. split; [apply list_elem_of_here | reflexivity].
Qed.

Lemma notify_customer_db (env : Env) (o : Order) (st : OrderStatus) (note : string)
    (tr : option string) (w : World) :
  db (notify_customer env o st note tr w) = db w.
Proof.
  unfold notify_customer. destruct (users (db w) !! o_userId o) as [u|]; [|reflexivity].
  destruct (truthy (email u)); reflexivity.
Qed.

(** ** The outcomes of [finalizeSuccessfulPayment] *)

(** What the committed transaction did to the store. *)
Record Committed (now : Z) (extra : gmap string (option string)) (payment : Payment)
    (order : Order) (d d' : Db) : Prop := mkCommitted {
  cm_payments :
    payments d' = update_first (fun q => N.eqb (p_id q) (p_id payment))
                    (fun _ => touch_payment now (confirm_payment now extra payment))
                    (payments d);
  cm_orders : orders d' = <[o_id order := touch_order now (mark_paid now order)]> (orders d);
  cm_carts :
    carts d' = update_first (cart_of (o_tenantId order) (o_userId order))
                 (clear_cart now) (carts d);
  cm_users : users d' = users d;
  cm_addresses : addresses d' = addresses d;
  cm_trackingEvents : trackingEvents d' = trackingEvents d;
  cm_auditLog : auditLog d' = auditLog d
}.

Lemma finalize_transaction_commits (env : Env) (now : Z)
    (extra : gmap string (option string)) (payment : Payment) (order : Order)
    (d d' : Db) (r : Payment * Order) :
  finalize_transaction env now extra payment order d = inr (r, d') →
  r = (touch_payment now (confirm_payment now extra payment),
       touch_order now (mark_paid now order))
  ∧ Committed now extra payment order d d'.
Proof.
  unfold finalize_transaction, tx_bind, payment_save, order_save. simpl.
  match goal with
  | |- context [decrement_lines ?r ?n ?t ?ls ?d0] =>
    destruct (decrement_lines r n t ls d0) as [e|[[] d3]] eqn:Hloop
  end; [discriminate|].
  unfold CartModel_updateOne_clear, tx_modify, tx_ret. simpl.
  intros [= <- <-]. split; [reflexivity|].
  apply decrement_lines_frame in Hloop. simpl in Hloop.
  destruct Hloop as (Ho & Hp & Hc & Hu & Ha & Ht & Hl).
  constructor; simpl; congruence.
Qed.

Lemma finalize_transaction_fails (env : Env) (now : Z)
    (extra : gmap string (option string)) (payment : Payment) (order : Order)
    (d : Db) (e : Err) :
  finalize_transaction env now extra payment order d = inl e →
  ∃ l, l ∈ lines order ∧ e = Error ("Failed to decrement stock for product "
                                     +:+ oid_toString (productId l)).
Proof.
  unfold finalize_transaction, tx_bind, payment_save, order_save. simpl.
  match goal with
  | |- context [decrement_lines ?r ?n ?t ?ls ?d0] =>
    destruct (decrement_lines r n t ls d0) as [e'|[[] d3]] eqn:Hloop
  end.
  - intros [= <-]. now apply decrement_lines_error in Hloop.
  - unfold CartModel_updateOne_clear, tx_modify, tx_ret. discriminate.
Qed.

(** The six ways a call of [finalizeSuccessfulPayment] ends. *)
Inductive finalize_case (env : Env) (now : Z) (ref : string)
    (extra : gmap string (option string)) (w : World)
    : (Err + FinalizeResult) * World → Prop :=
  | fin_no_payment :
      PaymentModel_findOne ref (db w) = None →
      finalize_case env now ref extra w (inl (Error "Payment reference not found"), w)
  | fin_no_order payment :
      PaymentModel_findOne ref (db w) = Some payment →
      OrderModel_findById (orderId payment) (db w) = None →
      finalize_case env now ref extra w (inl (Error "Order not found for payment"), w)
  | fin_replay payment order :
      PaymentModel_findOne ref (db w) = Some payment →
      OrderModel_findById (orderId payment) (db w) = Some order →
      p_status payment = success →
      finalize_case env now ref extra w (inr (mkFinalizeResult payment order true), w)
  | fin_aborted payment order l :
      PaymentModel_findOne ref (db w) = Some payment →
      OrderModel_findById (orderId payment) (db w) = Some order →
      p_status payment ≠ success →
      l ∈ lines order →
      finalize_case env now ref extra w
        (inl (Error ("Failed to decrement stock for product "
                     +:+ oid_toString (productId l))), w)
  | fin_committed payment order d' :
      PaymentModel_findOne ref (db w) = Some payment →
      OrderModel_findById (orderId payment) (db w) = Some order →
      p_status payment ≠ success →
      Committed now extra payment order (db w) d' →
      after_commit env = None →
      finalize_case env now ref extra w
        (inr (mkFinalizeResult (touch_payment now (confirm_payment now extra payment))
                               (touch_order now (mark_paid now order)) false),
         notify_customer env (touch_order now (mark_paid now order)) paid
                         "Payment confirmed." None (mkWorld d' (queue w)))
  | fin_thrown_after_commit payment order d' e :
      PaymentModel_findOne ref (db w) = Some payment →
      OrderModel_findById (orderId payment) (db w) = Some order →
      p_status payment ≠ success →
      Committed now extra payment order (db w) d' →
      after_commit env = Some e →
      finalize_case env now ref extra w (inl e, mkWorld d' (queue w)).

Lemma finalize_cases (env : Env) (now : Z) (ref : string)
    (extra : gmap string (option string)) (w : World) :
  finalize_case env now ref extra w (finalizeSuccessfulPayment env now ref extra w).
Proof.
  unfold finalizeSuccessfulPayment.
  destruct (PaymentModel_findOne ref (db w)) as [payment|] eqn:Hp;
    [|now constructor].
  destruct (OrderModel_findById (orderId payment) (db w)) as [order|] eqn:Ho;
    [|now apply fin_no_order with payment].
  destruct (decide (p_status payment = success)) as [Hs|Hs];
    [now apply fin_replay|].
  unfold withTransaction.
  destruct (finalize_transaction env now extra payment order (db w))
    as [e|[[p' o'] d']] eqn:Htx.
  - apply finalize_transaction_fails in Htx as (l & Hin & ->).
    now apply fin_aborted with payment order.
  - apply finalize_transaction_commits in Htx as [[= -> ->] Hcm].
    destruct (after_commit env) as [e|] eqn:Hafter;
      [now apply fin_thrown_after_commit with payment order | now apply fin_committed].
Qed.

(** What a committed transaction leaves when the call throws after it: the
    writes of the transaction, the queue as it was, and the error of
    [after_commit]. *)
Definition thrown_after_commit (env : Env) (now : Z) (ref : string)
    (extra : gmap string (option string)) (w w' : World) (e : Err) : Prop :=
  after_commit env = Some e
  ∧ queue w' = queue w
  ∧ ∃ payment order,
      PaymentModel_findOne ref (db w) = Some payment
      ∧ OrderModel_findById (orderId payment) (db w) = Some order
      ∧ p_status payment ≠ success
      ∧ Committed now extra payment order (db w) (db w').

(** A call that throws before the commit leaves the world as it found it:
    the transaction is aborted as a whole, whichever line failed. A call
    that throws after the commit leaves the writes committed. *)
Lemma finalize_failure_state (env : Env) (now : Z) (ref : string)
    (extra : gmap string (option string)) (w w' : World) (e : Err) :
  finalizeSuccessfulPayment env now ref extra w = (inl e, w') →
  w' = w ∨ thrown_after_commit env now ref extra w w' e.
Proof.
  intros H. pose proof (finalize_cases env now ref extra w) as Hc.
  rewrite H in Hc.
  inversion Hc as [| | | | | payment order d' e' Hp Ho Hs Hcm Hafter]; subst;
    try (left; reflexivity).
  right. split; [exact Hafter|]. split; [reflexivity|].
  exists payment, order. auto.
Qed.

Lemma finalize_failure_rolls_back (env : Env) (now : Z) (ref : string)
    (extra : gmap string (option string)) (w w' : World) (e : Err) :
  after_commit env = None →
  finalizeSuccessfulPayment env now ref extra w = (inl e, w') → w' = w.
Proof.
  intros Hnone H. destruct (finalize_failure_state _ _ _ _ _ _ _ H) as [-> | [Hsome _]];
    [reflexivity | congruence].
Qed.

Lemma finalize_replay (env : Env) (now : Z) (ref : string)
    (extra : gmap string (option string)) (w : World) (p : Payment) (o : Order) :
  PaymentModel_findOne ref (db w) = Some p →
  p_status p = success →
  OrderModel_findById (orderId p) (db w) = Some o →
  finalizeSuccessfulPayment env now ref extra w = (inr (mkFinalizeResult p o true), w).
Proof.
  intros Hp Hs Ho. unfold finalizeSuccessfulPayment. rewrite Hp, Ho.
  destruct (decide (p_status p = success)); [reflexivity | contradiction].
Qed.

Lemma PaymentModel_findOne_ref (ref : string) (d : Db) (p : Payment) :
  PaymentModel_findOne ref d = Some p → providerRef p = ref.
Proof.
  unfold PaymentModel_findOne. intros H. apply find_some in H as [_ H].
  now apply String.eqb_eq.
Qed.

(** ** Idempotent finalisation *)

(** C1. For a payment whose status is already [success], a call of
    [finalizeSuccessfulPayment] with its reference and any metadata returns
    that payment and its order marked idempotent and leaves the world
    untouched: the payment and order records, every stock, the carts, the
    timelines and the notification queue are the same before and after.
    Hence a call that follows a call that returned finds the state of the
    first call and leaves it as it is. *)
Theorem finalize_idempotent (env : Env) (now : Z) (ref : string)
    (extra : gmap string (option string)) (w : World) :
  (∀ p o, PaymentModel_findOne ref (db w) = Some p →
          p_status p = success →
          OrderModel_findById (orderId p) (db w) = Some o →
          finalizeSuccessfulPayment env now ref extra w
          = (inr (mkFinalizeResult p o true), w))
  ∧ (∀ r w1, finalizeSuccessfulPayment env now ref extra w = (inr r, w1) →
             ∀ now' extra', ∃ r',
               finalizeSuccessfulPayment env now' ref extra' w1 = (inr r', w1)
               ∧ idempotent r' = true
               ∧ r_payment r' = r_payment r).
Proof.
  split; [intros p o; apply finalize_replay|].
  intros r w1 H now' extra'.
  pose proof (finalize_cases env now ref extra w) as Hc. rewrite H in Hc.
  inversion Hc as [| | payment order Hp Ho Hs | | payment order d' Hp Ho Hs Hcm Hafter |];
    subst.
  - exists (mkFinalizeResult payment order true).
    split; [now apply finalize_replay|]. split; reflexivity.
  - set (p' := touch_payment now (confirm_payment now extra payment)).
    assert (Hfind : PaymentModel_findOne ref
                      (db (notify_customer env (touch_order now (mark_paid now order))
                             paid "Payment confirmed." None (mkWorld d' (queue w))))
                    = Some p').
    { rewrite notify_customer_db. simpl. unfold PaymentModel_findOne.
      rewrite (cm_payments _ _ _ _ _ _ Hcm).
      apply find_after_payment_save; [exact Hp|].
      simpl. now apply PaymentModel_findOne_ref in Hp. }
    assert (Hord : is_Some (OrderModel_findById (orderId p')
                      (db (notify_customer env (touch_order now (mark_paid now order))
                             paid "Payment confirmed." None (mkWorld d' (queue w)))))).
    { rewrite notify_customer_db. simpl. unfold OrderModel_findById.
      rewrite (cm_orders _ _ _ _ _ _ Hcm). apply lookup_insert_is_Some'.
      right. unfold OrderModel_findById in Ho. rewrite Ho. eauto. }
    destruct Hord as [o' Ho'].
    eexists. split; [apply finalize_replay; [exact Hfind | reflexivity | exact Ho']|].
    split; reflexivity.
Qed.

(** The webhook of the concrete store delivered twice: the second delivery
    is a replay. *)
Lemma finalize_idempotent_witness :
  ∃ r', finalizeSuccessfulPayment (Demo.env ByIdCondition) 10 "PAY-1-ABC123" ∅
          (snd (finalizeSuccessfulPayment (Demo.env ByIdCondition) 9 "PAY-1-ABC123" ∅
                  (Demo.world 1)))
        = (inr r', snd (finalizeSuccessfulPayment (Demo.env ByIdCondition) 9
                          "PAY-1-ABC123" ∅ (Demo.world 1)))
        ∧ idempotent r' = true
        ∧ r_payment r' = touch_payment 9 (confirm_payment 9 ∅ (Demo.payment 1)).
Proof.
  apply (proj2 (finalize_idempotent (Demo.env ByIdCondition) 9 "PAY-1-ABC123" ∅
                  (Demo.world 1))
               (mkFinalizeResult (touch_payment 9 (confirm_payment 9 ∅ (Demo.payment 1)))
                                 (touch_order 9 (mark_paid 9 (Demo.order 1))) false)).
  vm_compute. reflexivity.
Defined.

(** ** The stock guard *)

(** C2, at the failing input. The order of the concrete store asks for five
    units of variant B, which has two; variant A of the same product has
    eight. The filter of the decrement holds (B carries the id, A the
    stock), so finalisation commits: read by the id condition the
    positional operator takes B to -3, read by the stock condition it takes
    five units from A, which the order does not name. *)
Theorem finalize_guard_reads_other_variant :
  (∃ r w', finalizeSuccessfulPayment (Demo.env ByIdCondition) 9 "PAY-1-ABC123" ∅
             (Demo.world 5) = (inr r, w')
           ∧ idempotent r = false
           ∧ p_status <$> PaymentModel_findOne "PAY-1-ABC123" (db w') = Some success
           ∧ (List.map stock ∘ variants) <$> products (db w') !! 50%N
             = Some [8; -3]%Z)
  ∧ (∃ r w', finalizeSuccessfulPayment (Demo.env ByStockCondition) 9 "PAY-1-ABC123" ∅
               (Demo.world 5) = (inr r, w')
             ∧ idempotent r = false
             ∧ p_status <$> PaymentModel_findOne "PAY-1-ABC123" (db w') = Some success
             ∧ (List.map stock ∘ variants) <$> products (db w') !! 50%N
               = Some [3; 2]%Z).
Proof.
  split; eexists; eexists; (split; [vm_compute; reflexivity|]);
    repeat split; vm_compute; reflexivity.
Qed.

(** With a single variant the guard is the one the specification asks for:
    an order for more than the stock aborts, and payment, order, stock and
    cart stay as they were. *)
Example finalize_aborts_on_single_short_variant :
  let short := mkProduct 1 "seye-red-dress" [mkVariant 11 "SRD-L-RED" 2 15000] 0 in
  let w := mkWorld (set_products (fun ps => <[50%N := short]> ps) (Demo.store 5)) [] in
  finalizeSuccessfulPayment (Demo.env ByIdCondition) 9 "PAY-1-ABC123" ∅ w
  = (inl (Error "Failed to decrement stock for product 000000000000000000000032"), w).
Proof. vm_compute. reflexivity. Qed.

(** ** Error messages and the webhook's status codes *)

Fixpoint all_chars (P : ascii → bool) (s : string) : bool :=
  match s with
  | EmptyString => true
  | String c rest => P c && all_chars P rest
  end.

Definition is_hex (c : ascii) : bool :=
  existsb (Ascii.eqb c)
    ["0"; "1"; "2"; "3"; "4"; "5"; "6"; "7"; "8"; "9";
     "a"; "b"; "c"; "d"; "e"; "f"]%char.

Lemma hex_digit_is_hex (n : N) : is_hex (hex_digit n) = true.
Proof.
  unfold hex_digit. generalize (N.to_nat n) as k. intros k.
  do 16 (destruct k as [|k]; [reflexivity|]). destruct k; reflexivity.
Qed.

Lemma hex_of_is_hex (digits : nat) (n : N) (acc : string) :
  all_chars is_hex acc = true → all_chars is_hex (hex_of digits n acc) = true.
Proof.
  revert n acc. induction digits as [|k IH]; intros n acc Hacc; simpl; [exact Hacc|].
  apply IH. simpl. now rewrite hex_digit_is_hex.
Qed.

Lemma all_chars_impl (P Q : ascii → bool) (s : string) :
  (∀ c, P c = true → Q c = true) → all_chars P s = true → all_chars Q s = true.
Proof.
  intros HPQ. induction s as [|c s IH]; simpl; [reflexivity|].
  intros [Hc Hs]%andb_true_iff. rewrite (HPQ c Hc). now apply IH.
Qed.

(** A needle whose first character does not occur in the hay is not
    included in it. *)
Lemma includes_without_first (a : ascii) (rest hay : string) :
  all_chars (fun c => negb (Ascii.eqb a c)) hay = true →
  includes hay (String a rest) = false.
Proof.
  induction hay as [|c hay IH]; simpl; [reflexivity|].
  intros [Hc Hs]%andb_true_iff. apply negb_true_iff in Hc.
  rewrite Hc. simpl. now apply IH.
Qed.

Lemma hex_is_not_n (c : ascii) : is_hex c = true → negb (Ascii.eqb "n" c) = true.
Proof. destruct c as [[] [] [] [] [] [] [] []]; vm_compute; congruence. Qed.

(** The message of a failed stock decrement never reads "not found". *)
Lemma stock_message_not_found (pid : ObjectId) :
  includes ("Failed to decrement stock for product " +:+ oid_toString pid) "not found"
  = false.
Proof.
  assert (H : includes (oid_toString pid) "not found" = false).
  { apply includes_without_first.
    apply all_chars_impl with (P := is_hex); [apply hex_is_not_n|].
    now apply hex_of_is_hex. }
  revert H. generalize (oid_toString pid) as s. intros s H.
  unfold String.app, String.append. simpl. exact H.
Qed.

(** Whether a reference leads to a payment and that payment to its order. *)
Definition reference_resolves (ref : string) (d : Db) : bool :=
  match PaymentModel_findOne ref d with
  | Some p =>
    match OrderModel_findById (orderId p) d with
    | Some _ => true
    | None => false
    end
  | None => false
  end.

(** C7 as stated fails. Two authenticated charge.success events: one names
    a reference no payment holds and is answered 404; one names the payment
    of an order for five units of a product whose only variant has two, and
    is answered 500. *)
Lemma webhook_answers_404_and_500 :
  (verifyPaystackWebhookSignature (Demo.env ByIdCondition)
     (rawBody (Demo.charge_success "PAY-0-NONE"))
     (signature (Demo.charge_success "PAY-0-NONE")) = true
   ∧ webhook_status (fst (paystack_webhook (Demo.env ByIdCondition) 9
        (Demo.charge_success "PAY-0-NONE") (Demo.world 1))) = 404%Z)
  ∧ (verifyPaystackWebhookSignature (Demo.env ByIdCondition)
       (rawBody (Demo.charge_success "PAY-1-ABC123"))
       (signature (Demo.charge_success "PAY-1-ABC123")) = true
     ∧ webhook_status (fst (paystack_webhook (Demo.env ByIdCondition) 9
          (Demo.charge_success "PAY-1-ABC123")
          (mkWorld (set_products (fun ps =>
                      <[50%N := mkProduct 1 "seye-red-dress"
                                  [mkVariant 11 "SRD-L-RED" 2 15000] 0]> ps)
                      (Demo.store 5)) []))) = 500%Z).
Proof. repeat split; vm_compute; reflexivity. Qed.

(** The environment of [Demo] with the queue's connection closed: what
    [finalizeSuccessfulPayment] awaits after the commit rejects. *)
Definition queue_down (rule : PositionalRule) : Env :=
  mkEnv (Some "sk_test") (Some "whsec") (Some "redis://queue")
        (fun key body => "mac:" +:+ key +:+ ":" +:+ body) rule
        (Some (Error "Connection is closed.")).

(** C7, amended. An authenticated webhook is answered 200 when its event is
    not charge.success and when finalisation returns, on a first
    confirmation as on a replay. When finalisation throws, the answer is 404
    if the message of the error contains "not found" and 500 otherwise. A
    throw before the commit leaves the state as it was, and is answered 404
    exactly when the reference has no payment or the payment no order (500
    is then a failed stock decrement); a throw after the commit leaves the
    writes of the transaction in place and the queue as it was. *)
Theorem webhook_status_by_outcome (env : Env) (now : Z) (req : WebhookRequest)
    (w : World) :
  verifyPaystackWebhookSignature env (rawBody req) (signature req) = true →
  (event (payload req) ≠ Some "charge.success" →
   paystack_webhook env now req w = (Acknowledged None, w)
   ∧ webhook_status (fst (paystack_webhook env now req w)) = 200%Z)
  ∧ (∀ ref, event (payload req) = Some "charge.success" →
            reference (payload req) = Some ref → ref ≠ "" →
            match finalizeSuccessfulPayment env now ref
                    (webhook_metadata (payload req)) w with
            | (inr r, w') =>
              paystack_webhook env now req w = (Acknowledged (Some (idempotent r)), w')
              ∧ webhook_status (fst (paystack_webhook env now req w)) = 200%Z
            | (inl e, w') =>
              snd (paystack_webhook env now req w) = w'
              ∧ webhook_status (fst (paystack_webhook env now req w))
                = (if includes (message e) "not found" then 404 else 500)%Z
              ∧ (w' = w
                 ∧ includes (message e) "not found" = negb (reference_resolves ref (db w))
                 ∨ thrown_after_commit env now ref (webhook_metadata (payload req)) w w' e)
            end).
Proof.
  intros Hsig. unfold paystack_webhook. rewrite Hsig. simpl negb. cbv iota. split.
  - intros Hev. rewrite bool_decide_eq_false_2 by exact Hev. simpl. split; reflexivity.
  - intros ref Hev Href Hne. rewrite bool_decide_eq_true_2 by exact Hev. simpl.
    rewrite Href. destruct ref as [|c ref]; [contradiction|].
    pose proof (finalize_cases env now (String c ref) (webhook_metadata (payload req)) w)
      as Hc.
    destruct (finalizeSuccessfulPayment env now (String c ref)
                (webhook_metadata (payload req)) w) as [[e|r] w'] eqn:Hfin;
      [|split; reflexivity].
    split; [now destruct (includes (message e) "not found")|].
    split; [now destruct (includes (message e) "not found")|].
    unfold reference_resolves.
    inversion Hc as [Hp | p Hp Ho | | p o l Hp Ho Hs Hl | | p o d' e' Hp Ho Hs Hcm Hafter];
      subst.
    + left. rewrite Hp. split; reflexivity.
    + left. rewrite Hp, Ho. split; reflexivity.
    + left. rewrite Hp, Ho. cbn [message]. now rewrite stock_message_not_found.
    + right. split; [exact Hafter|]. split; [reflexivity|]. exists p, o. auto.
Qed.

(** The first delivery of the charge.success event for the payment of the
    concrete store is acknowledged with 200. *)
Lemma webhook_status_by_outcome_witness :
  webhook_status (fst (paystack_webhook (Demo.env ByIdCondition) 9
     (Demo.charge_success "PAY-1-ABC123") (Demo.world 1))) = 200%Z.
Proof.
  refine (proj2 (proj2 (webhook_status_by_outcome (Demo.env ByIdCondition) 9
                   (Demo.charge_success "PAY-1-ABC123") (Demo.world 1) _)
                   "PAY-1-ABC123" _ _ _)).
  - vm_compute. reflexivity.
  - reflexivity.
  - reflexivity.
  - discriminate.
Defined.

(** With the queue's connection closed, the first delivery of the event is
    answered 500 although the payment was committed; the delivery the
    gateway then repeats is a replay and is answered 200. *)
Example webhook_500_after_commit :
  let first := paystack_webhook (queue_down ByIdCondition) 9
                 (Demo.charge_success "PAY-1-ABC123") (Demo.world 1) in
  let second := paystack_webhook (queue_down ByIdCondition) 10
                  (Demo.charge_success "PAY-1-ABC123") (snd first) in
  fst first = ProcessingFailed "Connection is closed."
  ∧ p_status <$> payments (db (snd first)) = [success]
  ∧ queue (snd first) = []
  ∧ second = (Acknowledged (Some true), snd first).
Proof. vm_compute. repeat split; reflexivity. Qed.

(** ** Cart clearing *)




(** ** Checkout initiation *)

Lemma checkout_transaction_outcome (now : Z) (tenant user oid pid : ObjectId)
    (oref pref : string) (totals : Totals) (addr : Address) (cart : Cart)
    (paystack : PaystackInit) (d : Db) :
  match checkout_transaction now tenant user oid pid oref pref totals addr cart paystack d with
  | inl e => e = duplicate_key
  | inr (_, d') =>
    ∃ order payment,
      orders d !! oid = None
      ∧ d' = set_payments (fun ps => ps ++ [payment])
               (set_orders (fun os => <[oid := order]> os) d)
      ∧ o_id order = oid ∧ o_tenantId order = tenant ∧ o_userId order = user
      ∧ orderRef order = oref ∧ o_status order = pending
      ∧ ev_status <$> timeline order = [pending]
      ∧ lines order = c_lines cart
      ∧ p_id payment = pid ∧ p_tenantId payment = tenant ∧ orderId payment = oid
      ∧ providerRef payment = pref ∧ p_status payment = initialized
      ∧ amountNgn payment = t_totalNgn totals
      ∧ forallb (fun q => negb (N.eqb (p_id q) pid)
                          && negb (N.eqb (p_tenantId q) tenant
                                   && String.eqb (providerRef q) pref))
                (payments d) = true
  end.
Proof.
  unfold checkout_transaction, tx_bind, OrderModel_create. cbn [o_id o_tenantId orderRef].
  destruct (bool_decide (orders d !! oid = None)) eqn:Hfree; simpl; [|reflexivity].
  destruct (negb (bool_decide (map_Exists _ (orders d)))); simpl; [|reflexivity].
  unfold PaymentModel_create. cbn [p_id p_tenantId providerRef payments set_orders].
  destruct (forallb _ (payments d)) eqn:Hidx; simpl; [|reflexivity].
  apply bool_decide_eq_true in Hfree.
  eexists _, _. split; [exact Hfree|]. split; [reflexivity|].
  cbn. repeat split; try reflexivity.
  clear. induction (c_lines cart) as [|[] ls IH]; simpl; [reflexivity|]. now rewrite IH.
Qed.

(** What a checkout leaves behind: the pair of documents, or nothing. *)
Definition checkout_created (oid pid tenant : ObjectId) (w w' : World)
    (order : Order) (payment : Payment) : Prop :=
  orders (db w) !! oid = None
  ∧ db w' = set_payments (fun ps => ps ++ [payment])
              (set_orders (fun os => <[oid := order]> os) (db w))
  ∧ queue w' = queue w
  ∧ o_id order = oid ∧ o_status order = pending
  ∧ ev_status <$> timeline order = [pending]
  ∧ orderId payment = oid ∧ p_status payment = initialized
  ∧ p_id payment = pid ∧ p_tenantId payment = tenant
  ∧ forallb (fun q => negb (N.eqb (p_id q) (p_id payment))
                      && negb (N.eqb (p_tenantId q) (p_tenantId payment)
                               && String.eqb (providerRef q) (providerRef payment)))
            (payments (db w)) = true.

Lemma initializeCheckout_outcome (env : Env) (now : Z) (rnd : string)
    (oid pid : ObjectId) (gateway : HttpResult PaystackInit) (tenant user : ObjectId)
    (body : CheckoutInit) (w : World) :
  let out := initializeCheckout env now rnd oid pid gateway tenant user body w in
  (∃ paystack order payment,
      initializePaystackTransaction env gateway = inr paystack
      ∧ fst out = CheckoutCreated (orderRef order) (providerRef payment)
                                  (authorization_url paystack)
      ∧ checkout_created oid pid tenant w (snd out) order payment)
  ∨ (checkout_status (fst out) ≠ 201%Z ∧ snd out = w).
Proof.
  cbv zeta. unfold initializeCheckout.
  destruct (CartModel_findOne tenant user (db w)) as [cart|];
    [|right; split; [discriminate|reflexivity]].
  destruct (bool_decide (c_lines cart = []));
    [right; split; [discriminate|reflexivity]|].
  destruct (resolve_address tenant user body (db w)) as [resp|addr] eqn:Haddr.
  { right. split; [|reflexivity]. unfold resolve_address in Haddr.
    repeat match type of Haddr with
           | context [match ?x with _ => _ end] => destruct x
           end; inversion Haddr; discriminate. }
  destruct (initializePaystackTransaction env gateway) as [e|paystack];
    [right; split; [discriminate|reflexivity]|].
  unfold withTransaction.
  pose proof (checkout_transaction_outcome now tenant user oid pid
                ("SWS-" +:+ pretty now) ("PAY-" +:+ pretty now +:+ "-" +:+ rnd)
                (calculateCartTotals (c_lines cart)) addr cart paystack (db w)) as Htx.
  destruct (checkout_transaction _ _ _ _ _ _ _ _ _ _ _ (db w)) as [e|[[] d']].
  - right. split; [discriminate|reflexivity].
  - left. destruct Htx as (order & payment & Hfree & -> & Hoid & _ & _ & Horef & Hst
                           & Htl & _ & Hpid & Hten & Hlink & Hpref & Hpst & _ & Hidx).
    exists paystack, order, payment. split; [reflexivity|].
    split; [simpl; now rewrite Horef, Hpref|].
    unfold checkout_created. simpl. rewrite Hpid, Hten, Hpref.
    repeat split; auto.
Qed.

(** What a checkout needs to be answered 201: a cart with lines, a shipping
    address, a gateway call that returned, and identifiers and references
    that the indexes of the two collections do not hold yet. *)
Definition checkout_accepted (env : Env) (now : Z) (rnd : string) (oid pid : ObjectId)
    (gateway : HttpResult PaystackInit) (tenant user : ObjectId) (body : CheckoutInit)
    (w : World) : Prop :=
  ∃ cart addr paystack,
    CartModel_findOne tenant user (db w) = Some cart
    ∧ c_lines cart ≠ []
    ∧ resolve_address tenant user body (db w) = inr addr
    ∧ initializePaystackTransaction env gateway = inr paystack
    ∧ orders (db w) !! oid = None
    ∧ ¬ map_Exists (fun _ o => o_tenantId o = tenant
                               ∧ orderRef o = "SWS-" +:+ pretty now) (orders (db w))
    ∧ Forall (fun q => p_id q ≠ pid
                       ∧ ¬ (p_tenantId q = tenant
                            ∧ providerRef q = "PAY-" +:+ pretty now +:+ "-" +:+ rnd))
             (payments (db w)).

Lemma payment_index_free (pid tenant : ObjectId) (pref : string) (ps : list Payment) :
  forallb (fun q => negb (N.eqb (p_id q) pid)
                    && negb (N.eqb (p_tenantId q) tenant
                             && String.eqb (providerRef q) pref)) ps = true
  ↔ Forall (fun q => p_id q ≠ pid ∧ ¬ (p_tenantId q = tenant ∧ providerRef q = pref)) ps.
Proof.
  induction ps as [|q ps IH]; [split; [constructor | reflexivity]|].
  cbn [forallb]. rewrite Forall_cons, andb_true_iff, IH, andb_true_iff, !negb_true_iff.
  rewrite N.eqb_neq, andb_false_iff, N.eqb_neq, String.eqb_neq.
  destruct (decide (p_tenantId q = tenant)); tauto.
Qed.

Lemma initializeCheckout_accepted (env : Env) (now : Z) (rnd : string)
    (oid pid : ObjectId) (gateway : HttpResult PaystackInit) (tenant user : ObjectId)
    (body : CheckoutInit) (w : World) :
  checkout_status (fst (initializeCheckout env now rnd oid pid gateway tenant user body w))
  = 201%Z
  ↔ checkout_accepted env now rnd oid pid gateway tenant user body w.
Proof.
  unfold checkout_accepted, initializeCheckout. split.
  - destruct (CartModel_findOne tenant user (db w)) as [cart|]; [|discriminate].
    destruct (bool_decide (c_lines cart = [])) eqn:Hne; [discriminate|].
    apply bool_decide_eq_false in Hne. cbv zeta.
    destruct (resolve_address tenant user body (db w)) as [resp|addr] eqn:Haddr.
    { intros Hresp. exfalso. unfold resolve_address in Haddr.
      repeat match type of Haddr with
             | context [match ?x with _ => _ end] => destruct x
             end; inversion Haddr; subst; discriminate. }
    destruct (initializePaystackTransaction env gateway) as [e|paystack]; [discriminate|].
    unfold withTransaction, checkout_transaction, tx_bind, OrderModel_create.
    cbn [o_id o_tenantId orderRef].
    destruct (bool_decide (orders (db w) !! oid = None)) eqn:Hfree; [|discriminate].
    destruct (bool_decide (map_Exists _ (orders (db w)))) eqn:Hdup; [discriminate|].
    cbn [andb negb]. unfold PaymentModel_create.
    cbn [p_id p_tenantId providerRef payments set_orders].
    destruct (forallb _ (payments (db w))) eqn:Hidx; [|discriminate].
    intros _. exists cart, addr, paystack.
    apply bool_decide_eq_true in Hfree. apply bool_decide_eq_false in Hdup.
    apply payment_index_free in Hidx. auto 10.
  - intros (cart & addr & paystack & -> & Hne & -> & -> & Hfree & Hdup & Hidx).
    rewrite (bool_decide_eq_false_2 _ Hne). cbv zeta.
    unfold withTransaction, checkout_transaction, tx_bind, OrderModel_create.
    cbn [o_id o_tenantId orderRef].
    rewrite (bool_decide_eq_true_2 _ Hfree), (bool_decide_eq_false_2 _ Hdup).
    cbn [andb negb]. unfold PaymentModel_create.
    cbn [p_id p_tenantId providerRef payments set_orders].
    apply payment_index_free in Hidx. rewrite Hidx. reflexivity.
Qed.

(** C6. Checkout initiation creates the order (pending, one timeline
    entry) and the payment (initialized, linked to the order) together or
    not at all, and only when the gateway call returned. It is answered 201
    exactly when the cart has lines, the address resolves, the gateway call
    returned and both creates pass their indexes, and then both documents
    are stored; any other answer, a thrown gateway call and a failed step
    of the transaction among them, leaves the world as it was. *)
Theorem checkout_all_or_nothing (env : Env) (now : Z) (rnd : string)
    (oid pid : ObjectId) (gateway : HttpResult PaystackInit) (tenant user : ObjectId)
    (body : CheckoutInit) (w : World) :
  let out := initializeCheckout env now rnd oid pid gateway tenant user body w in
  ((∃ paystack order payment,
       initializePaystackTransaction env gateway = inr paystack
       ∧ fst out = CheckoutCreated (orderRef order) (providerRef payment)
                                   (authorization_url paystack)
       ∧ orders (db w) !! oid = None
       ∧ db (snd out) = set_payments (fun ps => ps ++ [payment])
                          (set_orders (fun os => <[oid := order]> os) (db w))
       ∧ queue (snd out) = queue w
       ∧ o_id order = oid ∧ o_status order = pending
       ∧ ev_status <$> timeline order = [pending]
       ∧ orderId payment = oid ∧ p_status payment = initialized)
   ∨ (checkout_status (fst out) ≠ 201%Z ∧ snd out = w))
  ∧ (∀ e, initializePaystackTransaction env gateway = inl e →
          checkout_status (fst out) ≠ 201%Z ∧ snd out = w)
  ∧ (checkout_status (fst out) = 201%Z
     ↔ checkout_accepted env now rnd oid pid gateway tenant user body w)
  ∧ (checkout_accepted env now rnd oid pid gateway tenant user body w →
     ∃ order payment,
       orders (db (snd out)) !! oid = Some order
       ∧ payments (db (snd out)) = payments (db w) ++ [payment]
       ∧ o_status order = pending ∧ ev_status <$> timeline order = [pending]
       ∧ orderId payment = oid ∧ p_status payment = initialized).
Proof.
  cbv zeta.
  pose proof (initializeCheckout_accepted env now rnd oid pid gateway tenant user body w)
    as Hiff.
  destruct (initializeCheckout_outcome env now rnd oid pid gateway tenant user body w)
    as [(paystack & order & payment & Hgw & Hresp & Hfree & Hdb & Hq & Hoid & Hst & Htl
         & Hlink & Hpst & _) | Hsame].
  - split; [|split; [|split; [exact Hiff|]]].
    + left. exists paystack, order, payment. repeat split; assumption.
    + intros e He. rewrite He in Hgw. discriminate.
    + intros _. exists order, payment. rewrite Hdb. cbn [orders payments set_payments
        set_orders]. rewrite lookup_insert_eq. repeat split; assumption.
  - split; [right; exact Hsame|]. split; [intros _ _; exact Hsame|].
    split; [exact Hiff|]. intros Hacc. apply Hiff in Hacc. now destruct Hsame.
Qed.

(** The customer of the concrete store checks out: the cart has a line,
    the address is given inline, the gateway accepts, and identifiers 101
    and 201 and the references of clock 5 are free. *)
Lemma checkout_all_or_nothing_witness :
  checkout_accepted (Demo.env ByIdCondition) 5 "X1Y2Z3" 101 201 Demo.accepted 1 7
                    Demo.inline_address (Demo.world 1)
  ∧ ∃ order payment,
      orders (db (snd (initializeCheckout (Demo.env ByIdCondition) 5 "X1Y2Z3" 101 201
                         Demo.accepted 1 7 Demo.inline_address (Demo.world 1))))
        !! 101%N = Some order
      ∧ payments (db (snd (initializeCheckout (Demo.env ByIdCondition) 5 "X1Y2Z3" 101 201
                             Demo.accepted 1 7 Demo.inline_address (Demo.world 1))))
        = payments (db (Demo.world 1)) ++ [payment]
      ∧ o_status order = pending ∧ ev_status <$> timeline order = [pending]
      ∧ orderId payment = 101%N ∧ p_status payment = initialized.
Proof.
  assert (Hacc : checkout_accepted (Demo.env ByIdCondition) 5 "X1Y2Z3" 101 201
                   Demo.accepted 1 7 Demo.inline_address (Demo.world 1)).
  { apply (proj1 (proj2 (proj2 (checkout_all_or_nothing (Demo.env ByIdCondition) 5
                                  "X1Y2Z3" 101 201 Demo.accepted 1 7
                                  Demo.inline_address (Demo.world 1))))).
    vm_compute. reflexivity. }
  split; [exact Hacc|].
  exact (proj2 (proj2 (proj2 (checkout_all_or_nothing (Demo.env ByIdCondition) 5
                                "X1Y2Z3" 101 201 Demo.accepted 1 7
                                Demo.inline_address (Demo.world 1)))) Hacc).
Defined.

(** A checkout whose payment reference is already held in its tenant: the
    order is created inside the transaction, the payment violates the
    index, and neither is persisted; with another random suffix the same
    checkout goes through. *)
Example checkout_rolls_back_order :
  let body := mkCheckoutInit "ada@example.com" None (Some "12 Admiralty Way")
                             (Some "Lagos") (Some "Lagos") in
  let gw := HttpBody true (mkPaystackInit "https://paystack.test/a" "r" "code") in
  let held := mkPayment 200 1 7 100 "PAY-6-X1Y2Z3" initialized 17500 None ∅ 1 1 in
  let w := mkWorld (set_payments (fun _ => [held]) (Demo.store 1)) [] in
  initializeCheckout (Demo.env ByIdCondition) 6 "X1Y2Z3" 101 201 gw 1 7 body w
  = (CheckoutThrown duplicate_key, w)
  ∧ fst (initializeCheckout (Demo.env ByIdCondition) 6 "A0B1C2" 101 201 gw 1 7 body w)
    = CheckoutCreated "SWS-6" "PAY-6-A0B1C2" "https://paystack.test/a".
Proof. cbv zeta. split; vm_compute; reflexivity. Qed.

(** ** Timelines only grow *)

Lemma timelines_grow_refl (d d' : Db) : orders d' = orders d → timelines_grow d d'.
Proof. intros Heq k o Hk. exists o. rewrite Heq. split; [exact Hk | reflexivity]. Qed.

Lemma timelines_grow_trans (d1 d2 d3 : Db) :
  timelines_grow d1 d2 → timelines_grow d2 d3 → timelines_grow d1 d3.
Proof.
  intros H12 H23 k o Hk.
  destruct (H12 k o Hk) as (o2 & Hk2 & Hp2).
  destruct (H23 k o2 Hk2) as (o3 & Hk3 & Hp3).
  exists o3. split; [exact Hk3 | now transitivity (timeline o2)].
Qed.

Lemma orders_keyed_same (d d' : Db) : orders d' = orders d → orders_keyed d → orders_keyed d'.
Proof. intros Heq Hk k o. rewrite Heq. apply Hk. Qed.

(** Saving an order whose timeline extends the stored one. *)
Lemma save_extended_order (d d' : Db) (k : ObjectId) (o o' : Order) :
  orders_keyed d →
  orders d !! k = Some o →
  o_id o' = o_id o →
  timeline o `prefix_of` timeline o' →
  orders d' = <[o_id o' := o']> (orders d) →
  orders_keyed d' ∧ timelines_grow d d'.
Proof.
  intros Hkeyed Hk Hid Hpre Hd'.
  assert (Hkey : o_id o' = k) by (rewrite Hid; now apply Hkeyed).
  split.
  - intros j x. rewrite Hd', Hkey, lookup_insert.
    case_decide; [intros [= <-]; congruence | apply Hkeyed].
  - intros j x Hj. rewrite Hd', Hkey, lookup_insert. case_decide.
    + subst j. exists o'. split; [reflexivity|]. congruence.
    + exists x. split; [exact Hj | reflexivity].
Qed.

(** Creating an order under a fresh [_id]. *)
Lemma insert_fresh_order (d d' : Db) (k : ObjectId) (o' : Order) :
  orders_keyed d →
  orders d !! k = None →
  o_id o' = k →
  orders d' = <[k := o']> (orders d) →
  orders_keyed d' ∧ timelines_grow d d'.
Proof.
  intros Hkeyed Hk Hid Hd'. split.
  - intros j x. rewrite Hd', lookup_insert.
    case_decide; [intros [= <-]; congruence | apply Hkeyed].
  - intros j x Hj. rewrite Hd', lookup_insert. case_decide; [congruence|].
    exists x. split; [exact Hj | reflexivity].
Qed.

Lemma OrderModel_findOne_in_tenant_Some (id tenant : ObjectId) (d : Db) (o : Order) :
  OrderModel_findOne_in_tenant id tenant d = Some o → orders d !! id = Some o.
Proof.
  unfold OrderModel_findOne_in_tenant. destruct (orders d !! id) as [x|]; [|discriminate].
  destruct (N.eqb (o_tenantId x) tenant); [congruence | discriminate].
Qed.

Lemma logAdminAction_orders (tenant : ObjectId) (role : option string) (o : Order) (d : Db) :
  orders (logAdminAction tenant role o d) = orders d
  ∧ payments (logAdminAction tenant role o d) = payments d.
Proof. destruct role; split; reflexivity. Qed.

Lemma finalize_step_timeline (env : Env) (now : Z) (ref : string)
    (extra : gmap string (option string)) (w : World) :
  orders_keyed (db w) →
  orders_keyed (db (snd (finalizeSuccessfulPayment env now ref extra w)))
  ∧ timelines_grow (db w) (db (snd (finalizeSuccessfulPayment env now ref extra w))).
Proof.
  intros Hkeyed. pose proof (finalize_cases env now ref extra w) as Hc.
  destruct (finalizeSuccessfulPayment env now ref extra w) as [res w'].
  inversion Hc as [| | | | payment order d' Hp Ho Hs Hcm Hafter
                   | payment order d' e' Hp Ho Hs Hcm Hafter]; subst; simpl;
    try (split; [exact Hkeyed | now apply timelines_grow_refl]);
    rewrite ?notify_customer_db; simpl;
    (apply save_extended_order
       with (k := orderId payment) (o := order)
            (o' := touch_order now (mark_paid now order));
     [exact Hkeyed | exact Ho | reflexivity | | exact (cm_orders _ _ _ _ _ _ Hcm)]);
    simpl; now apply prefix_app_r.
Qed.

Lemma updateOrderStatus_step_timeline (env : Env) (now : Z) (tenant : ObjectId)
    (role : option string) (id : ObjectId) (body : StatusUpdate) (w : World) :
  orders_keyed (db w) →
  orders_keyed (db (snd (updateOrderStatus env now tenant role id body w)))
  ∧ timelines_grow (db w) (db (snd (updateOrderStatus env now tenant role id body w))).
Proof.
  intros Hkeyed. unfold updateOrderStatus.
  destruct (OrderModel_findOne_in_tenant id tenant (db w)) as [order|] eqn:Hfind;
    [|split; [exact Hkeyed | now apply timelines_grow_refl]].
  apply OrderModel_findOne_in_tenant_Some in Hfind. cbv zeta.
  destruct (negb (canTransition (o_status order) (su_status body)));
    [split; [exact Hkeyed | now apply timelines_grow_refl]|].
  destruct (bool_decide _ && _ && _);
    [split; [exact Hkeyed | now apply timelines_grow_refl]|].
  cbn [snd db].
  match goal with
  | |- context [save_order now ?saved (db w)] =>
    apply save_extended_order with (k := id) (o := order) (o' := touch_order now saved);
      [exact Hkeyed | exact Hfind | reflexivity | simpl; now apply prefix_app_r |]
  end.
  rewrite (proj1 (logAdminAction_orders _ _ _ _)).
  destruct (notifies (su_status body)); [rewrite notify_customer_db|]; reflexivity.
Qed.

Lemma postTrackingEvent_step_timeline (now : Z) (tenant : ObjectId)
    (role : option string) (id : ObjectId) (body : TrackingInput) (w : World) :
  orders_keyed (db w) →
  orders_keyed (db (snd (postTrackingEvent now tenant role id body w)))
  ∧ timelines_grow (db w) (db (snd (postTrackingEvent now tenant role id body w))).
Proof.
  intros Hkeyed. unfold postTrackingEvent.
  destruct (OrderModel_findOne_in_tenant id tenant (db w)) as [order|] eqn:Hfind;
    [|split; [exact Hkeyed | now apply timelines_grow_refl]].
  apply OrderModel_findOne_in_tenant_Some in Hfind. cbv zeta.
  destruct (moves_order (ti_status body) && _); cbn [snd db].
  - match goal with
    | |- context [save_order now ?saved _] =>
      apply save_extended_order with (k := id) (o := order) (o' := touch_order now saved);
        [exact Hkeyed | exact Hfind | reflexivity | simpl; now apply prefix_app_r
        | reflexivity]
    end.
  - split; [exact Hkeyed | now apply timelines_grow_refl].
Qed.

Lemma initializeCheckout_step_timeline (env : Env) (now : Z) (rnd : string)
    (oid pid : ObjectId) (gateway : HttpResult PaystackInit) (tenant user : ObjectId)
    (body : CheckoutInit) (w : World) :
  orders_keyed (db w) →
  orders_keyed (db (snd (initializeCheckout env now rnd oid pid gateway tenant user body w)))
  ∧ timelines_grow (db w)
      (db (snd (initializeCheckout env now rnd oid pid gateway tenant user body w))).
Proof.
  intros Hkeyed.
  destruct (initializeCheckout_outcome env now rnd oid pid gateway tenant user body w)
    as [(paystack & order & payment & _ & _ & Hfree & Hdb & _ & Hoid & _) | [_ ->]].
  - apply insert_fresh_order with (k := oid) (o' := order);
      [exact Hkeyed | exact Hfree | exact Hoid | now rewrite Hdb].
  - split; [exact Hkeyed | now apply timelines_grow_refl].
Qed.

Lemma paystack_webhook_step_timeline (env : Env) (now : Z) (req : WebhookRequest)
    (w : World) :
  orders_keyed (db w) →
  orders_keyed (db (snd (paystack_webhook env now req w)))
  ∧ timelines_grow (db w) (db (snd (paystack_webhook env now req w))).
Proof.
  intros Hkeyed. unfold paystack_webhook.
  destruct (negb (verifyPaystackWebhookSignature _ _ _));
    [split; [exact Hkeyed | now apply timelines_grow_refl]|].
  destruct (negb (bool_decide _));
    [split; [exact Hkeyed | now apply timelines_grow_refl]|].
  destruct (reference (payload req)) as [[|c r]|];
    try (split; [exact Hkeyed | now apply timelines_grow_refl]).
  pose proof (finalize_step_timeline env now (String c r)
                (webhook_metadata (payload req)) w Hkeyed) as Hstep.
  destruct (finalizeSuccessfulPayment env now (String c r)
              (webhook_metadata (payload req)) w) as [[e|res] w']; simpl in *.
  - destruct (includes (message e) "not found"); exact Hstep.
  - exact Hstep.
Qed.

Lemma run_op_timeline (env : Env) (op : Op) (w : World) :
  orders_keyed (db w) →
  orders_keyed (db (run_op env w op)) ∧ timelines_grow (db w) (db (run_op env w op)).
Proof.
  destruct op; simpl.
  - apply initializeCheckout_step_timeline.
  - apply finalize_step_timeline.
  - apply paystack_webhook_step_timeline.
  - apply updateOrderStatus_step_timeline.
  - apply postTrackingEvent_step_timeline.
Qed.

(** C9. Whatever sequence of finalisations, webhooks, admin status updates,
    carrier tracking events and checkouts runs on a store, every order that
    was in the store is still there and its former timeline is a prefix of
    its timeline afterwards: entries are appended at the end, none is
    removed, replaced or moved. *)
Theorem timeline_append_only (env : Env) (ops : list Op) (w : World) :
  orders_keyed (db w) →
  ∀ k o, orders (db w) !! k = Some o →
         ∃ o', orders (db (run_ops env ops w)) !! k = Some o'
               ∧ timeline o `prefix_of` timeline o'.
Proof.
  revert w. induction ops as [|op ops IH]; intros w Hkeyed.
  - now apply timelines_grow_refl.
  - destruct (run_op_timeline env op w Hkeyed) as [Hkeyed' Hgrow].
    apply timelines_grow_trans with (d2 := db (run_op env w op)); [exact Hgrow|].
    exact (IH (run_op env w op) Hkeyed').
Qed.

(** The order of the concrete store is paid by webhook, shipped by an
    admin and reported delivered by the carrier. *)
Lemma timeline_append_only_witness :
  ∃ o', orders (db (run_ops (Demo.env ByIdCondition)
                      [OpWebhook 9 (Demo.charge_success "PAY-1-ABC123");
                       OpUpdateStatus 10 1 (Some "admin") 100
                         (mkStatusUpdate shipped (Some "DHL-TRACK-001") None);
                       OpTrackingEvent 11 1 (Some "admin") 100
                         (mkTrackingInput "dhl" "DHL-TRACK-001" carrier_delivered
                                          None None None)]
                      (Demo.world 1))) !! 100%N = Some o'
        ∧ timeline (Demo.order 1) `prefix_of` timeline o'.
Proof.
  apply (timeline_append_only (Demo.env ByIdCondition) _ (Demo.world 1)).
  - intros k o H. unfold Demo.world, Demo.store in H. simpl in H.
    apply lookup_singleton_Some in H as [<- <-]. reflexivity.
  - reflexivity.
Defined.

Example timeline_of_a_delivered_order :
  (fun o => ev_status <$> timeline o) <$>
    orders (db (run_ops (Demo.env ByIdCondition)
                  [OpWebhook 9 (Demo.charge_success "PAY-1-ABC123");
                   OpUpdateStatus 10 1 (Some "admin") 100
                     (mkStatusUpdate shipped (Some "DHL-TRACK-001") None);
                   OpTrackingEvent 11 1 (Some "admin") 100
                     (mkTrackingInput "dhl" "DHL-TRACK-001" carrier_delivered
                                      None None None)]
                  (Demo.world 1))) !! 100%N
  = Some [pending; paid; shipped; delivered].
Proof. vm_compute. reflexivity. Qed.

(** ** Payment references *)

Lemma NoDup_fmap_inj_on {A B} (f : A → B) (l : list A) (x y : A) :
  NoDup (f <$> l) → x ∈ l → y ∈ l → f x = f y → x = y.
Proof.
  induction l as [|a l IH]; [intros _ Hx; inversion Hx|].
  rewrite fmap_cons, NoDup_cons. intros [Ha Hl] Hx Hy Hxy.
  apply elem_of_cons in Hx as [->|Hx]; apply elem_of_cons in Hy as [->|Hy].
  - reflexivity.
  - exfalso. apply Ha. rewrite Hxy. now apply list_elem_of_fmap_2.
  - exfalso. apply Ha. rewrite <- Hxy. now apply list_elem_of_fmap_2.
  - now apply IH.
Qed.

Lemma update_first_fmap {A B} (key : A → B) (f : A → bool) (g : A → A) (l : list A) :
  (∀ x, x ∈ l → f x = true → key (g x) = key x) →
  key <$> update_first f g l = key <$> l.
Proof.
  induction l as [|a l IH]; intros Hkey; simpl; [reflexivity|].
  destruct (f a) eqn:Hfa; simpl.
  - f_equal. apply Hkey; [apply list_elem_of_here | exact Hfa].
  - f_equal. apply IH. intros x Hx. apply Hkey. now apply list_elem_of_further.
Qed.

Lemma find_elem_of {A} (f : A → bool) (l : list A) (x : A) :
  List.find f l = Some x → x ∈ l ∧ f x = true.
Proof. intros H. apply find_some in H as [Hin Hf]. now rewrite list_elem_of_In. Qed.

Lemma payment_save_indexed (p p' : Payment) (ps : list Payment) :
  p ∈ ps →
  p_id p' = p_id p → p_tenantId p' = p_tenantId p → providerRef p' = providerRef p →
  payments_indexed ps →
  payments_indexed (update_first (fun q => N.eqb (p_id q) (p_id p)) (fun _ => p') ps).
Proof.
  intros Hin Hid Hten Href [Hids Hrefs]. unfold payments_indexed.
  rewrite !update_first_fmap; [split; assumption | |].
  - intros x Hx Hfx. apply N.eqb_eq in Hfx.
    assert (x = p) as -> by now apply (NoDup_fmap_inj_on p_id ps).
    now rewrite Hten, Href.
  - intros x _ Hfx. apply N.eqb_eq in Hfx. congruence.
Qed.

Lemma PaymentModel_create_indexed (p : Payment) (ps : list Payment) :
  forallb (fun q => negb (N.eqb (p_id q) (p_id p))
                    && negb (N.eqb (p_tenantId q) (p_tenantId p)
                             && String.eqb (providerRef q) (providerRef p))) ps = true →
  payments_indexed ps → payments_indexed (ps ++ [p]).
Proof.
  intros Hchk [Hids Hrefs]. rewrite forallb_forall in Hchk.
  unfold payments_indexed. rewrite !fmap_app. simpl.
  split; apply NoDup_app; (split; [assumption|]); (split; [|apply NoDup_singleton]).
  - intros i [q [-> Hq]]%list_elem_of_fmap_1 Hi. apply list_elem_of_singleton in Hi.
    apply list_elem_of_In, Hchk, andb_true_iff in Hq as [Hq _].
    apply negb_true_iff, N.eqb_neq in Hq. contradiction.
  - intros i [q [-> Hq]]%list_elem_of_fmap_1 Hi. apply list_elem_of_singleton in Hi.
    apply list_elem_of_In, Hchk, andb_true_iff in Hq as [_ Hq].
    apply negb_true_iff, andb_false_iff in Hq. injection Hi as Ht Hr.
    destruct Hq as [Hq|Hq]; [apply N.eqb_neq in Hq | apply String.eqb_neq in Hq];
      contradiction.
Qed.

Lemma finalize_step_indexed (env : Env) (now : Z) (ref : string)
    (extra : gmap string (option string)) (w : World) :
  payments_indexed (payments (db w)) →
  payments_indexed (payments (db (snd (finalizeSuccessfulPayment env now ref extra w)))).
Proof.
  intros Hidx. pose proof (finalize_cases env now ref extra w) as Hc.
  destruct (finalizeSuccessfulPayment env now ref extra w) as [res w'].
  inversion Hc as [| | | | payment order d' Hp Ho Hs Hcm Hafter
                   | payment order d' e' Hp Ho Hs Hcm Hafter]; subst; simpl; try exact Hidx;
    rewrite ?notify_customer_db; simpl; rewrite (cm_payments _ _ _ _ _ _ Hcm);
    apply find_elem_of in Hp as [Hin _];
    exact (payment_save_indexed payment
             (touch_payment now (confirm_payment now extra payment)) _
             Hin eq_refl eq_refl eq_refl Hidx).
Qed.

Lemma run_op_indexed (env : Env) (op : Op) (w : World) :
  payments_indexed (payments (db w)) →
  payments_indexed (payments (db (run_op env w op))).
Proof.
  intros Hidx. destruct op; simpl.
  - destruct (initializeCheckout_outcome env now rnd newOrderId newPaymentId gateway
                tenant user body w)
      as [(paystack & order & payment & _ & _ & _ & Hdb & _ & _ & _ & _ & _ & _ & _ & _
           & Hchk) | [_ ->]]; [|exact Hidx].
    rewrite Hdb. simpl. now apply PaymentModel_create_indexed.
  - now apply finalize_step_indexed.
  - unfold paystack_webhook.
    destruct (negb (verifyPaystackWebhookSignature _ _ _)); [exact Hidx|].
    destruct (negb (bool_decide _)); [exact Hidx|].
    destruct (reference (payload req)) as [[|c r]|]; try exact Hidx.
    pose proof (finalize_step_indexed env now (String c r)
                  (webhook_metadata (payload req)) w Hidx) as Hstep.
    destruct (finalizeSuccessfulPayment env now (String c r)
                (webhook_metadata (payload req)) w) as [[e|res] w']; simpl in *.
    + destruct (includes (message e) "not found"); exact Hstep.
    + exact Hstep.
  - unfold updateOrderStatus.
    destruct (OrderModel_findOne_in_tenant id tenant (db w)) as [order|]; [|exact Hidx].
    cbv zeta. destruct (negb (canTransition _ _)); [exact Hidx|].
    destruct (bool_decide _ && _ && _); [exact Hidx|].
    cbn [snd db]. rewrite (proj2 (logAdminAction_orders _ _ _ _)).
    destruct (notifies (su_status body)); [rewrite notify_customer_db|]; exact Hidx.
  - unfold postTrackingEvent.
    destruct (OrderModel_findOne_in_tenant id tenant (db w)) as [order|]; [|exact Hidx].
    cbv zeta. destruct (moves_order (ti_status body) && _); exact Hidx.
Qed.

Lemma run_ops_indexed (env : Env) (ops : list Op) (w : World) :
  payments_indexed (payments (db w)) →
  payments_indexed (payments (db (run_ops env ops w))).
Proof.
  revert w. induction ops as [|op ops IH]; intros w Hidx; [exact Hidx|].
  apply (IH (run_op env w op)). now apply run_op_indexed.
Qed.

(** C8 as stated fails. Two customers of two tenants check out at the same
    clock value and draw the same random suffix: both payments are created,
    under one reference. Finalisation by that reference confirms the
    payment of tenant 1, and confirms it again as a replay when called
    once more; the payment of tenant 2 stays [initialized]. *)
Lemma two_tenants_share_a_reference :
  (fun p => (p_id p, p_tenantId p, providerRef p, p_status p)) <$>
    payments (db (run_ops (Demo.env ByIdCondition)
                    [OpCheckout 5 "X1Y2Z3" 101 201 Demo.accepted 1 7 Demo.inline_address;
                     OpCheckout 5 "X1Y2Z3" 102 202 Demo.accepted 2 8 Demo.inline_address;
                     OpFinalize 9 "PAY-5-X1Y2Z3" ∅;
                     OpFinalize 10 "PAY-5-X1Y2Z3" ∅]
                    Demo.two_tenants))
  = [(201%N, 1%N, "PAY-5-X1Y2Z3", success); (202%N, 2%N, "PAY-5-X1Y2Z3", initialized)].
Proof. vm_compute. reflexivity. Qed.

(** C8, amended. On a payments collection that satisfies its indexes, after
    any sequence of requests no two payments of one tenant hold the same
    provider reference, and the lookup by tenant and reference (the status
    and order routes) resolves every payment from its own reference. The
    lookup of [finalizeSuccessfulPayment], by reference alone, resolves a
    payment whenever no other payment, of any tenant, holds its reference;
    nothing in the store enforces that across tenants. *)
Theorem payment_reference_unique_per_tenant (env : Env) (ops : list Op) (w : World) :
  payments_indexed (payments (db w)) →
  (∀ p q, p ∈ payments (db (run_ops env ops w)) →
          q ∈ payments (db (run_ops env ops w)) →
          p_tenantId p = p_tenantId q → providerRef p = providerRef q → p = q)
  ∧ (∀ p, p ∈ payments (db (run_ops env ops w)) →
          PaymentModel_findOne_in_tenant (p_tenantId p) (providerRef p)
            (db (run_ops env ops w)) = Some p)
  ∧ (∀ p, p ∈ payments (db (run_ops env ops w)) →
          (∀ q, q ∈ payments (db (run_ops env ops w)) →
                providerRef q = providerRef p → q = p) →
          PaymentModel_findOne (providerRef p) (db (run_ops env ops w)) = Some p).
Proof.
  intros Hidx. apply (run_ops_indexed env ops) in Hidx.
  generalize dependent (db (run_ops env ops w)). intros d [_ Hrefs].
  assert (Huniq : ∀ p q, p ∈ payments d → q ∈ payments d →
                         p_tenantId p = p_tenantId q → providerRef p = providerRef q →
                         p = q).
  { intros p q Hp Hq Ht Hr.
    apply (NoDup_fmap_inj_on (fun p => (p_tenantId p, providerRef p)) (payments d));
      [assumption.. | now rewrite Ht, Hr]. }
  split; [exact Huniq|]. split.
  - intros p Hp. unfold PaymentModel_findOne_in_tenant.
    destruct (List.find _ (payments d)) as [q|] eqn:Hfind.
    + apply find_elem_of in Hfind as [Hq Hm].
      apply andb_true_iff in Hm as [Ht%N.eqb_eq Hr%String.eqb_eq].
      f_equal. now apply Huniq.
    + exfalso. apply list_elem_of_In in Hp. apply (find_none _ _ Hfind) in Hp.
      simpl in Hp. now rewrite N.eqb_refl, String.eqb_refl in Hp.
  - intros p Hp Honly. unfold PaymentModel_findOne.
    destruct (List.find _ (payments d)) as [q|] eqn:Hfind.
    + apply find_elem_of in Hfind as [Hq Hr%String.eqb_eq]. f_equal. now apply Honly.
    + exfalso. apply list_elem_of_In in Hp. apply (find_none _ _ Hfind) in Hp.
      simpl in Hp. now rewrite String.eqb_refl in Hp.
Qed.

(** A second checkout of the customer of the concrete store, then the
    finalisation of its payment: the two payments of the tenant keep
    distinct references and each lookup resolves its payment. *)
Lemma payment_reference_unique_per_tenant_witness :
  (∀ p q, p ∈ payments (db (run_ops (Demo.env ByIdCondition) Demo.second_order
                              (Demo.world 1))) →
          q ∈ payments (db (run_ops (Demo.env ByIdCondition) Demo.second_order
                              (Demo.world 1))) →
          p_tenantId p = p_tenantId q → providerRef p = providerRef q → p = q)
  ∧ (∀ p, p ∈ payments (db (run_ops (Demo.env ByIdCondition) Demo.second_order
                              (Demo.world 1))) →
          PaymentModel_findOne_in_tenant (p_tenantId p) (providerRef p)
            (db (run_ops (Demo.env ByIdCondition) Demo.second_order (Demo.world 1)))
          = Some p)
  ∧ (∀ p, p ∈ payments (db (run_ops (Demo.env ByIdCondition) Demo.second_order
                              (Demo.world 1))) →
          (∀ q, q ∈ payments (db (run_ops (Demo.env ByIdCondition) Demo.second_order
                                    (Demo.world 1))) →
                providerRef q = providerRef p → q = p) →
          PaymentModel_findOne (providerRef p)
            (db (run_ops (Demo.env ByIdCondition) Demo.second_order (Demo.world 1)))
          = Some p).
Proof.
  apply (payment_reference_unique_per_tenant (Demo.env ByIdCondition)
           Demo.second_order (Demo.world 1)).
  split; apply NoDup_singleton.
Defined.

Example references_after_second_order :
  (fun p => (p_tenantId p, providerRef p, p_status p)) <$>
    payments (db (run_ops (Demo.env ByIdCondition) Demo.second_order (Demo.world 1)))
  = [(1%N, "PAY-1-ABC123", initialized); (1%N, "PAY-5-X1Y2Z3", success)].
Proof. vm_compute. reflexivity. Qed.

(** ** The scenario of the specification *)

(** The webhook for the order of the concrete store (one unit of variant B)
    delivered twice: the order is paid, one unit has left the stock, the
    cart is empty and one notification, for status paid, is queued. *)
Example scenario_paid_once :
  let w := run_ops (Demo.env ByIdCondition)
             [OpWebhook 9 (Demo.charge_success "PAY-1-ABC123");
              OpWebhook 10 (Demo.charge_success "PAY-1-ABC123")] (Demo.world 1) in
  o_status <$> orders (db w) !! 100%N = Some paid
  ∧ (List.map stock ∘ variants) <$> products (db w) !! 50%N = Some [8; 1]%Z
  ∧ c_lines <$> carts (db w) = [[]]
  ∧ n_status <$> queue w = [paid].
Proof. cbv zeta. repeat split; vm_compute; reflexivity. Qed.

(** * Further properties of the pipeline *)

(** ** What a committed finalisation writes *)

(** A call that returned without the idempotent mark ran the transaction on
    the payment and order it resolved. *)
Lemma finalize_committed_tx (env : Env) (now : Z) (ref : string)
    (extra : gmap string (option string)) (w w' : World) (r : FinalizeResult) :
  finalizeSuccessfulPayment env now ref extra w = (inr r, w') →
  idempotent r = false →
  ∃ p o d',
    PaymentModel_findOne ref (db w) = Some p
    ∧ OrderModel_findById (orderId p) (db w) = Some o
    ∧ p_status p ≠ success
    ∧ finalize_transaction env now extra p o (db w) = inr ((r_payment r, r_order r), d')
    ∧ r_payment r = touch_payment now (confirm_payment now extra p)
    ∧ r_order r = touch_order now (mark_paid now o)
    ∧ w' = notify_customer env (r_order r) paid "Payment confirmed." None
                           (mkWorld d' (queue w)).
Proof.
  unfold finalizeSuccessfulPayment.
  destruct (PaymentModel_findOne ref (db w)) as [p|] eqn:Hp; [|discriminate].
  destruct (OrderModel_findById (orderId p) (db w)) as [o|] eqn:Ho; [|discriminate].
  destruct (decide (p_status p = success)) as [Hs|Hs].
  - intros [= <- <-]. discriminate.
  - unfold withTransaction.
    destruct (finalize_transaction env now extra p o (db w)) as [e|[[p' o'] d']] eqn:Htx;
      [discriminate|].
    destruct (after_commit env); [discriminate|].
    intros [= <- <-] _. exists p, o, d'.
    destruct (finalize_transaction_commits _ _ _ _ _ _ _ _ Htx) as [[= -> ->] _].
    repeat split; auto.
Qed.

(** X1. A committed finalisation stores the payment as [success], verified
    at the time of the call, with the supplied metadata merged over the
    metadata it had: a supplied key takes the supplied value, every other
    key keeps its value; and the lookup by reference then returns exactly
    the payment the call returned. *)
Theorem finalize_merges_metadata (env : Env) (now : Z) (ref : string)
    (extra : gmap string (option string)) (w w' : World) (r : FinalizeResult)
    (p : Payment) :
  PaymentModel_findOne ref (db w) = Some p →
  finalizeSuccessfulPayment env now ref extra w = (inr r, w') →
  idempotent r = false →
  PaymentModel_findOne ref (db w') = Some (r_payment r)
  ∧ p_status (r_payment r) = success
  ∧ verifiedAt (r_payment r) = Some now
  ∧ ∀ k, metadata (r_payment r) !! k
         = match extra !! k with
           | Some v => Some v
           | None => metadata p !! k
           end.
Proof.
  intros Hp H Hidem.
  destruct (finalize_committed_tx env now ref extra w w' r H Hidem)
    as (p0 & o & d' & Hp0 & Ho & Hs & Htx & Hrp & Hro & ->).
  rewrite Hp in Hp0. injection Hp0 as <-.
  destruct (finalize_transaction_commits _ _ _ _ _ _ _ _ Htx) as [_ Hcm].
  rewrite notify_customer_db. cbn [db]. rewrite Hrp. split.
  - unfold PaymentModel_findOne. rewrite (cm_payments _ _ _ _ _ _ Hcm).
    apply find_after_payment_save; [exact Hp|].
    simpl. now apply PaymentModel_findOne_ref in Hp.
  - split; [reflexivity|]. split; [reflexivity|].
    intros k. simpl. destruct (extra !! k) as [v|] eqn:Hk.
    + now apply lookup_union_Some_l.
    + now apply lookup_union_r.
Qed.

(** The payment of the concrete store carries an access code; the webhook
    adds its source. *)
Lemma finalize_merges_metadata_witness :
  PaymentModel_findOne "PAY-1-ABC123"
    (db (snd (finalizeSuccessfulPayment (Demo.env ByIdCondition) 9 "PAY-1-ABC123"
                (<["source" := Some "webhook"]> ∅) (Demo.world 1))))
  = Some (touch_payment 9 (confirm_payment 9 (<["source" := Some "webhook"]> ∅)
                             (Demo.payment 1)))
  ∧ p_status (touch_payment 9 (confirm_payment 9 (<["source" := Some "webhook"]> ∅)
                                 (Demo.payment 1))) = success
  ∧ verifiedAt (touch_payment 9 (confirm_payment 9 (<["source" := Some "webhook"]> ∅)
                                   (Demo.payment 1))) = Some 9%Z
  ∧ ∀ k, metadata (touch_payment 9 (confirm_payment 9 (<["source" := Some "webhook"]> ∅)
                                      (Demo.payment 1))) !! k
         = match (<["source" := Some "webhook"]> ∅ : gmap string (option string)) !! k with
           | Some v => Some v
           | None => metadata (Demo.payment 1) !! k
           end.
Proof.
  refine (finalize_merges_metadata (Demo.env ByIdCondition) 9 "PAY-1-ABC123"
            (<["source" := Some "webhook"]> ∅) (Demo.world 1) _
            (mkFinalizeResult
               (touch_payment 9 (confirm_payment 9 (<["source" := Some "webhook"]> ∅)
                                   (Demo.payment 1)))
               (touch_order 9 (mark_paid 9 (Demo.order 1))) false)
            (Demo.payment 1) _ _ _).
  - reflexivity.
  - vm_compute. reflexivity.
  - reflexivity.
Defined.



(** ** Stock bookkeeping of the decrement *)




Lemma findIndex_lt {A} (f : A → bool) (l : list A) (i : nat) :
  findIndex f l = Some i → i < length l.
Proof.
  revert i. induction l as [|x l IH]; intros i; simpl; [discriminate|].
  destruct (f x); [intros [= <-]; lia|].
  destruct (findIndex f l) as [j|]; [|discriminate].
  intros [= <-]. specialize (IH j eq_refl). lia.
Qed.






(** ** The admin status route: what an accepted update writes *)








(** X6. Marking an order shipped with no tracking number in the request
    and none on file is refused with 400, whatever the order's status
    allows, and nothing is written. *)
Theorem updateOrderStatus_requires_tracking (env : Env) (now : Z) (tenant : ObjectId)
    (role : option string) (id : ObjectId) (body : StatusUpdate) (w : World)
    (order : Order) :
  OrderModel_findOne_in_tenant id tenant (db w) = Some order →
  canTransition (o_status order) shipped = true →
  su_status body = shipped →
  truthy (su_trackingNumber body) = false →
  truthy (trackingNumber order) = false →
  updateOrderStatus env now tenant role id body w = (TrackingRequired, w)
  ∧ admin_status TrackingRequired = 400%Z.
Proof.
  intros Hfind Hcan Hst Hreq Hfile. unfold updateOrderStatus. rewrite Hfind. cbv zeta.
  rewrite Hst, Hcan, Hreq, Hfile. split; reflexivity.
Qed.

Lemma updateOrderStatus_requires_tracking_witness :
  updateOrderStatus (Demo.env ByIdCondition) 10 1 (Some "admin") 100
    (mkStatusUpdate shipped None (Some "on its way")) (Demo.world 1)
  = (TrackingRequired, Demo.world 1)
  ∧ admin_status TrackingRequired = 400%Z.
Proof.
  exact (updateOrderStatus_requires_tracking (Demo.env ByIdCondition) 10 1 (Some "admin")
           100 (mkStatusUpdate shipped None (Some "on its way")) (Demo.world 1)
           (Demo.order 1) eq_refl eq_refl eq_refl eq_refl eq_refl).
Defined.

(** ** Carrier tracking events *)

(** X7. A carrier event "delivered" for an order of the tenant marks the
    order delivered whatever its status was (the transition table is not
    consulted: a cancelled or pending order becomes delivered too), files
    the carrier's tracking id on the order, appends one timeline entry and
    records the event. *)
Theorem postTrackingEvent_delivered (now : Z) (tenant : ObjectId) (role : option string)
    (id : ObjectId) (body : TrackingInput) (w : World) (order : Order) :
  orders_keyed (db w) →
  OrderModel_findOne_in_tenant id tenant (db w) = Some order →
  ti_status body = carrier_delivered →
  ti_externalTrackingId body ≠ "" →
  admin_status (fst (postTrackingEvent now tenant role id body w)) = 201%Z
  ∧ ∃ o' ev,
      orders (db (snd (postTrackingEvent now tenant role id body w))) !! id = Some o'
      ∧ o_status o' = delivered
      ∧ trackingNumber o' = Some (ti_externalTrackingId body)
      ∧ timeline o' = timeline order ++ [ev]
      ∧ ev_status ev = delivered
      ∧ length (trackingEvents (db (snd (postTrackingEvent now tenant role id body w))))
        = S (length (trackingEvents (db w))).
Proof.
  intros Hkeyed Hfind Hst Hext. unfold postTrackingEvent. rewrite Hfind. cbv zeta.
  rewrite Hst. cbn [moves_order andb].
  assert (Ht : truthy (Some (ti_externalTrackingId body)) = true).
  { destruct (ti_externalTrackingId body); [contradiction | reflexivity]. }
  rewrite Ht. cbn [fst snd db admin_status]. split; [reflexivity|].
  apply OrderModel_findOne_in_tenant_Some in Hfind.
  pose proof (Hkeyed _ _ Hfind) as Hid.
  eexists _, _. split.
  - cbn [save_order set_orders orders push_event touch_order o_id set_trackingEvents].
    rewrite Hid. apply lookup_insert_eq.
  - cbn. rewrite length_app. simpl. repeat split; try reflexivity. lia.
Qed.

(** A cancelled order is reported delivered by the carrier. *)
Lemma postTrackingEvent_delivered_witness :
  admin_status (fst (postTrackingEvent 11 1 (Some "admin") 100
                       (mkTrackingInput "dhl" "DHL-TRACK-001" carrier_delivered
                                        None None None)
                       (run_ops (Demo.env ByIdCondition)
                          [OpUpdateStatus 10 1 (Some "admin") 100
                             (mkStatusUpdate cancelled None None)] (Demo.world 1))))
  = 201%Z
  ∧ ∃ o' ev,
      orders (db (snd (postTrackingEvent 11 1 (Some "admin") 100
                         (mkTrackingInput "dhl" "DHL-TRACK-001" carrier_delivered
                                          None None None)
                         (run_ops (Demo.env ByIdCondition)
                            [OpUpdateStatus 10 1 (Some "admin") 100
                               (mkStatusUpdate cancelled None None)] (Demo.world 1)))))
        !! 100%N = Some o'
      ∧ o_status o' = delivered
      ∧ trackingNumber o' = Some "DHL-TRACK-001"
      ∧ timeline o'
        = timeline (touch_order 10
                      (push_event cancelled
                         (mkEvent cancelled "Order marked as cancelled" None "admin" 10)
                         None (Demo.order 1))) ++ [ev]
      ∧ ev_status ev = delivered
      ∧ length (trackingEvents (db (snd (postTrackingEvent 11 1 (Some "admin") 100
                         (mkTrackingInput "dhl" "DHL-TRACK-001" carrier_delivered
                                          None None None)
                         (run_ops (Demo.env ByIdCondition)
                            [OpUpdateStatus 10 1 (Some "admin") 100
                               (mkStatusUpdate cancelled None None)] (Demo.world 1))))))
        = S (length (trackingEvents (db (run_ops (Demo.env ByIdCondition)
                            [OpUpdateStatus 10 1 (Some "admin") 100
                               (mkStatusUpdate cancelled None None)] (Demo.world 1))))).
Proof.
  refine (postTrackingEvent_delivered 11 1 (Some "admin") 100
            (mkTrackingInput "dhl" "DHL-TRACK-001" carrier_delivered None None None)
            (run_ops (Demo.env ByIdCondition)
               [OpUpdateStatus 10 1 (Some "admin") 100
                  (mkStatusUpdate cancelled None None)] (Demo.world 1))
            (touch_order 10
               (push_event cancelled
                  (mkEvent cancelled "Order marked as cancelled" None "admin" 10)
                  None (Demo.order 1)))
            _ _ eq_refl _).
  - apply (run_op_timeline (Demo.env ByIdCondition)
             (OpUpdateStatus 10 1 (Some "admin") 100 (mkStatusUpdate cancelled None None))
             (Demo.world 1)).
    intros k o H. unfold Demo.world, Demo.store in H. simpl in H.
    apply lookup_singleton_Some in H as [<- <-]. reflexivity.
  - vm_compute. reflexivity.
  - discriminate.
Defined.

(** X8. A carrier event never notifies the customer and never touches a
    payment, whatever its status; for an order of the tenant it records
    exactly one tracking event, and an event that is only informative
    (label created, picked up, exception) leaves every order as it is. *)
Theorem postTrackingEvent_quiet (now : Z) (tenant : ObjectId) (role : option string)
    (id : ObjectId) (body : TrackingInput) (w : World) :
  let w' := snd (postTrackingEvent now tenant role id body w) in
  queue w' = queue w
  ∧ payments (db w') = payments (db w)
  ∧ products (db w') = products (db w)
  ∧ (∀ order, OrderModel_findOne_in_tenant id tenant (db w) = Some order →
       ∃ ev, trackingEvents (db w') = trackingEvents (db w) ++ [ev]
             ∧ te_orderId ev = id ∧ te_status ev = ti_status body
             ∧ eventAt ev = default now (ti_eventAt body))
  ∧ (OrderModel_findOne_in_tenant id tenant (db w) = None → w' = w)
  ∧ (moves_order (ti_status body) = false → orders (db w') = orders (db w)).
Proof.
  cbv zeta. unfold postTrackingEvent.
  destruct (OrderModel_findOne_in_tenant id tenant (db w)) as [order|].
  - cbv zeta. destruct (moves_order (ti_status body)) eqn:Hm; cbn [andb].
    + destruct (truthy (Some (ti_externalTrackingId body))); cbn;
        repeat split; try reflexivity; try discriminate;
        intros ? _; eexists; repeat split; reflexivity.
    + cbn. repeat split; try reflexivity; try discriminate.
      intros ? _. eexists. repeat split; reflexivity.
  - cbn. repeat split; try reflexivity. intros ? [=].
Qed.

(** ** Checkout: what is stored, and what is left alone *)

(** The order document a checkout creates. *)
Definition checkout_order (now : Z) (tenant user oid : ObjectId) (addr : Address)
    (cart : Cart) : Order :=
  mkOrder oid tenant user ("SWS-" +:+ pretty now) pending
    (t_subtotalNgn (calculateCartTotals (c_lines cart)))
    (t_shippingNgn (calculateCartTotals (c_lines cart)))
    (t_totalNgn (calculateCartTotals (c_lines cart))) addr None
    (c_lines cart)
    [mkEvent pending "Order created and awaiting payment confirmation." None "system" now]
    now now.

Lemma copy_lines (ls : list Line) :
  List.map (fun line => mkLine (productId line) (variantId line) (name line)
                               (quantity line) (unitPriceNgn line)) ls = ls.
Proof. induction ls as [|[] ls IH]; simpl; [reflexivity|]. now rewrite IH. Qed.

Lemma initializeCheckout_created (env : Env) (now : Z) (rnd : string)
    (oid pid : ObjectId) (gateway : HttpResult PaystackInit) (tenant user : ObjectId)
    (body : CheckoutInit) (w : World) (a b c : string) :
  fst (initializeCheckout env now rnd oid pid gateway tenant user body w)
  = CheckoutCreated a b c →
  ∃ cart addr payment,
    CartModel_findOne tenant user (db w) = Some cart
    ∧ c_lines cart ≠ []
    ∧ resolve_address tenant user body (db w) = inr addr
    ∧ a = "SWS-" +:+ pretty now
    ∧ b = "PAY-" +:+ pretty now +:+ "-" +:+ rnd
    ∧ providerRef payment = b
    ∧ p_tenantId payment = tenant
    ∧ orderId payment = oid
    ∧ p_status payment = initialized
    ∧ amountNgn payment = t_totalNgn (calculateCartTotals (c_lines cart))
    ∧ snd (initializeCheckout env now rnd oid pid gateway tenant user body w)
      = mkWorld (set_payments (fun ps => ps ++ [payment])
                   (set_orders (fun os => <[oid := checkout_order now tenant user oid
                                                     addr cart]> os) (db w)))
                (queue w).
Proof.
  unfold initializeCheckout.
  destruct (CartModel_findOne tenant user (db w)) as [cart|]; [|discriminate].
  destruct (bool_decide (c_lines cart = [])) eqn:Hne; [discriminate|].
  apply bool_decide_eq_false in Hne.
  destruct (resolve_address tenant user body (db w)) as [resp|addr] eqn:Haddr.
  { intros Hresp. simpl in Hresp. subst resp. exfalso.
    unfold resolve_address in Haddr.
    repeat match type of Haddr with
           | context [match ?x with _ => _ end] => destruct x
           end; discriminate. }
  destruct (initializePaystackTransaction env gateway) as [e|paystack]; [discriminate|].
  unfold withTransaction, checkout_transaction, tx_bind, OrderModel_create.
  cbn [o_id o_tenantId orderRef].
  destruct (bool_decide (orders (db w) !! oid = None) && _); [|discriminate].
  unfold PaymentModel_create. cbn [p_id p_tenantId providerRef payments set_orders].
  destruct (forallb _ (payments (db w))); [|discriminate].
  cbn. intros [= <- <- _]. rewrite copy_lines.
  eexists cart, addr, _. repeat split; try reflexivity. exact Hne.
Qed.

(** X9. A checkout answered 201 stores an order that copies the cart's
    lines and carries the totals [calculateCartTotals] gives for them, and
    a payment for exactly the order's total; for amounts in the safe-integer
    range the subtotal is the sum of quantity times unit price and the
    total is subtotal plus shipping. The checkout takes nothing from stock,
    leaves the cart as it is and enqueues nothing. *)
Theorem checkout_copies_cart (env : Env) (now : Z) (rnd : string)
    (oid pid : ObjectId) (gateway : HttpResult PaystackInit) (tenant user : ObjectId)
    (body : CheckoutInit) (w : World) (a b c : string) :
  fst (initializeCheckout env now rnd oid pid gateway tenant user body w)
  = CheckoutCreated a b c →
  let w' := snd (initializeCheckout env now rnd oid pid gateway tenant user body w) in
  ∃ cart order payment,
    CartModel_findOne tenant user (db w) = Some cart
    ∧ orders (db w') !! oid = Some order
    ∧ payments (db w') = payments (db w) ++ [payment]
    ∧ lines order = c_lines cart
    ∧ subtotalNgn order = t_subtotalNgn (calculateCartTotals (c_lines cart))
    ∧ shippingNgn order = t_shippingNgn (calculateCartTotals (c_lines cart))
    ∧ totalNgn order = t_totalNgn (calculateCartTotals (c_lines cart))
    ∧ (safe_amounts (c_lines cart) →
       subtotalNgn order = sum_lines (c_lines cart)
       ∧ totalNgn order = (subtotalNgn order + shippingNgn order)%Z)
    ∧ amountNgn payment = totalNgn order
    ∧ orderRef order = a ∧ providerRef payment = b
    ∧ carts (db w') = carts (db w)
    ∧ products (db w') = products (db w)
    ∧ queue w' = queue w.
Proof.
  intros H. cbv zeta.
  destruct (initializeCheckout_created _ _ _ _ _ _ _ _ _ _ _ _ _ H)
    as (cart & addr & payment & Hcart & _ & _ & -> & -> & Hpref & _ & _ & _ & Hamt & ->).
  exists cart, (checkout_order now tenant user oid addr cart), payment.
  cbn [db queue orders payments carts products set_payments set_orders checkout_order
       lines subtotalNgn shippingNgn totalNgn orderRef].
  rewrite lookup_insert_eq.
  repeat split; try reflexivity; try assumption;
    match goal with
    | Hsafe : safe_amounts _ |- _ => rewrite (calculateCartTotals_safe _ Hsafe)
    end; reflexivity.
Qed.

Lemma checkout_copies_cart_witness :
  ∃ cart order payment,
    CartModel_findOne 1 7 (db (Demo.world 1)) = Some cart
    ∧ orders (db (snd (initializeCheckout (Demo.env ByIdCondition) 5 "X1Y2Z3" 101 201
                         Demo.accepted 1 7 Demo.inline_address (Demo.world 1))))
        !! 101%N = Some order
    ∧ payments (db (snd (initializeCheckout (Demo.env ByIdCondition) 5 "X1Y2Z3" 101 201
                           Demo.accepted 1 7 Demo.inline_address (Demo.world 1))))
      = payments (db (Demo.world 1)) ++ [payment]
    ∧ lines order = c_lines cart
    ∧ subtotalNgn order = t_subtotalNgn (calculateCartTotals (c_lines cart))
    ∧ shippingNgn order = t_shippingNgn (calculateCartTotals (c_lines cart))
    ∧ totalNgn order = t_totalNgn (calculateCartTotals (c_lines cart))
    ∧ (safe_amounts (c_lines cart) →
       subtotalNgn order = sum_lines (c_lines cart)
       ∧ totalNgn order = (subtotalNgn order + shippingNgn order)%Z)
    ∧ amountNgn payment = totalNgn order
    ∧ orderRef order = "SWS-5" ∧ providerRef payment = "PAY-5-X1Y2Z3"
    ∧ carts (db (snd (initializeCheckout (Demo.env ByIdCondition) 5 "X1Y2Z3" 101 201
                        Demo.accepted 1 7 Demo.inline_address (Demo.world 1))))
      = carts (db (Demo.world 1))
    ∧ products (db (snd (initializeCheckout (Demo.env ByIdCondition) 5 "X1Y2Z3" 101 201
                           Demo.accepted 1 7 Demo.inline_address (Demo.world 1))))
      = products (db (Demo.world 1))
    ∧ queue (snd (initializeCheckout (Demo.env ByIdCondition) 5 "X1Y2Z3" 101 201
                    Demo.accepted 1 7 Demo.inline_address (Demo.world 1)))
      = queue (Demo.world 1).
Proof.
  refine (checkout_copies_cart (Demo.env ByIdCondition) 5 "X1Y2Z3" 101 201
            Demo.accepted 1 7 Demo.inline_address (Demo.world 1)
            "SWS-5" "PAY-5-X1Y2Z3" "https://paystack.test/authorize" _).
  vm_compute. reflexivity.
Defined.

Lemma OrderModel_create_taken (o o0 : Order) (k : ObjectId) (d : Db) :
  orders d !! k = Some o0 →
  o_tenantId o0 = o_tenantId o → orderRef o0 = orderRef o →
  OrderModel_create o d = inl duplicate_key.
Proof.
  intros Hk Ht Hr. unfold OrderModel_create.
  rewrite (bool_decide_eq_true_2 (map_Exists _ (orders d))).
  - now rewrite andb_false_r.
  - exists k, o0. auto.
Qed.

(** X10. The order reference is made of the clock value alone, and the
    orders of a tenant are indexed by it: once a checkout of a tenant was
    answered 201, every further checkout of that tenant at the same clock
    value, by any customer, is refused and writes nothing. *)
Theorem checkout_same_clock_refused (env : Env) (now : Z) (rnd : string)
    (oid pid : ObjectId) (gateway : HttpResult PaystackInit) (tenant user : ObjectId)
    (body : CheckoutInit) (w : World) (a b c : string) :
  fst (initializeCheckout env now rnd oid pid gateway tenant user body w)
  = CheckoutCreated a b c →
  ∀ rnd' oid' pid' gateway' user' body',
    let w1 := snd (initializeCheckout env now rnd oid pid gateway tenant user body w) in
    checkout_status (fst (initializeCheckout env now rnd' oid' pid' gateway' tenant user'
                            body' w1)) ≠ 201%Z
    ∧ snd (initializeCheckout env now rnd' oid' pid' gateway' tenant user' body' w1) = w1.
Proof.
  intros H rnd' oid' pid' gateway' user' body'. cbv zeta.
  destruct (initializeCheckout_created _ _ _ _ _ _ _ _ _ _ _ _ _ H)
    as (cart & addr & payment & _ & _ & _ & _ & _ & _ & _ & _ & _ & _ & ->).
  set (d1 := set_payments _ _).
  unfold initializeCheckout. cbn [db queue].
  destruct (CartModel_findOne tenant user' d1) as [cart'|];
    [|split; [discriminate|reflexivity]].
  destruct (bool_decide (c_lines cart' = [])); [split; [discriminate|reflexivity]|].
  destruct (resolve_address tenant user' body' d1) as [resp|addr'] eqn:Haddr.
  { split; [|reflexivity]. unfold resolve_address in Haddr.
    repeat match type of Haddr with
           | context [match ?x with _ => _ end] => destruct x
           end; inversion Haddr; discriminate. }
  destruct (initializePaystackTransaction env gateway');
    [split; [discriminate|reflexivity]|].
  unfold withTransaction, checkout_transaction, tx_bind.
  rewrite (OrderModel_create_taken _ (checkout_order now tenant user oid addr cart) oid d1);
    [split; [discriminate|reflexivity] | | reflexivity | reflexivity].
  unfold d1. cbn. apply lookup_insert_eq.
Qed.

Lemma checkout_same_clock_refused_witness :
  checkout_status (fst (initializeCheckout (Demo.env ByIdCondition) 5 "A0B1C2" 102 202
                          Demo.accepted 1 7 Demo.inline_address
                          (snd (initializeCheckout (Demo.env ByIdCondition) 5 "X1Y2Z3"
                                  101 201 Demo.accepted 1 7 Demo.inline_address
                                  (Demo.world 1))))) ≠ 201%Z
  ∧ snd (initializeCheckout (Demo.env ByIdCondition) 5 "A0B1C2" 102 202
           Demo.accepted 1 7 Demo.inline_address
           (snd (initializeCheckout (Demo.env ByIdCondition) 5 "X1Y2Z3"
                   101 201 Demo.accepted 1 7 Demo.inline_address (Demo.world 1))))
    = snd (initializeCheckout (Demo.env ByIdCondition) 5 "X1Y2Z3"
             101 201 Demo.accepted 1 7 Demo.inline_address (Demo.world 1)).
Proof.
  refine (checkout_same_clock_refused (Demo.env ByIdCondition) 5 "X1Y2Z3" 101 201
            Demo.accepted 1 7 Demo.inline_address (Demo.world 1)
            "SWS-5" "PAY-5-X1Y2Z3" "https://paystack.test/authorize" _
            "A0B1C2" 102 202 Demo.accepted 7 Demo.inline_address).
  vm_compute. reflexivity.
Defined.

(** * The other payment routes (modules/payments.ts) *)

Record PaystackVerified : Type := mkVerified {
  v_reference : string;
  v_status : string;
  v_paid_at : option string;
  v_gateway_response : option string
}.

(** [verifyPaystackTransaction] (services/paystack). *)
Definition verifyPaystackTransaction (env : Env)
    (response : HttpResult PaystackVerified) : Err + PaystackVerified :=
  if truthy (PAYSTACK_SECRET_KEY env) then
    match response with
    | HttpFailed e => inl e
    | HttpBody false _ => inl (Error "Failed to verify Paystack transaction")
    | HttpBody true data => inr data
    end
  else inl (Error "PAYSTACK_SECRET_KEY is not configured").

(** The metadata the callback and the status poll hand to finalisation. *)
Definition gateway_metadata (source : string) (v : PaystackVerified)
    : gmap string (option string) :=
  <["source" := Some source]>
    (<["gatewayResponse" := v_gateway_response v]>
       (<["paidAt" := v_paid_at v]> ∅)).

Definition upper_hex_digit (n : N) : ascii :=
  nth (N.to_nat n)
      ["0"; "1"; "2"; "3"; "4"; "5"; "6"; "7"; "8"; "9";
       "A"; "B"; "C"; "D"; "E"; "F"]%char "0"%char.

(** The characters [encodeURIComponent] leaves as they are. *)
Definition uri_unreserved (c : ascii) : bool :=
  let n := N_of_ascii c in
  ((65 <=? n) && (n <=? 90) || (97 <=? n) && (n <=? 122) || (48 <=? n) && (n <=? 57))%N
  || existsb (Ascii.eqb c) ["-"; "_"; "."; "!"; "~"; "*"; "'"; "("; ")"]%char.

(** [encodeURIComponent] on the UTF-8 bytes of a string. *)
Fixpoint encodeURIComponent (s : string) : string :=
  match s with
  | EmptyString => EmptyString
  | String c rest =>
    if uri_unreserved c then String c (encodeURIComponent rest)
    else String "%" (String (upper_hex_digit (N_of_ascii c / 16))
                       (String (upper_hex_digit (N_of_ascii c mod 16))
                          (encodeURIComponent rest)))
  end.

(** [CLIENT_CHECKOUT_SUCCESS_URL] and [CLIENT_CHECKOUT_FAILURE_URL]. *)
Record CheckoutUrls : Type := mkUrls {
  CLIENT_CHECKOUT_SUCCESS_URL : string;
  CLIENT_CHECKOUT_FAILURE_URL : string
}.

Definition failure_location (urls : CheckoutUrls) (ref : string) : string :=
  CLIENT_CHECKOUT_FAILURE_URL urls +:+ "?ref=" +:+ encodeURIComponent ref.

Definition success_location (urls : CheckoutUrls) (ref oref : string) : string :=
  CLIENT_CHECKOUT_SUCCESS_URL urls +:+ "?ref=" +:+ encodeURIComponent ref
  +:+ "&orderRef=" +:+ encodeURIComponent oref.

Inductive CallbackResponse : Type :=
  | CallbackMissingReference
  | CallbackRedirect (location : string).

(** [paymentsRouter.get("/paystack/callback")]; [reference] is the query
    parameter when it is a string. *)
Definition paystack_callback (env : Env) (urls : CheckoutUrls) (now : Z)
    (reference : option string) (gateway : HttpResult PaystackVerified) (w : World)
    : CallbackResponse * World :=
  match reference with
  | Some (String c r) =>
    let ref := String c r in
    match verifyPaystackTransaction env gateway with
    | inl _ => (CallbackRedirect (failure_location urls ref), w)
    | inr verified =>
      if negb (String.eqb (v_status verified) "success") then
        (CallbackRedirect (failure_location urls ref), w)
      else
        match finalizeSuccessfulPayment env now ref
                (gateway_metadata "callback" verified) w with
        | (inr result, w') =>
          (CallbackRedirect (success_location urls ref (orderRef (r_order result))), w')
        | (inl _, w') => (CallbackRedirect (failure_location urls ref), w')
        end
    end
  | Some EmptyString | None => (CallbackMissingReference, w)
  end.

Inductive StatusResponse : Type :=
  | PaymentNotFound
  | StatusReport (paymentRef : string) (status : PaymentStatus) (verified : option Z).

Definition status_code (r : StatusResponse) : Z :=
  match r with
  | PaymentNotFound => 404
  | StatusReport _ _ _ => 200
  end.

Definition report (p : Payment) : StatusResponse :=
  StatusReport (providerRef p) (p_status p) (verifiedAt p).

(** [paymentsRouter.get("/:ref/status")]. *)
Definition payment_status (env : Env) (now : Z) (tenant : ObjectId) (ref : string)
    (gateway : HttpResult PaystackVerified) (w : World) : StatusResponse * World :=
  match PaymentModel_findOne_in_tenant tenant ref (db w) with
  | None => (PaymentNotFound, w)
  | Some payment =>
    if decide (p_status payment = success) then (report payment, w)
    else
      match verifyPaystackTransaction env gateway with
      | inl _ => (report payment, w)
      | inr verified =>
        if String.eqb (v_status verified) "success" then
          match finalizeSuccessfulPayment env now ref
                  (gateway_metadata "status_poll" verified) w with
          | (inr finalized, w') => (report (r_payment finalized), w')
          | (inl _, w') => (report payment, w')
          end
        else (report payment, w)
      end
  end.

(** ** Claims and the order lookup *)

Inductive Role : Type := role_customer | role_admin | role_staff.

#[global] Instance Role_eq_dec : EqDecision Role.
Proof. solve_decision. Defined.

(** [authClaimsSchema] (shared-types). *)
Record AuthClaims : Type := mkClaims {
  cl_tenantId : string;
  cl_userId : string;
  cl_role : Role;
  cl_permissions : list string;
  twoFactorVerified : option bool
}.

Inductive OrderLookup : Type :=
  | LookupPaymentNotFound
  | LookupDenied
  | LookupOrderNotFound
  | LookupFound (paymentRef orderId orderReference : string) (status : OrderStatus).

Definition lookup_code (r : OrderLookup) : Z :=
  match r with
  | LookupPaymentNotFound | LookupOrderNotFound => 404
  | LookupDenied => 403
  | LookupFound _ _ _ _ => 200
  end.

(** [paymentsRouter.get("/:ref/order")]. *)
Definition payment_order (tenant : ObjectId) (claims : option AuthClaims) (ref : string)
    (d : Db) : OrderLookup :=
  match PaymentModel_findOne_in_tenant tenant ref d with
  | None => LookupPaymentNotFound
  | Some payment =>
    if match claims with
       | Some c => bool_decide (cl_role c = role_customer)
                   && negb (String.eqb (oid_toString (p_userId payment)) (cl_userId c))
       | None => false
       end
    then LookupDenied
    else
      match OrderModel_findById (orderId payment) d with
      | None => LookupOrderNotFound
      | Some order =>
        LookupFound (providerRef payment) (oid_toString (o_id order)) (orderRef order)
                    (o_status order)
      end
  end.

Lemma finalize_returns_success (env : Env) (now : Z) (ref : string)
    (extra : gmap string (option string)) (w w' : World) (r : FinalizeResult) :
  finalizeSuccessfulPayment env now ref extra w = (inr r, w') →
  p_status (r_payment r) = success ∧ providerRef (r_payment r) = ref.
Proof.
  intros H. pose proof (finalize_cases env now ref extra w) as Hc. rewrite H in Hc.
  inversion Hc as [| | p o Hp Ho Hs | | p o d' Hp Ho Hs Hcm Hafter |]; subst; simpl.
  - split; [exact Hs | now apply PaymentModel_findOne_ref in Hp].
  - split; [reflexivity | now apply PaymentModel_findOne_ref in Hp].
Qed.

(** X11. The callback does not trust the redirect: without a reference it
    answers 400 and writes nothing; with one it always answers with a
    redirect, and the state changes only when the gateway itself verified
    the transaction as "success" and finalisation was run. When
    finalisation returned, the redirect goes to the success location with
    the order's reference; in every other case it goes to the failure
    location, with the state as it was unless finalisation threw after its
    commit, which leaves the writes of the transaction in place. *)
Theorem callback_trusts_gateway_only (env : Env) (urls : CheckoutUrls) (now : Z)
    (reference : option string) (gateway : HttpResult PaystackVerified) (w : World) :
  let out := paystack_callback env urls now reference gateway w in
  (truthy reference = false → out = (CallbackMissingReference, w))
  ∧ (∀ ref, reference = Some ref → ref ≠ "" →
       (∃ v r, verifyPaystackTransaction env gateway = inr v
               ∧ v_status v = "success"
               ∧ finalizeSuccessfulPayment env now ref (gateway_metadata "callback" v) w
                 = (inr r, snd out)
               ∧ fst out = CallbackRedirect
                             (success_location urls ref (orderRef (r_order r))))
       ∨ (fst out = CallbackRedirect (failure_location urls ref)
          ∧ (snd out = w
             ∨ ∃ v e, verifyPaystackTransaction env gateway = inr v
                      ∧ v_status v = "success"
                      ∧ finalizeSuccessfulPayment env now ref
                          (gateway_metadata "callback" v) w = (inl e, snd out)
                      ∧ thrown_after_commit env now ref (gateway_metadata "callback" v)
                                            w (snd out) e))).
Proof.
  cbv zeta. unfold paystack_callback. split.
  - destruct reference as [[|c r]|]; try reflexivity. discriminate.
  - intros ref -> Hne. destruct ref as [|c r]; [contradiction|].
    destruct (verifyPaystackTransaction env gateway) as [e|v]; [right; auto|].
    destruct (String.eqb (v_status v) "success") eqn:Hs; simpl; [|right; auto].
    apply String.eqb_eq in Hs.
    destruct (finalizeSuccessfulPayment env now (String c r)
                (gateway_metadata "callback" v) w) as [[e|res] w'] eqn:Hfin.
    + right. split; [reflexivity|]. cbn [snd].
      destruct (finalize_failure_state _ _ _ _ _ _ _ Hfin) as [-> | Hafter];
        [now left | right; exists v, e; auto].
    + left. exists v, res. auto.
Qed.

(** X12. The status poll answers 404 exactly when the tenant has no payment
    with the reference. It is a read unless the stored status is not yet
    success and the gateway verifies "success": only then is finalisation
    called, and when it returns the poll reports success. In every other
    case the poll answers 200 with the payment as it was read, and the
    state is as it was unless finalisation threw after its commit, which
    leaves the writes of the transaction in place. *)
Theorem payment_status_poll (env : Env) (now : Z) (tenant : ObjectId) (ref : string)
    (gateway : HttpResult PaystackVerified) (w : World) :
  let out := payment_status env now tenant ref gateway w in
  (fst out = PaymentNotFound ↔ PaymentModel_findOne_in_tenant tenant ref (db w) = None)
  ∧ (∀ p, PaymentModel_findOne_in_tenant tenant ref (db w) = Some p →
       (∃ v r, p_status p ≠ success
               ∧ verifyPaystackTransaction env gateway = inr v
               ∧ v_status v = "success"
               ∧ finalizeSuccessfulPayment env now ref (gateway_metadata "status_poll" v) w
                 = (inr r, snd out)
               ∧ fst out = StatusReport ref success (verifiedAt (r_payment r)))
       ∨ (fst out = report p
          ∧ (snd out = w
             ∨ ∃ v e, p_status p ≠ success
                      ∧ verifyPaystackTransaction env gateway = inr v
                      ∧ v_status v = "success"
                      ∧ finalizeSuccessfulPayment env now ref
                          (gateway_metadata "status_poll" v) w = (inl e, snd out)
                      ∧ thrown_after_commit env now ref (gateway_metadata "status_poll" v)
                                            w (snd out) e))).
Proof.
  cbv zeta. unfold payment_status.
  destruct (PaymentModel_findOne_in_tenant tenant ref (db w)) as [p|] eqn:Hp.
  - split.
    + split; [|discriminate].
      destruct (decide (p_status p = success)); [discriminate|].
      destruct (verifyPaystackTransaction env gateway) as [e|v]; [discriminate|].
      destruct (String.eqb (v_status v) "success"); [|discriminate].
      destruct (finalizeSuccessfulPayment _ _ _ _ _) as [[e|res] w']; discriminate.
    + intros p0 [= <-].
      destruct (decide (p_status p = success)) as [Hs|Hs]; [right; auto|].
      destruct (verifyPaystackTransaction env gateway) as [e|v]; [right; auto|].
      destruct (String.eqb (v_status v) "success") eqn:Hv; [|right; auto].
      apply String.eqb_eq in Hv.
      destruct (finalizeSuccessfulPayment env now ref
                  (gateway_metadata "status_poll" v) w) as [[e|res] w'] eqn:Hfin.
      * right. split; [reflexivity|]. cbn [snd].
        destruct (finalize_failure_state _ _ _ _ _ _ _ Hfin) as [-> | Hafter];
          [now left | right; exists v, e; auto].
      * left. exists v, res.
        destruct (finalize_returns_success _ _ _ _ _ _ _ Hfin) as [Hsucc Href].
        unfold report. simpl. rewrite Hsucc, Href. auto.
  - split; [split; reflexivity | intros p [=]].
Qed.

(** With the queue's connection closed, the callback of the concrete store
    redirects to the failure location although the payment and the order
    were committed. *)
Example callback_after_commit_failure :
  let out := paystack_callback (queue_down ByIdCondition)
               (mkUrls "https://shop/success" "https://shop/failure") 9
               (Some "PAY-1-ABC123")
               (HttpBody true (mkVerified "PAY-1-ABC123" "success" None (Some "Approved")))
               (Demo.world 1) in
  fst out = CallbackRedirect "https://shop/failure?ref=PAY-1-ABC123"
  ∧ p_status <$> payments (db (snd out)) = [success]
  ∧ o_status <$> orders (db (snd out)) !! 100%N = Some paid
  ∧ queue (snd out) = [].
Proof. vm_compute. repeat split; reflexivity. Qed.

(** X13. The order lookup is scoped to the caller's tenant, and a customer
    is shown the order of a payment only when the payment is the
    customer's own: a 200 answer names an order that belongs to a payment
    of the tenant with the reference, and for a customer the payment's user
    id is the one in the claims. *)
Theorem payment_order_scoped (tenant : ObjectId) (claims : option AuthClaims)
    (ref : string) (d : Db) (pref oid oref : string) (st : OrderStatus) :
  payment_order tenant claims ref d = LookupFound pref oid oref st →
  ∃ p o,
    p ∈ payments d ∧ p_tenantId p = tenant ∧ providerRef p = ref ∧ pref = ref
    ∧ orders d !! orderId p = Some o
    ∧ oid = oid_toString (o_id o) ∧ oref = orderRef o ∧ st = o_status o
    ∧ ∀ c, claims = Some c → cl_role c = role_customer →
           cl_userId c = oid_toString (p_userId p).
Proof.
  unfold payment_order, PaymentModel_findOne_in_tenant.
  destruct (List.find _ (payments d)) as [p|] eqn:Hfind; [|discriminate].
  apply find_elem_of in Hfind as [Hin Hm].
  apply andb_true_iff in Hm as [Ht%N.eqb_eq Hr%String.eqb_eq].
  destruct (match claims with Some _ => _ | None => false end) eqn:Hdeny; [discriminate|].
  unfold OrderModel_findById.
  destruct (orders d !! orderId p) as [o|] eqn:Ho; [|discriminate].
  intros [= <- <- <- <-]. exists p, o. repeat split; auto.
  intros c -> Hrole. rewrite bool_decide_eq_true_2 in Hdeny by exact Hrole.
  rewrite andb_true_l in Hdeny. apply negb_false_iff, String.eqb_eq in Hdeny.
  now symmetry.
Qed.

Lemma payment_order_scoped_witness :
  ∃ p o,
    p ∈ payments (Demo.store 1) ∧ p_tenantId p = 1%N
    ∧ providerRef p = "PAY-1-ABC123" ∧ "PAY-1-ABC123" = "PAY-1-ABC123"
    ∧ orders (Demo.store 1) !! orderId p = Some o
    ∧ oid_toString 100 = oid_toString (o_id o) ∧ "SWS-1" = orderRef o
    ∧ pending = o_status o
    ∧ ∀ c, Some (mkClaims "1" (oid_toString 7) role_customer [] None) = Some c →
           cl_role c = role_customer → cl_userId c = oid_toString (p_userId p).
Proof.
  refine (payment_order_scoped 1 (Some (mkClaims "1" (oid_toString 7) role_customer [] None))
            "PAY-1-ABC123" (Demo.store 1) "PAY-1-ABC123" (oid_toString 100) "SWS-1" pending
            _).
  vm_compute. reflexivity.
Defined.

(** Another customer of the tenant is refused. *)
Example payment_order_denies_other_customer :
  payment_order 1 (Some (mkClaims "1" (oid_toString 8) role_customer [] None))
                "PAY-1-ABC123" (Demo.store 1) = LookupDenied.
Proof. vm_compute. reflexivity. Qed.

Lemma upper_hex_digit_unreserved (n : N) : uri_unreserved (upper_hex_digit n) = true.
Proof.
  unfold upper_hex_digit. generalize (N.to_nat n) as k. intros k.
  do 16 (destruct k as [|k]; [reflexivity|]). destruct k; reflexivity.
Qed.

Lemma encodeURIComponent_alphabet (s : string) :
  all_chars (fun c => uri_unreserved c || Ascii.eqb c "%") (encodeURIComponent s) = true.
Proof.
  induction s as [|c s IH]; [reflexivity|].
  cbn [encodeURIComponent]. destruct (uri_unreserved c) eqn:Hc; cbn [all_chars].
  - now rewrite Hc, IH.
  - rewrite !upper_hex_digit_unreserved, IH. reflexivity.
Qed.

Lemma reserved_not_safe (a c : ascii) :
  uri_unreserved a = false → Ascii.eqb a "%" = false →
  uri_unreserved c || Ascii.eqb c "%" = true → negb (Ascii.eqb a c) = true.
Proof.
  intros Ha Hp Hc. apply negb_true_iff. apply Ascii.eqb_neq. intros ->.
  rewrite Ha, Hp in Hc. discriminate.
Qed.

(** X14. [encodeURIComponent] writes only unreserved characters and
    percent escapes, so a reference placed in a redirect location cannot
    add a query parameter or a fragment: the encoded text contains no "&",
    "=", "#", "?", "/" or space; and a text of unreserved characters is
    left as it is. *)
Theorem encodeURIComponent_safe (s : string) :
  includes (encodeURIComponent s) "&" = false
  ∧ includes (encodeURIComponent s) "=" = false
  ∧ includes (encodeURIComponent s) "#" = false
  ∧ includes (encodeURIComponent s) "?" = false
  ∧ includes (encodeURIComponent s) "/" = false
  ∧ includes (encodeURIComponent s) " " = false
  ∧ (all_chars uri_unreserved s = true → encodeURIComponent s = s).
Proof.
  pose proof (encodeURIComponent_alphabet s) as Hs.
  repeat split;
    try (apply includes_without_first;
         refine (all_chars_impl _ _ _ _ Hs); intros c;
         apply reserved_not_safe; reflexivity).
  clear Hs. induction s as [|c s IH]; [reflexivity|].
  cbn [all_chars encodeURIComponent]. intros [Hc Hrest]%andb_true_iff.
  rewrite Hc. f_equal. now apply IH.
Qed.

Example encodeURIComponent_reference :
  encodeURIComponent "PAY-5-X1Y2Z3&orderRef=SWS 1" = "PAY-5-X1Y2Z3%26orderRef%3DSWS%201".
Proof. reflexivity. Qed.

(** * Authentication gates (middleware/auth.ts, services/accessControl) *)

Fixpoint slice_from (n : nat) (s : string) : string :=
  match n, s with
  | O, _ => s
  | S n', String _ rest => slice_from n' rest
  | S _, EmptyString => EmptyString
  end.

Definition parseBearerToken (authorizationHeader : option string) : option string :=
  match authorizationHeader with
  | Some h =>
    if negb (truthy (Some h)) || negb (startsWith h "Bearer ") then None
    else Some (slice_from (String.length "Bearer ") h)
  | None => None
  end.

(** A request as the gates read it: the [authorization] header, the tenant
    the tenant middleware resolved, the claims [optionalAuth] attached. *)
Record Request : Type := mkRequest {
  authorization : option string;
  req_tenantId : option string;
  req_claims : option AuthClaims
}.

Definition demo_claims (tenant : option string) : AuthClaims :=
  mkClaims (default "" tenant) "demo-admin" role_admin
    ["orders:read"; "orders:write"; "users:read"; "users:manage"; "reports:view";
     "inventory:manage"]
    (Some true).

(** [optionalAuth]. [production] is [NODE_ENV === "production"]; [verify] is
    [verifyAccessToken] followed by [authClaimsSchema.parse], [None] when
    either throws. *)
Definition optionalAuth (production : bool) (verify : string → option AuthClaims)
    (req : Request) : Request :=
  match parseBearerToken (authorization req) with
  | Some (String c t) =>
    let token := String c t in
    if String.eqb token "demo-admin-token" && negb production then
      mkRequest (authorization req) (req_tenantId req) (Some (demo_claims (req_tenantId req)))
    else mkRequest (authorization req) (req_tenantId req) (verify token)
  | Some EmptyString | None => req
  end.

Inductive Gate : Type :=
  | Next
  | Refuse (status : Z) (msg : string).

Definition requireCustomer (req : Request) : Gate :=
  match req_claims req with
  | Some c =>
    if negb (bool_decide (cl_role c = role_customer)) then
      Refuse 401 "Customer authentication required"
    else if negb (bool_decide (Some (cl_tenantId c) = req_tenantId req)) then
      Refuse 403 "Cross-tenant access denied"
    else Next
  | None => Refuse 401 "Customer authentication required"
  end.

Definition requireAdmin (req : Request) : Gate :=
  match req_claims req with
  | Some c =>
    if bool_decide (cl_role c ≠ role_admin) && bool_decide (cl_role c ≠ role_staff) then
      Refuse 401 "Admin authentication required"
    else if negb (bool_decide (Some (cl_tenantId c) = req_tenantId req)) then
      Refuse 403 "Cross-tenant access denied"
    else Next
  | None => Refuse 401 "Admin authentication required"
  end.

Definition requirePermission (permission : string) (req : Request) : Gate :=
  match req_claims req with
  | None => Refuse 401 "Authentication required"
  | Some c =>
    if bool_decide (cl_role c = role_admin)
       && bool_decide ("users:manage" ∈ cl_permissions c) then Next
    else if negb (bool_decide (permission ∈ cl_permissions c)) then
      Refuse 403 ("Missing permission: " +:+ permission)
    else Next
  end.

Inductive AccessLevel : Type := owner | manager | staff.

Definition resolveRole (accessLevel : AccessLevel) : Role :=
  match accessLevel with
  | staff => role_staff
  | _ => role_admin
  end.

Definition resolvePermissions (accessLevel : AccessLevel) : list string :=
  match accessLevel with
  | owner =>
    ["orders:read"; "orders:write"; "users:read"; "users:manage"; "reports:view";
     "campaigns:manage"; "inventory:manage"]
  | manager => ["orders:read"; "orders:write"; "users:read"; "reports:view";
                "inventory:manage"]
  | staff => ["orders:read"; "orders:write"]
  end.

Lemma startsWith_app (p t : string) : startsWith (p +:+ t) p = true.
Proof.
  induction p as [|c p IH]; [destruct t; reflexivity|].
  change (String c p +:+ t) with (String c (p +:+ t)).
  cbn [startsWith]. now rewrite Ascii.eqb_refl.
Qed.

Lemma slice_from_app (p t : string) : slice_from (String.length p) (p +:+ t) = t.
Proof.
  induction p as [|c p IH]; [reflexivity|].
  change (String c p +:+ t) with (String c (p +:+ t)). exact IH.
Qed.

Lemma startsWith_split (p h : string) :
  startsWith h p = true → h = p +:+ slice_from (String.length p) h.
Proof.
  revert h. induction p as [|c p IH]; intros h; [reflexivity|].
  destruct h as [|b h]; [discriminate|]. cbn [startsWith String.length slice_from].
  intros [Hc Hrest]%andb_true_iff. apply Ascii.eqb_eq in Hc as <-.
  change (String c p +:+ slice_from (String.length p) h)
    with (String c (p +:+ slice_from (String.length p) h)).
  f_equal. now apply IH.
Qed.

(** X15. [parseBearerToken] returns a token exactly for a header of the
    form "Bearer " followed by that token: the scheme is matched with its
    case and its single space, and nothing of the token is dropped. *)
Theorem parseBearerToken_round_trip (h : option string) (t : string) :
  parseBearerToken h = Some t ↔ h = Some ("Bearer " +:+ t).
Proof.
  split.
  - destruct h as [h|]; [|discriminate]. unfold parseBearerToken.
    destruct (negb (truthy (Some h))); [discriminate|]. cbn [orb].
    destruct (startsWith h "Bearer ") eqn:Hp; [|discriminate].
    cbn [negb]. intros [= <-]. f_equal. now apply startsWith_split.
  - intros ->. unfold parseBearerToken.
    change (truthy (Some ("Bearer " +:+ t))) with true.
    rewrite startsWith_app. cbn [negb orb]. now rewrite slice_from_app.
Qed.

(** X16. For claims issued from an access level (role [resolveRole],
    permissions [resolvePermissions]), [requirePermission] lets an owner
    through for every permission, listed or not, and lets a manager or a
    staff member through exactly for the permissions of the level: a
    manager has the admin role but not the bypass. *)
Theorem requirePermission_by_access_level (level : AccessLevel) (permission : string)
    (req : Request) (c : AuthClaims) :
  req_claims req = Some c →
  cl_role c = resolveRole level →
  cl_permissions c = resolvePermissions level →
  requirePermission permission req = Next
  ↔ level = owner ∨ permission ∈ resolvePermissions level.
Proof.
  intros Hc Hrole Hperm. unfold requirePermission. rewrite Hc, Hrole, Hperm.
  destruct level; cbn [resolveRole].
  - split; [now left | reflexivity].
  - rewrite (bool_decide_eq_false_2 ("users:manage" ∈ resolvePermissions manager))
      by (vm_compute; intros H; repeat (inversion H as [|? ? ? H']; clear H; rename H' into H)).
    rewrite andb_false_r.
    destruct (bool_decide (permission ∈ resolvePermissions manager)) eqn:Hp; cbn [negb].
    + apply bool_decide_eq_true in Hp. split; [now right | reflexivity].
    + apply bool_decide_eq_false in Hp. split; [discriminate|].
      intros [H|H]; [discriminate | contradiction].
  - cbn [andb bool_decide]. 
    rewrite (bool_decide_eq_false_2 (role_staff = role_admin)) by discriminate.
    cbn [andb].
    destruct (bool_decide (permission ∈ resolvePermissions staff)) eqn:Hp; cbn [negb].
    + apply bool_decide_eq_true in Hp. split; [now right | reflexivity].
    + apply bool_decide_eq_false in Hp. split; [discriminate|].
      intros [H|H]; [discriminate | contradiction].
Qed.

Lemma requirePermission_by_access_level_witness :
  requirePermission "users:manage"
    (mkRequest None (Some "1")
       (Some (mkClaims "1" "u1" (resolveRole manager) (resolvePermissions manager) None)))
  = Next
  ↔ manager = owner ∨ "users:manage" ∈ resolvePermissions manager.
Proof.
  exact (requirePermission_by_access_level manager "users:manage"
           (mkRequest None (Some "1")
              (Some (mkClaims "1" "u1" (resolveRole manager) (resolvePermissions manager)
                              None)))
           _ eq_refl eq_refl eq_refl).
Defined.

(** X17. The two role gates exclude each other and both hold the tenant
    line: a request passes [requireCustomer] exactly when its claims have
    the customer role and name the tenant of the request, passes
    [requireAdmin] exactly when they have the admin or staff role and name
    that tenant, and never passes both. *)
Theorem role_gates (req : Request) :
  (requireCustomer req = Next
   ↔ ∃ c, req_claims req = Some c ∧ cl_role c = role_customer
          ∧ req_tenantId req = Some (cl_tenantId c))
  ∧ (requireAdmin req = Next
     ↔ ∃ c, req_claims req = Some c ∧ (cl_role c = role_admin ∨ cl_role c = role_staff)
            ∧ req_tenantId req = Some (cl_tenantId c))
  ∧ ¬ (requireCustomer req = Next ∧ requireAdmin req = Next).
Proof.
  assert (Hc : requireCustomer req = Next
               ↔ ∃ c, req_claims req = Some c ∧ cl_role c = role_customer
                      ∧ req_tenantId req = Some (cl_tenantId c)).
  { unfold requireCustomer. destruct (req_claims req) as [c|].
    - destruct (bool_decide (cl_role c = role_customer)) eqn:Hr; cbn [negb].
      + apply bool_decide_eq_true in Hr.
        destruct (bool_decide (Some (cl_tenantId c) = req_tenantId req)) eqn:Ht; cbn [negb].
        * apply bool_decide_eq_true in Ht. split; [eauto | reflexivity].
        * apply bool_decide_eq_false in Ht. split; [discriminate|].
          intros (c' & [= <-] & _ & H). congruence.
      + apply bool_decide_eq_false in Hr. split; [discriminate|].
        intros (c' & [= <-] & H & _). contradiction.
    - split; [discriminate | intros (c' & [=] & _)]. }
  assert (Ha : requireAdmin req = Next
               ↔ ∃ c, req_claims req = Some c
                      ∧ (cl_role c = role_admin ∨ cl_role c = role_staff)
                      ∧ req_tenantId req = Some (cl_tenantId c)).
  { unfold requireAdmin. destruct (req_claims req) as [c|].
    - destruct (cl_role c) eqn:Hr; cbn.
      + split; [discriminate|]. intros (c' & [= <-] & [H|H] & _); congruence.
      + destruct (bool_decide (Some (cl_tenantId c) = req_tenantId req)) eqn:Ht; cbn [negb].
        * apply bool_decide_eq_true in Ht. split; [|reflexivity].
          intros _. exists c. rewrite Hr. auto.
        * apply bool_decide_eq_false in Ht. split; [discriminate|].
          intros (c' & [= <-] & _ & H). congruence.
      + destruct (bool_decide (Some (cl_tenantId c) = req_tenantId req)) eqn:Ht; cbn [negb].
        * apply bool_decide_eq_true in Ht. split; [|reflexivity].
          intros _. exists c. rewrite Hr. auto.
        * apply bool_decide_eq_false in Ht. split; [discriminate|].
          intros (c' & [= <-] & _ & H). congruence.
    - split; [discriminate | intros (c' & [=] & _)]. }
  split; [exact Hc|]. split; [exact Ha|].
  intros [H1 H2]. apply Hc in H1 as (c & Hc1 & Hr1 & _).
  apply Ha in H2 as (c' & Hc2 & Hr2 & _). rewrite Hc1 in Hc2. injection Hc2 as <-.
  destruct Hr2; congruence.
Qed.

(** X18. Outside production the demo token opens every admin route of
    whatever tenant the request names: [optionalAuth] attaches admin claims
    for that tenant, which pass [requireAdmin] and every
    [requirePermission]. In production the token is handed to the verifier
    like any other. *)
Theorem demo_token_gates (verify : string → option AuthClaims) (tenant : string)
    (permission : string) (claims : option AuthClaims) :
  let req := mkRequest (Some "Bearer demo-admin-token") (Some tenant) claims in
  requireAdmin (optionalAuth false verify req) = Next
  ∧ requirePermission permission (optionalAuth false verify req) = Next
  ∧ req_claims (optionalAuth true verify req) = verify "demo-admin-token".
Proof.
  cbv zeta.
  assert (Hreq : optionalAuth false verify
                   (mkRequest (Some "Bearer demo-admin-token") (Some tenant) claims)
                 = mkRequest (Some "Bearer demo-admin-token") (Some tenant)
                             (Some (demo_claims (Some tenant)))) by reflexivity.
  rewrite Hreq. repeat split.
  unfold requireAdmin.
  cbn [req_claims req_tenantId demo_claims cl_role cl_tenantId default].
  unfold id. repeat case_bool_decide; simpl; congruence.
Qed.

(** * Inventory adjustments and the ledger (modules/admin) *)

Inductive InventoryOperation : Type := inv_add | inv_remove | inv_adjust.

(** The parsed body of [inventoryAdjustmentSchema]. *)
Record InventoryAdjustment : Type := mkAdjustment {
  ia_productId : ObjectId;
  ia_variantId : ObjectId;
  ia_operation : InventoryOperation;
  ia_quantity : option Z;
  ia_targetStock : option Z;
  ia_note : option string
}.

(** [inventoryLedgerSchema]. *)
Record LedgerEntry : Type := mkLedger {
  le_tenantId : ObjectId;
  le_productId : ObjectId;
  le_variantId : ObjectId;
  le_operation : InventoryOperation;
  le_delta : Z;
  le_previousStock : Z;
  le_nextStock : Z;
  le_note : option string;
  le_actorId : string;
  le_actorRole : string
}.

Inductive StockAlert : Type := low_stock | restock.

(** The test at the head of [notifyWishlistSubscribers]: which alert, if
    any, a change of stock raises. *)
Definition stock_alert (previousStock currentStock : Z) : option StockAlert :=
  let lowStockThreshold := 3%Z in
  let crossedToLow :=
    (lowStockThreshold <? previousStock)%Z && (0 <? currentStock)%Z
    && (currentStock <=? lowStockThreshold)%Z in
  let crossedToRestock := (previousStock <=? 0)%Z && (0 <? currentStock)%Z in
  if negb crossedToLow && negb crossedToRestock then None
  else Some (if crossedToLow then low_stock else restock).

(** A user the two reads of [notifyWishlistSubscribers] return: on a
    wishlist of the product, with notifications enabled. *)
Record Subscriber : Type := mkSubscriber {
  sub_userId : ObjectId;
  sub_email : string;
  sub_firstName : option string
}.

(** [customerNotificationSchema]. *)
Record CustomerNotification : Type := mkCustomerNotification {
  cn_tenantId : ObjectId;
  cn_userId : ObjectId;
  cn_productId : ObjectId;
  cn_type : StockAlert;
  cn_title : string;
  cn_message : string
}.

(** [WishlistStockNotificationPayload]. *)
Record WishlistStockJob : Type := mkStockJob {
  wj_email : string;
  wj_firstName : option string;
  wj_productName : string;
  wj_type : StockAlert;
  wj_currentStock : Z
}.

(** The store with the collections and the jobs of the inventory route. *)
Record Inventory : Type := mkInventory {
  inv_db : Db;
  ledger : list LedgerEntry;
  customerNotifications : list CustomerNotification;
  stockJobs : list WishlistStockJob
}.

Definition alert_notification (tenant pid : ObjectId) (productName : string)
    (alert : StockAlert) (currentStock : Z) (u : Subscriber) : CustomerNotification :=
  mkCustomerNotification tenant (sub_userId u) pid alert
    (match alert with low_stock => "Low Stock Alert" | restock => "Back in Stock" end)
    (match alert with
     | low_stock => productName +:+ " is running low (" +:+ pretty currentStock +:+ " left)."
     | restock => productName +:+ " is back in stock (" +:+ pretty currentStock
                  +:+ " available)."
     end).

(** [notifyWishlistSubscribers]; [subscribers] are the users its reads
    return. *)
Definition notifyWishlistSubscribers (env : Env) (tenant pid : ObjectId)
    (productName : string) (previousStock currentStock : Z)
    (subscribers : list Subscriber) (s : Inventory) : Inventory :=
  match stock_alert previousStock currentStock with
  | None => s
  | Some alert =>
    mkInventory (inv_db s) (ledger s)
      (customerNotifications s
       ++ List.map (alert_notification tenant pid productName alert currentStock) subscribers)
      (if truthy (REDIS_URL env) then
         stockJobs s
         ++ List.map (fun u => mkStockJob (sub_email u) (sub_firstName u) productName alert
                                          currentStock) subscribers
       else stockJobs s)
  end.

Inductive AdjustmentResponse : Type :=
  | QuantityRequired
  | TargetStockRequired
  | ProductNotFound
  | VariantNotFound
  | StockCannotBeNegative
  | Adjusted (entry : LedgerEntry)
  | AdjustmentThrown (e : Err).

Definition adjustment_code (r : AdjustmentResponse) : Z :=
  match r with
  | QuantityRequired | TargetStockRequired => 400
  | ProductNotFound | VariantNotFound => 404
  | StockCannotBeNegative => 409
  | Adjusted _ => 201
  | AdjustmentThrown _ => 500
  end.

Definition role_name (r : Role) : string :=
  match r with
  | role_customer => "customer" | role_admin => "admin" | role_staff => "staff"
  end.

Definition set_stock (n : Z) (v : Variant) : Variant :=
  mkVariant (v_id v) (sku v) n (priceNgn v).

(** Whether a quantity is absent for the test [!quantity]. *)
Definition falsy_number (q : option Z) : bool :=
  match q with
  | Some n => (n =? 0)%Z
  | None => true
  end.

(** The two checks on the body that come before any read. *)
Definition incomplete_adjustment (body : InventoryAdjustment) : option AdjustmentResponse :=
  match ia_operation body with
  | inv_add | inv_remove =>
    if falsy_number (ia_quantity body) then Some QuantityRequired else None
  | inv_adjust =>
    if bool_decide (ia_targetStock body = None) then Some TargetStockRequired else None
  end.

(** [adminRouter.post("/inventory/adjustments")] for a body whose
    [productId] and [variantId] are ObjectIds, after the permission check,
    the parse of the body and [toObjectId]; the handler on the texts of the
    body is [postInventoryAdjustment] below. [productName] is the product's
    display name. *)
Definition adjustInventory (env : Env) (now : Z) (tenant : ObjectId)
    (claims : option AuthClaims) (productName : string) (subscribers : list Subscriber)
    (body : InventoryAdjustment) (s : Inventory) : AdjustmentResponse * Inventory :=
  match incomplete_adjustment body with
  | Some r => (r, s)
  | None =>
    match products (inv_db s) !! ia_productId body with
    | None => (ProductNotFound, s)
    | Some product =>
      if negb (N.eqb (pr_tenantId product) tenant) then (ProductNotFound, s)
      else
        match findIndex (has_id (ia_variantId body)) (variants product) with
        | None => (VariantNotFound, s)
        | Some i =>
          let previousStock := default 0%Z (stock <$> variants product !! i) in
          let nextStock :=
            match ia_operation body with
            | inv_add => (previousStock + default 0 (ia_quantity body))%Z
            | inv_remove => (previousStock - default 0 (ia_quantity body))%Z
            | inv_adjust => default previousStock (ia_targetStock body)
            end in
          if (nextStock <? 0)%Z then (StockCannotBeNegative, s)
          else
            let product' := mkProduct (pr_tenantId product) (slug product)
                              (alter (set_stock nextStock) i (variants product)) now in
            let s1 := mkInventory
                        (set_products (fun ps => <[ia_productId body := product']> ps)
                                      (inv_db s))
                        (ledger s) (customerNotifications s) (stockJobs s) in
            let s2 := notifyWishlistSubscribers env (pr_tenantId product)
                        (ia_productId body) productName previousStock nextStock
                        subscribers s1 in
            if (previousStock <? 0)%Z then
              (AdjustmentThrown (Error "InventoryLedger validation failed"), s2)
            else
              let entry := mkLedger tenant (ia_productId body) (ia_variantId body)
                             (ia_operation body) (nextStock - previousStock)
                             previousStock nextStock (ia_note body)
                             (default "unknown" (cl_userId <$> claims))
                             (default "admin" (role_name <$> (cl_role <$> claims))) in
              (Adjusted entry,
               mkInventory (inv_db s2) (ledger s2 ++ [entry]) (customerNotifications s2)
                           (stockJobs s2))
        end
    end
  end.

(** The stock of the variant that [variants.id(vid)] selects. *)
Definition variant_stock (d : Db) (pid vid : ObjectId) : option Z :=
  match products d !! pid with
  | Some p =>
    match findIndex (has_id vid) (variants p) with
    | Some i => stock <$> variants p !! i
    | None => None
    end
  | None => None
  end.

(** No variant of the store has a negative stock. *)
Definition stocks_nonnegative (d : Db) : Prop :=
  ∀ pid p, products d !! pid = Some p → Forall (fun v => (0 <= stock v)%Z) (variants p).

Lemma findIndex_alter {A} (f : A → bool) (g : A → A) (i : nat) (l : list A) :
  (∀ x, f (g x) = f x) → findIndex f (alter g i l) = findIndex f l.
Proof.
  intros Hfg. revert i. induction l as [|x l IH]; intros i; [reflexivity|].
  destruct i as [|i]; cbn.
  - now rewrite Hfg.
  - change (list_alter g i l) with (alter g i l). now rewrite IH.
Qed.

(** The stock an adjustment aims at. *)
Definition adjusted_stock (body : InventoryAdjustment) (previousStock : Z) : Z :=
  match ia_operation body with
  | inv_add => (previousStock + default 0 (ia_quantity body))%Z
  | inv_remove => (previousStock - default 0 (ia_quantity body))%Z
  | inv_adjust => default previousStock (ia_targetStock body)
  end.

(** What a request answered 201 found and wrote. *)
Record AdjustedRun (env : Env) (now : Z) (tenant : ObjectId) (claims : option AuthClaims)
    (productName : string) (subscribers : list Subscriber) (body : InventoryAdjustment)
    (s s' : Inventory) (e : LedgerEntry) (prev : Z) : Prop := mkAdjustedRun {
  ar_before : variant_stock (inv_db s) (ia_productId body) (ia_variantId body) = Some prev;
  ar_after : variant_stock (inv_db s') (ia_productId body) (ia_variantId body)
             = Some (adjusted_stock body prev);
  ar_bounds : (0 <= prev)%Z ∧ (0 <= adjusted_stock body prev)%Z;
  ar_entry : le_previousStock e = prev ∧ le_nextStock e = adjusted_stock body prev
             ∧ le_delta e = (adjusted_stock body prev - prev)%Z
             ∧ le_operation e = ia_operation body
             ∧ le_productId e = ia_productId body ∧ le_variantId e = ia_variantId body;
  ar_ledger : ledger s' = ledger s ++ [e];
  ar_alerts : customerNotifications s'
              = customerNotifications s
                ++ match stock_alert prev (adjusted_stock body prev) with
                   | Some alert =>
                     List.map (alert_notification tenant (ia_productId body) productName
                                 alert (adjusted_stock body prev)) subscribers
                   | None => []
                   end;
  ar_jobs : stockJobs s'
            = stockJobs s
              ++ match stock_alert prev (adjusted_stock body prev) with
                 | Some alert =>
                   if truthy (REDIS_URL env) then
                     List.map (fun u => mkStockJob (sub_email u) (sub_firstName u) productName
                                                   alert (adjusted_stock body prev))
                              subscribers
                   else []
                 | None => []
                 end;
  ar_frame : orders (inv_db s') = orders (inv_db s)
             ∧ payments (inv_db s') = payments (inv_db s)
             ∧ carts (inv_db s') = carts (inv_db s);
  ar_complete : incomplete_adjustment body = None;
  ar_products : ∃ p i,
      products (inv_db s) !! ia_productId body = Some p
      ∧ pr_tenantId p = tenant
      ∧ findIndex (has_id (ia_variantId body)) (variants p) = Some i
      ∧ products (inv_db s')
        = <[ia_productId body :=
              mkProduct (pr_tenantId p) (slug p)
                        (alter (set_stock (adjusted_stock body prev)) i (variants p)) now]>
            (products (inv_db s))
}.

Lemma adjustInventory_cases (env : Env) (now : Z) (tenant : ObjectId)
    (claims : option AuthClaims) (productName : string) (subscribers : list Subscriber)
    (body : InventoryAdjustment) (s : Inventory) :
  let out := adjustInventory env now tenant claims productName subscribers body s in
  (∃ e prev, fst out = Adjusted e
             ∧ AdjustedRun env now tenant claims productName subscribers body s (snd out)
                           e prev)
  ∨ (∃ err prev, fst out = AdjustmentThrown err
                 ∧ variant_stock (inv_db s) (ia_productId body) (ia_variantId body)
                   = Some prev
                 ∧ (prev < 0)%Z ∧ ledger (snd out) = ledger s)
  ∨ (adjustment_code (fst out) ≠ 201%Z ∧ adjustment_code (fst out) ≠ 500%Z ∧ snd out = s).
Proof.
  cbv zeta. unfold adjustInventory.
  destruct (incomplete_adjustment body) as [r|] eqn:Hearly.
  { right; right. revert Hearly. unfold incomplete_adjustment.
    destruct (ia_operation body);
      [destruct (falsy_number _) | destruct (falsy_number _) | destruct (bool_decide _)];
      intros H; try discriminate H; injection H as <-; repeat split; discriminate. }
  destruct (products (inv_db s) !! ia_productId body) as [p|] eqn:Hp;
    [|right; right; repeat split; discriminate].
  destruct (N.eqb (pr_tenantId p) tenant) eqn:Hten; cbn [negb];
    [|right; right; repeat split; discriminate].
  apply N.eqb_eq in Hten.
  destruct (findIndex (has_id (ia_variantId body)) (variants p)) as [i|] eqn:Hi;
    [|right; right; repeat split; discriminate].
  destruct (lookup_lt_is_Some_2 (variants p) i (findIndex_lt _ _ _ Hi)) as [v Hv].
  rewrite Hv. cbn [fmap option_fmap option_map].
  change (default 0%Z (Some (stock v))) with (stock v).
  fold (adjusted_stock body (stock v)).
  destruct (adjusted_stock body (stock v) <? 0)%Z eqn:Hneg;
    [right; right; repeat split; discriminate|].
  apply Z.ltb_ge in Hneg.
  assert (Hbefore : variant_stock (inv_db s) (ia_productId body) (ia_variantId body)
                    = Some (stock v)).
  { unfold variant_stock. now rewrite Hp, Hi, Hv. }
  destruct (stock v <? 0)%Z eqn:Hprev.
  - right; left. apply Z.ltb_lt in Hprev. exists (Error "InventoryLedger validation failed"), (stock v).
    repeat split; auto.
    unfold notifyWishlistSubscribers. destruct (stock_alert _ _); reflexivity.
  - left. apply Z.ltb_ge in Hprev. eexists _, (stock v). split; [reflexivity|].
    cbn [snd]. constructor.
    + exact Hbefore.
    + unfold variant_stock, notifyWishlistSubscribers.
      destruct (stock_alert _ _); cbn [inv_db products set_products];
        rewrite lookup_insert_eq; cbn [variants];
        rewrite findIndex_alter by reflexivity;
        rewrite Hi, list_lookup_alter_eq, Hv; reflexivity.
    + split; assumption.
    + repeat split; reflexivity.
    + unfold notifyWishlistSubscribers. destruct (stock_alert _ _); reflexivity.
    + rewrite Hten. unfold notifyWishlistSubscribers.
      destruct (stock_alert _ _); cbn; [reflexivity | now rewrite app_nil_r].
    + unfold notifyWishlistSubscribers.
      destruct (stock_alert _ _); cbn; [destruct (truthy _)|]; now rewrite ?app_nil_r.
    + unfold notifyWishlistSubscribers. destruct (stock_alert _ _); repeat split; reflexivity.
    + exact Hearly.
    + exists p, i. repeat split; [exact Hp | exact Hten | exact Hi |].
      unfold notifyWishlistSubscribers. destruct (stock_alert _ _); reflexivity.
Qed.

Lemma variant_stock_nonnegative (d : Db) (pid vid : ObjectId) (n : Z) :
  stocks_nonnegative d → variant_stock d pid vid = Some n → (0 <= n)%Z.
Proof.
  intros Hinv. unfold variant_stock.
  destruct (products d !! pid) as [p|] eqn:Hp; [|discriminate].
  destruct (findIndex _ _) as [i|]; [|discriminate].
  destruct (variants p !! i) as [v|] eqn:Hv; [|discriminate].
  intros [= <-]. exact (proj1 (Forall_lookup _ _) (Hinv _ _ Hp) _ _ Hv).
Qed.


(** The store of [Demo] with an empty ledger, and two requests on variant
    11 of product 50. *)
Definition demo_inventory : Inventory := mkInventory (Demo.store 1) [] [] [].

Definition demo_adjustment (op : InventoryOperation) (q : Z) : InventoryAdjustment :=
  mkAdjustment 50 11 op (Some q) (Some q) None.

Definition demo_subscribers : list Subscriber :=
  [mkSubscriber 7 "ada@example.com" (Some "Ada")].

Lemma demo_stocks_nonnegative : stocks_nonnegative (inv_db demo_inventory).
Proof.
  intros pid p Hp. unfold demo_inventory, Demo.store in Hp. simpl in Hp.
  apply lookup_singleton_Some in Hp as [_ <-].
  repeat constructor; discriminate.
Defined.







(** X20 (inventory adjustments): no request makes a stock negative: a store
    where every variant of every product has a stock of at least 0 is still
    such a store after the request, whatever the answer. *)
Theorem adjustInventory_keeps_stocks_nonnegative (env : Env) (now : Z) (tenant : ObjectId)
    (claims : option AuthClaims) (productName : string) (subscribers : list Subscriber)
    (body : InventoryAdjustment) (s : Inventory) :
  stocks_nonnegative (inv_db s) →
  stocks_nonnegative
    (inv_db (snd (adjustInventory env now tenant claims productName subscribers body s))).
Proof.
  intros Hinv.
  destruct (adjustInventory_cases env now tenant claims productName subscribers body s)
    as [(e & prev & He & Hrun) | [(err & prev & _ & Hv & Hneg & _) | (_ & _ & Hs)]].
  - destruct Hrun as [_ _ [_ Hn] _ _ _ _ _ _ (p & i & Hp & _ & _ & Hps)].
    intros pid q Hq. rewrite Hps in Hq.
    apply lookup_insert_Some in Hq as [[_ <-] | [_ Hq]]; [|exact (Hinv _ _ Hq)].
    cbn [variants]. apply Forall_alter; [exact (Hinv _ _ Hp)|].
    intros v _ _. exact Hn.
  - pose proof (variant_stock_nonnegative _ _ _ _ Hinv Hv). lia.
  - now rewrite Hs.
Qed.

Lemma adjustInventory_keeps_stocks_nonnegative_witness :
  stocks_nonnegative (inv_db demo_inventory)
  ∧ stocks_nonnegative
      (inv_db (snd (adjustInventory (Demo.env ByIdCondition) 5 1 None "Seye Red Dress"
                      demo_subscribers (demo_adjustment inv_adjust 0) demo_inventory))).
Proof.
  split; [exact demo_stocks_nonnegative|].
  exact (adjustInventory_keeps_stocks_nonnegative (Demo.env ByIdCondition) 5 1 None
           "Seye Red Dress" demo_subscribers (demo_adjustment inv_adjust 0) demo_inventory
           demo_stocks_nonnegative).
Defined.

(** X21 (inventory adjustments): a request leaves the products of every
    other tenant as they are: a product that belongs to a tenant other than
    the caller's is found unchanged after the request, and so is every
    product other than the one the request names. *)
Theorem adjustInventory_tenant_isolation (env : Env) (now : Z) (tenant : ObjectId)
    (claims : option AuthClaims) (productName : string) (subscribers : list Subscriber)
    (body : InventoryAdjustment) (s : Inventory) (pid : ObjectId) (p : Product) :
  products (inv_db s) !! pid = Some p →
  pr_tenantId p ≠ tenant ∨ pid ≠ ia_productId body →
  products (inv_db (snd (adjustInventory env now tenant claims productName subscribers
                           body s))) !! pid = Some p.
Proof.
  intros Hp Hother.
  destruct (adjustInventory_cases env now tenant claims productName subscribers body s)
    as [(e & prev & He & Hrun) | [Hthrown | (_ & _ & Hs)]].
  - destruct Hrun as [_ _ _ _ _ _ _ _ _ (q & i & Hq & Hten & _ & Hps)].
    rewrite Hps, lookup_insert_ne; [exact Hp|].
    intros <-. destruct Hother as [Hne | Hne]; congruence.
  - clear Hthrown. unfold adjustInventory.
    destruct (incomplete_adjustment body); [exact Hp|].
    destruct (products (inv_db s) !! ia_productId body) as [q|] eqn:Hq; [|exact Hp].
    destruct (N.eqb (pr_tenantId q) tenant) eqn:Hten; cbn [negb]; [|exact Hp].
    apply N.eqb_eq in Hten.
    destruct (findIndex _ _); [|exact Hp]. cbv zeta.
    assert (Hne : ia_productId body ≠ pid).
    { intros <-. destruct Hother as [Hne | Hne]; congruence. }
    repeat match goal with |- context [if ?b then _ else _] => destruct b end;
      try exact Hp;
      unfold notifyWishlistSubscribers; destruct (stock_alert _ _);
      cbn [snd inv_db products set_products]; now rewrite lookup_insert_ne.
  - now rewrite Hs.
Qed.

Lemma adjustInventory_tenant_isolation_witness :
  products (inv_db (snd (adjustInventory (Demo.env ByIdCondition) 5 2 None "Seye Red Dress"
                           demo_subscribers (demo_adjustment inv_adjust 0)
                           demo_inventory))) !! 50%N
  = Some Demo.dress.
Proof.
  apply adjustInventory_tenant_isolation; [reflexivity | left; discriminate].
Defined.

Lemma stock_alert_low (previousStock currentStock : Z) :
  (3 < previousStock)%Z → (0 < currentStock <= 3)%Z →
  stock_alert previousStock currentStock = Some low_stock.
Proof.
  intros Hp [Hc Hc']. unfold stock_alert.
  apply Z.ltb_lt in Hp, Hc. apply Z.leb_le in Hc'. now rewrite Hp, Hc, Hc'.
Qed.

Lemma stock_alert_restock (previousStock currentStock : Z) :
  (previousStock <= 0)%Z → (0 < currentStock)%Z →
  stock_alert previousStock currentStock = Some restock.
Proof.
  intros Hp Hc. unfold stock_alert.
  assert ((3 <? previousStock)%Z = false) as -> by (apply Z.ltb_ge; lia).
  apply Z.leb_le in Hp. apply Z.ltb_lt in Hc. now rewrite Hp, Hc.
Qed.

Lemma stock_alert_none (previousStock currentStock : Z) :
  (currentStock <= 0 ∨ 0 < previousStock <= 3 ∨ 0 < previousStock ∧ 3 < currentStock)%Z →
  stock_alert previousStock currentStock = None.
Proof.
  intros H. unfold stock_alert.
  destruct (3 <? previousStock)%Z eqn:H1, (0 <? currentStock)%Z eqn:H2,
           (currentStock <=? 3)%Z eqn:H3, (previousStock <=? 0)%Z eqn:H4;
    try reflexivity; exfalso;
    rewrite ?Z.ltb_lt, ?Z.ltb_ge, ?Z.leb_le, ?Z.leb_gt in *; lia.
Qed.

(** X22 (inventory adjustments, wishlist alerts): for a request answered
    201 with ledger row [e], every subscriber is sent one low-stock
    notification when the stock falls from above 3 into 1..3, and one
    back-in-stock notification when it rises from 0; an email job goes with
    each exactly when the queue is configured. A change that empties the
    variant, starts inside 1..3, or ends above 3 from a positive stock
    sends nothing. *)
Theorem adjustInventory_alerts (env : Env) (now : Z) (tenant : ObjectId)
    (claims : option AuthClaims) (productName : string) (subscribers : list Subscriber)
    (body : InventoryAdjustment) (s : Inventory) (e : LedgerEntry) :
  let out := adjustInventory env now tenant claims productName subscribers body s in
  let prev := le_previousStock e in
  let next := le_nextStock e in
  let sent alert :=
    customerNotifications (snd out)
    = customerNotifications s
      ++ List.map (alert_notification tenant (ia_productId body) productName alert next)
                  subscribers
    ∧ stockJobs (snd out)
      = stockJobs s
        ++ (if truthy (REDIS_URL env) then
              List.map (fun u => mkStockJob (sub_email u) (sub_firstName u) productName
                                            alert next) subscribers
            else []) in
  fst out = Adjusted e →
  ((3 < prev)%Z → (0 < next <= 3)%Z → sent low_stock)
  ∧ (prev = 0%Z → (0 < next)%Z → sent restock)
  ∧ ((next = 0 ∨ 0 < prev <= 3 ∨ 0 < prev ∧ 3 < next)%Z →
     customerNotifications (snd out) = customerNotifications s
     ∧ stockJobs (snd out) = stockJobs s).
Proof.
  intros out prev next sent He.
  pose proof (adjustInventory_cases env now tenant claims productName subscribers body s)
    as Hcases. cbv zeta in Hcases. fold out in Hcases.
  destruct Hcases as [(e' & p & He' & Hrun) | [(err & p & He' & _) | (H201 & _)]];
    [| congruence | rewrite He in H201; now elim H201].
  assert (e' = e) as -> by congruence.
  destruct Hrun as [_ _ _ (Hp & Hn & _) _ Hnot Hjobs _ _ _].
  rewrite <- Hn, <- Hp in Hnot, Hjobs. fold prev next in Hnot, Hjobs.
  subst sent. cbv beta. rewrite Hnot, Hjobs. split; [|split].
  - intros H1 H2. rewrite (stock_alert_low _ _ H1 H2). split; reflexivity.
  - intros H1 H2. rewrite stock_alert_restock by lia. split; reflexivity.
  - intros H. rewrite stock_alert_none by lia. split; apply app_nil_r.
Qed.

Lemma adjustInventory_alerts_witness :
  customerNotifications
    (snd (adjustInventory (Demo.env ByIdCondition) 5 1 None "Seye Red Dress"
            demo_subscribers (mkAdjustment 50 10 inv_remove (Some 6%Z) None None)
            demo_inventory))
  = [mkCustomerNotification 1 7 50 low_stock "Low Stock Alert"
       "Seye Red Dress is running low (2 left)."].
Proof.
  assert (He : fst (adjustInventory (Demo.env ByIdCondition) 5 1 None "Seye Red Dress"
                      demo_subscribers (mkAdjustment 50 10 inv_remove (Some 6%Z) None None)
                      demo_inventory)
               = Adjusted (mkLedger 1 50 10 inv_remove (-6) 8 2 None "unknown" "admin"))
    by reflexivity.
  destruct (adjustInventory_alerts _ _ _ _ _ _ _ _ _ He) as (Hlow & _).
  cbn [le_previousStock le_nextStock] in Hlow.
  destruct Hlow as [-> _]; [lia | lia | reflexivity].
Defined.



(** * The CSV line reader of the bulk product import (modules/admin) *)

(** A character of the ASCII range. [String.prototype.trim],
    [toLowerCase] and the class [\s] are modelled on strings of such
    characters, where they are the ASCII ones. *)
Definition is_ascii (c : ascii) : bool :=
  match c with Ascii _ _ _ _ _ _ _ b7 => negb b7 end.

Definition dquote : ascii := "034"%char.
Definition comma : ascii := ","%char.

(** The loop of [parseCsvLine] from one index on: [line] is what is left of
    the line, [values], [current] and [inQuotes] are the loop's variables.
    The look at [line[index + 1]] past the end gives [undefined], which is
    not a quote. *)
Fixpoint parseCsvLine_from (line : string) (values : list string) (current : string)
    (inQuotes : bool) : list string :=
  match line with
  | EmptyString => values ++ [js_trim current]
  | String char rest =>
    if Ascii.eqb char dquote then
      match rest with
      | String nextChar rest' =>
        if inQuotes && Ascii.eqb nextChar dquote then
          parseCsvLine_from rest' values (current +:+ String dquote "") inQuotes
        else parseCsvLine_from rest values current (negb inQuotes)
      | EmptyString => parseCsvLine_from rest values current (negb inQuotes)
      end
    else if Ascii.eqb char comma && negb inQuotes then
      parseCsvLine_from rest (values ++ [js_trim current]) "" inQuotes
    else parseCsvLine_from rest values (current +:+ String char "") inQuotes
  end.

(** [parseCsvLine]. *)
Definition parseCsvLine (line : string) : list string :=
  parseCsvLine_from line [] "" false.

(** A cell written between quotes, each quote of its text doubled: the
    form that the reader's [inQuotes] branch undoes. *)
Fixpoint double_quotes (text : string) : string :=
  match text with
  | EmptyString => EmptyString
  | String c rest =>
    if Ascii.eqb c dquote then String dquote (String dquote (double_quotes rest))
    else String c (double_quotes rest)
  end.

Definition quoted_cell (text : string) : string :=
  String dquote (double_quotes text +:+ String dquote "").

(** A character that needs no quoting. *)
Definition plain_char (c : ascii) : bool :=
  negb (Ascii.eqb c dquote) && negb (Ascii.eqb c comma).

(** [cell] is a way to write [text] as one cell of a line. *)
Inductive writes_cell : string → string → Prop :=
  | cell_plain (text : string) : all_chars plain_char text = true → writes_cell text text
  | cell_quoted (text : string) : writes_cell (quoted_cell text) text.

Lemma string_app_assoc (a b c : string) : (a +:+ b) +:+ c = a +:+ (b +:+ c).
Proof.
  induction a as [|x a IH]; [reflexivity|].
  unfold String.app in *. cbn [String.append]. now rewrite IH.
Qed.

Lemma string_app_nil_r (a : string) : a +:+ "" = a.
Proof.
  induction a as [|x a IH]; [reflexivity|].
  unfold String.app in *. cbn [String.append]. now rewrite IH.
Qed.

Lemma string_app_cons (c : ascii) (a b : string) : String c a +:+ b = String c (a +:+ b).
Proof. reflexivity. Qed.

Lemma parseCsvLine_from_plain (text rest : string) (values : list string)
    (current : string) :
  all_chars plain_char text = true →
  parseCsvLine_from (text +:+ rest) values current false
  = parseCsvLine_from rest values (current +:+ text) false.
Proof.
  revert current. induction text as [|c text IH]; intros current Hplain.
  - now rewrite string_app_nil_r.
  - cbn [all_chars] in Hplain. apply andb_true_iff in Hplain as [Hc Htext].
    unfold plain_char in Hc. apply andb_true_iff in Hc as [Hq Hcomma].
    apply negb_true_iff in Hq, Hcomma.
    rewrite string_app_cons. cbn [parseCsvLine_from]. rewrite Hq, Hcomma. cbn [andb].
    rewrite IH by exact Htext. now rewrite string_app_assoc.
Qed.

Lemma parseCsvLine_from_open (rest : string) (values : list string) (current : string) :
  parseCsvLine_from (String dquote rest) values current false
  = parseCsvLine_from rest values current true.
Proof. destruct rest; reflexivity. Qed.

(** What may follow a cell: the end of the line or a comma. *)
Definition cell_end (rest : string) : Prop :=
  rest = "" ∨ ∃ r, rest = String comma r.

Lemma parseCsvLine_from_quoted (text rest : string) (values : list string)
    (current : string) :
  cell_end rest →
  parseCsvLine_from (double_quotes text +:+ String dquote rest) values current true
  = parseCsvLine_from rest values (current +:+ text) false.
Proof.
  intros Hend. revert current. induction text as [|c text IH]; intros current.
  - rewrite string_app_nil_r. destruct Hend as [-> | [r ->]]; reflexivity.
  - cbn [double_quotes]. destruct (Ascii.eqb c dquote) eqn:Hc.
    + apply Ascii.eqb_eq in Hc as ->.
      rewrite !string_app_cons. cbn [parseCsvLine_from].
      rewrite Ascii.eqb_refl. cbn [andb].
      rewrite IH. now rewrite string_app_assoc.
    + rewrite string_app_cons. cbn [parseCsvLine_from]. rewrite Hc. cbn [negb andb].
      rewrite andb_false_r, IH. now rewrite string_app_assoc.
Qed.

Lemma parseCsvLine_from_cell (cell text rest : string) (values : list string)
    (current : string) :
  writes_cell cell text → cell_end rest →
  parseCsvLine_from (cell +:+ rest) values current false
  = parseCsvLine_from rest values (current +:+ text) false.
Proof.
  intros [t Hplain | t] Hend.
  - now apply parseCsvLine_from_plain.
  - unfold quoted_cell. rewrite string_app_cons, string_app_assoc, string_app_cons.
    change ("" +:+ rest) with rest.
    rewrite parseCsvLine_from_open. now apply parseCsvLine_from_quoted.
Qed.

Lemma parseCsvLine_from_cells (cells texts : list string) (values : list string)
    (current : string) :
  Forall2 writes_cell cells texts →
  parseCsvLine_from (String.concat "," cells) values current false
  = values ++ match texts with
              | text :: texts' => js_trim (current +:+ text) :: (js_trim <$> texts')
              | [] => [js_trim current]
              end.
Proof.
  intros Hcells. revert values current.
  induction Hcells as [|cell text cells texts Hcell Hrest IH]; intros values current;
    [reflexivity|].
  destruct Hrest as [|cell' text' cells' texts' Hcell' Hrest].
  - cbn [String.concat]. rewrite <- (string_app_nil_r cell).
    rewrite (parseCsvLine_from_cell _ _ _ _ _ Hcell) by now left. reflexivity.
  - change (String.concat "," (cell :: cell' :: cells'))
      with (cell +:+ String comma (String.concat "," (cell' :: cells'))).
    rewrite (parseCsvLine_from_cell _ _ _ _ _ Hcell) by (right; eauto).
    cbn [parseCsvLine_from]. change (Ascii.eqb comma dquote) with false.
    change (Ascii.eqb comma comma && negb false) with true. cbv iota.
    rewrite IH. now rewrite <- app_assoc.
Qed.

(** X24 (bulk product import, [parseCsvLine]): the reader undoes the
    writing of a line of ASCII text: when each cell of a line is written
    either as it is (no comma, no quote in it) or between quotes with its
    quotes doubled, and the cells are joined by commas, [parseCsvLine]
    returns the texts of the cells, each trimmed; commas and quotes inside
    a quoted cell come back as they were. *)
Theorem parseCsvLine_reads_cells (cells texts : list string) :
  Forall (fun text => all_chars is_ascii text = true) texts →
  cells ≠ [] → Forall2 writes_cell cells texts →
  parseCsvLine (String.concat "," cells) = js_trim <$> texts.
Proof.
  intros _ Hne Hcells. unfold parseCsvLine.
  rewrite (parseCsvLine_from_cells _ _ _ _ Hcells).
  destruct Hcells; [now elim Hne | reflexivity].
Qed.

Lemma parseCsvLine_reads_cells_witness :
  parseCsvLine (String.concat "," [" Seye Dress"; quoted_cell "Red, size M "; "15000"])
  = ["Seye Dress"; "Red, size M"; "15000"].
Proof.
  apply (parseCsvLine_reads_cells _ [" Seye Dress"; "Red, size M "; "15000"]);
    [repeat constructor | discriminate | repeat constructor].
Defined.

Fixpoint count_char (a : ascii) (s : string) : nat :=
  match s with
  | EmptyString => 0
  | String c rest => (if Ascii.eqb c a then 1 else 0) + count_char a rest
  end.

Lemma parseCsvLine_from_length (line : string) :
  ∀ (values : list string) (current : string) (inQuotes : bool),
    let n := length (parseCsvLine_from line values current inQuotes) in
    length values + 1 ≤ n ≤ length values + 1 + count_char comma line
    ∧ (count_char dquote line = 0 → inQuotes = false →
       n = length values + 1 + count_char comma line).
Proof.
  cut ((∀ values current inQuotes,
          let n := length (parseCsvLine_from line values current inQuotes) in
          length values + 1 ≤ n ≤ length values + 1 + count_char comma line
          ∧ (count_char dquote line = 0 → inQuotes = false →
             n = length values + 1 + count_char comma line))
       ∧ (∀ c values current inQuotes,
          let n := length (parseCsvLine_from (String c line) values current inQuotes) in
          length values + 1 ≤ n ≤ length values + 1 + count_char comma (String c line)
          ∧ (count_char dquote (String c line) = 0 → inQuotes = false →
             n = length values + 1 + count_char comma (String c line)))).
  { intros [H _]. exact H. }
  induction line as [|c0 line [IH0 IH1]].
  - split.
    + intros values current b. cbn. rewrite length_app. cbn. lia.
    + intros c values current b. cbn [parseCsvLine_from count_char].
      destruct (Ascii.eqb c dquote) eqn:Hq.
      * apply Ascii.eqb_eq in Hq as ->. change (Ascii.eqb dquote comma) with false.
        cbn. rewrite length_app. cbn. lia.
      * destruct (Ascii.eqb c comma); destruct b; cbn;
          rewrite ?length_app; cbn; rewrite ?length_app; cbn; lia.
  - split; [exact (IH1 c0)|].
    intros c values current b. cbn zeta.
    change (parseCsvLine_from (String c (String c0 line)) values current b)
      with (if Ascii.eqb c dquote then
              if b && Ascii.eqb c0 dquote then
                parseCsvLine_from line values (current +:+ String dquote "") b
              else parseCsvLine_from (String c0 line) values current (negb b)
            else if Ascii.eqb c comma && negb b then
              parseCsvLine_from (String c0 line) (values ++ [js_trim current]) "" b
            else parseCsvLine_from (String c0 line) values (current +:+ String c "") b).
    change (count_char comma (String c (String c0 line)))
      with ((if Ascii.eqb c comma then 1 else 0) + count_char comma (String c0 line)).
    change (count_char dquote (String c (String c0 line)))
      with ((if Ascii.eqb c dquote then 1 else 0) + count_char dquote (String c0 line)).
    destruct (Ascii.eqb c dquote) eqn:Hq.
    + apply Ascii.eqb_eq in Hq as ->. change (Ascii.eqb dquote comma) with false.
      destruct (b && Ascii.eqb c0 dquote).
      * pose proof (IH0 values (current +:+ String dquote "") b) as [Hb _].
        cbn zeta in Hb. cbn [count_char]. split; [lia | intros; lia].
      * pose proof (IH1 c0 values current (negb b)) as [Hb _].
        cbn zeta in Hb. split; [lia | intros; lia].
    + destruct (Ascii.eqb c comma) eqn:Hc; destruct b; cbn [andb negb].
      * pose proof (IH1 c0 values (current +:+ String c "") true) as [Hb _].
        cbn zeta in Hb. split; [lia | discriminate].
      * pose proof (IH1 c0 (values ++ [js_trim current]) "" false) as [Hb He].
        cbn zeta in Hb, He. rewrite length_app in Hb, He. cbn [length] in Hb, He.
        split; [lia | intros Hz _; specialize (He Hz eq_refl); lia].
      * pose proof (IH1 c0 values (current +:+ String c "") true) as [Hb _].
        cbn zeta in Hb. split; [lia | discriminate].
      * pose proof (IH1 c0 values (current +:+ String c "") false) as [Hb He].
        cbn zeta in Hb, He. split; [lia | intros Hz _; specialize (He Hz eq_refl); lia].
Qed.

(** X25 (bulk product import, [parseCsvLine]): every line gives at least
    one value and at most one more than it has commas; a line without any
    quote gives exactly one value more than it has commas. *)
Theorem parseCsvLine_length (line : string) :
  1 ≤ length (parseCsvLine line) ≤ 1 + count_char comma line
  ∧ (count_char dquote line = 0 → length (parseCsvLine line) = 1 + count_char comma line).
Proof.
  destruct (parseCsvLine_from_length line [] "" false) as [Hb He].
  cbn zeta in Hb, He. cbn [length] in Hb, He. unfold parseCsvLine.
  split; [lia | intros Hz; now apply He].
Qed.

(** * Product slugs (modules/admin) *)

Definition toLowerCase_char (c : ascii) : ascii :=
  let n := Ascii.N_of_ascii c in
  if (65 <=? n)%N && (n <=? 90)%N then Ascii.ascii_of_N (n + 32) else c.

Fixpoint map_chars (f : ascii → ascii) (s : string) : string :=
  match s with
  | EmptyString => EmptyString
  | String c rest => String (f c) (map_chars f rest)
  end.

(** [s.replace(/[^...]/g, "")] for a class of characters to keep. *)
Fixpoint filter_chars (keep : ascii → bool) (s : string) : string :=
  match s with
  | EmptyString => EmptyString
  | String c rest => if keep c then String c (filter_chars keep rest)
                     else filter_chars keep rest
  end.

(** [s.replace(/c+/g, r)] for a class [in_class] of characters: each
    maximal run of the class becomes one [r]. [inRun] tells that the
    character before was of the class. *)
Fixpoint replace_runs (in_class : ascii → bool) (r : ascii) (inRun : bool) (s : string)
    : string :=
  match s with
  | EmptyString => EmptyString
  | String c rest =>
    if in_class c then
      if inRun then replace_runs in_class r true rest
      else String r (replace_runs in_class r true rest)
    else String c (replace_runs in_class r false rest)
  end.

Definition is_lower_or_digit (c : ascii) : bool :=
  let n := Ascii.N_of_ascii c in
  ((97 <=? n)%N && (n <=? 122)%N) || ((48 <=? n)%N && (n <=? 57)%N).

(** The class [[a-z0-9\s-]]. *)
Definition slug_kept (c : ascii) : bool :=
  is_lower_or_digit c || Ascii.is_space c || Ascii.eqb "-" c.

(** The characters of a slug: [[a-z0-9-]]. *)
Definition slug_char (c : ascii) : bool :=
  is_lower_or_digit c || Ascii.eqb "-" c.

(** [slugify]. *)
Definition slugify (input : string) : string :=
  replace_runs (Ascii.eqb "-") "-" false
    (replace_runs Ascii.is_space "-" false
       (filter_chars slug_kept (js_trim (map_chars toLowerCase_char input)))).

Lemma all_chars_filter_chars (P : ascii → bool) (s : string) :
  all_chars P (filter_chars P s) = true.
Proof.
  induction s as [|c s IH]; [reflexivity|].
  cbn [filter_chars]. destruct (P c) eqn:Hc; [|exact IH].
  cbn [all_chars]. now rewrite Hc.
Qed.

Lemma all_chars_replace_runs (P Q in_class : ascii → bool) (r : ascii) (s : string) :
  (∀ c, P c = true → in_class c = false → Q c = true) → Q r = true →
  all_chars P s = true → ∀ inRun, all_chars Q (replace_runs in_class r inRun s) = true.
Proof.
  intros HPQ Hr. induction s as [|c s IH]; intros Hs inRun; [reflexivity|].
  cbn [all_chars] in Hs. apply andb_true_iff in Hs as [Hc Hs].
  cbn [replace_runs]. destruct (in_class c) eqn:Hin.
  - destruct inRun; cbn [all_chars]; rewrite ?Hr; now apply IH.
  - cbn [all_chars]. rewrite (HPQ _ Hc Hin). now apply IH.
Qed.

Lemma replace_runs_dash (s : string) :
  ∀ inRun,
    includes (replace_runs (Ascii.eqb "-") "-" inRun s) "--" = false
    ∧ (inRun = true → startsWith (replace_runs (Ascii.eqb "-") "-" inRun s) "-" = false).
Proof.
  induction s as [|c s IH]; intros inRun; [split; reflexivity|].
  cbn [replace_runs]. destruct (Ascii.eqb "-" c) eqn:Hc.
  - destruct inRun; [apply IH|]. destruct (IH true) as [Hin Hst].
    split; [|discriminate].
    cbn [includes startsWith]. rewrite Hin, (Hst eq_refl). reflexivity.
  - destruct (IH false) as [Hin _]. split.
    + cbn [includes startsWith]. now rewrite Hc, Hin.
    + intros _. cbn [startsWith]. now rewrite Hc.
Qed.

Lemma slug_kept_not_space (c : ascii) :
  slug_kept c = true → Ascii.is_space c = false → slug_char c = true.
Proof.
  unfold slug_kept, slug_char. intros H Hs. rewrite Hs, orb_false_r in H. exact H.
Qed.

Lemma slugify_chars (input : string) :
  all_chars slug_char (slugify input) = true ∧ includes (slugify input) "--" = false.
Proof.
  unfold slugify. split; [|apply replace_runs_dash].
  apply all_chars_replace_runs with (P := slug_char); [auto | reflexivity |].
  apply all_chars_replace_runs with (P := slug_kept);
    [exact slug_kept_not_space | reflexivity | apply all_chars_filter_chars].
Qed.

(** X26 ([slugify]): the slug of an ASCII text is made of lower-case
    letters, digits and hyphens only, and never has two hyphens in a
    row. *)
Theorem slugify_alphabet (input : string) :
  all_chars is_ascii input = true →
  all_chars slug_char (slugify input) = true ∧ includes (slugify input) "--" = false.
Proof. intros _. apply slugify_chars. Qed.

Lemma slugify_alphabet_witness :
  all_chars slug_char (slugify "  Seye's  Red--Dress (M) ") = true
  ∧ includes (slugify "  Seye's  Red--Dress (M) ") "--" = false.
Proof. apply slugify_alphabet. reflexivity. Defined.

Example slugify_dress : slugify "  Seye's  Red--Dress (M) " = "seyes-red-dress-m".
Proof. reflexivity. Qed.

Lemma rev_app_rev_app (s a b : string) :
  String.rev_app (String.rev_app s a) b = String.rev_app a (s +:+ b).
Proof.
  revert a. induction s as [|c s IH]; intros a; [reflexivity|].
  cbn [String.rev_app]. rewrite IH. reflexivity.
Qed.

Lemma string_rev_involutive (s : string) : String.rev (String.rev s) = s.
Proof.
  unfold String.rev. rewrite rev_app_rev_app. cbn [String.rev_app].
  apply string_app_nil_r.
Qed.

Lemma all_chars_rev_app (P : ascii → bool) (s a : string) :
  all_chars P s = true → all_chars P a = true → all_chars P (String.rev_app s a) = true.
Proof.
  revert a. induction s as [|c s IH]; intros a Hs Ha; [exact Ha|].
  cbn [all_chars] in Hs. apply andb_true_iff in Hs as [Hc Hs].
  cbn [String.rev_app]. apply IH; [exact Hs|]. cbn [all_chars]. now rewrite Hc.
Qed.

Lemma trim_start_no_space (s : string) :
  all_chars (fun c => negb (Ascii.is_space c)) s = true → trim_start s = s.
Proof.
  destruct s as [|c s]; [reflexivity|]. cbn [all_chars trim_start].
  intros H. apply andb_true_iff in H as [Hc _]. apply negb_true_iff in Hc.
  now rewrite Hc.
Qed.

Lemma js_trim_no_space (s : string) :
  all_chars (fun c => negb (Ascii.is_space c)) s = true → js_trim s = s.
Proof.
  intros Hs. unfold js_trim. rewrite (trim_start_no_space s Hs).
  rewrite trim_start_no_space; [apply string_rev_involutive|].
  now apply all_chars_rev_app.
Qed.

Lemma map_chars_fixed (f : ascii → ascii) (P : ascii → bool) (s : string) :
  (∀ c, P c = true → f c = c) → all_chars P s = true → map_chars f s = s.
Proof.
  intros Hf. induction s as [|c s IH]; [reflexivity|]. cbn [all_chars map_chars].
  intros H. apply andb_true_iff in H as [Hc Hs]. now rewrite (Hf _ Hc), IH.
Qed.

Lemma filter_chars_all (P : ascii → bool) (s : string) :
  all_chars P s = true → filter_chars P s = s.
Proof.
  induction s as [|c s IH]; [reflexivity|]. cbn [all_chars filter_chars].
  intros H. apply andb_true_iff in H as [Hc Hs]. now rewrite Hc, IH.
Qed.

Lemma replace_runs_none (in_class : ascii → bool) (r : ascii) (s : string) :
  all_chars (fun c => negb (in_class c)) s = true →
  ∀ inRun, replace_runs in_class r inRun s = s.
Proof.
  induction s as [|c s IH]; [reflexivity|]. cbn [all_chars replace_runs].
  intros H inRun. apply andb_true_iff in H as [Hc Hs]. apply negb_true_iff in Hc.
  now rewrite Hc, IH.
Qed.

Lemma replace_runs_dash_fixed (s : string) :
  ∀ inRun,
    includes s "--" = false → (inRun = true → startsWith s "-" = false) →
    replace_runs (Ascii.eqb "-") "-" inRun s = s.
Proof.
  induction s as [|c s IH]; intros inRun Hin Hst; [reflexivity|].
  cbn [includes startsWith] in Hin. apply orb_false_iff in Hin as [Hhead Hin].
  cbn [replace_runs]. destruct (Ascii.eqb "-" c) eqn:Hc.
  - apply Ascii.eqb_eq in Hc as <-.
    destruct inRun; [specialize (Hst eq_refl); destruct s; discriminate Hst|].
    rewrite IH; [reflexivity | exact Hin | intros _; exact Hhead].
  - rewrite IH; [reflexivity | exact Hin | discriminate].
Qed.

Lemma slug_char_lower (c : ascii) : slug_char c = true → toLowerCase_char c = c.
Proof.
  destruct c as [[] [] [] [] [] [] [] []]; try reflexivity; discriminate.
Qed.

Lemma slug_char_not_space (c : ascii) :
  slug_char c = true → negb (Ascii.is_space c) = true.
Proof.
  destruct c as [[] [] [] [] [] [] [] []]; try reflexivity; discriminate.
Qed.

Lemma slug_char_kept (c : ascii) : slug_char c = true → slug_kept c = true.
Proof.
  unfold slug_char, slug_kept. intros H. apply orb_true_iff in H as [-> | ->];
    [reflexivity | apply orb_true_r].
Qed.

(** X27 ([slugify]): a text made of lower-case letters, digits and single
    hyphens is its own slug; so the slug of a slug is the slug itself. *)
Theorem slugify_idempotent (input : string) :
  all_chars is_ascii input = true →
  (all_chars slug_char input = true → includes input "--" = false →
   slugify input = input)
  ∧ slugify (slugify input) = slugify input.
Proof.
  intros _.
  assert (Hfixed : ∀ t, all_chars slug_char t = true → includes t "--" = false →
                        slugify t = t).
  { intros t Hchars Hdash. unfold slugify.
    rewrite (map_chars_fixed _ _ _ slug_char_lower Hchars).
    rewrite js_trim_no_space
      by (exact (all_chars_impl _ _ _ slug_char_not_space Hchars)).
    rewrite filter_chars_all by (exact (all_chars_impl _ _ _ slug_char_kept Hchars)).
    rewrite (replace_runs_none Ascii.is_space)
      by (exact (all_chars_impl _ _ _ slug_char_not_space Hchars)).
    apply replace_runs_dash_fixed; [exact Hdash | discriminate]. }
  split; [exact (Hfixed input)|].
  destruct (slugify_chars input) as [Hchars Hdash]. now apply Hfixed.
Qed.

Lemma slugify_idempotent_witness :
  slugify "seyes-red-dress-m" = "seyes-red-dress-m"
  ∧ slugify (slugify "Seye's Red Dress") = slugify "Seye's Red Dress".
Proof.
  split.
  - apply (slugify_idempotent "seyes-red-dress-m"); reflexivity.
  - apply (slugify_idempotent "Seye's Red Dress"). reflexivity.
Defined.
